(** * Docagent: repository acquisition and file classification

    A shallow embedding of the acquisition routine [clone_repository] and of
    the classification tools of [AdvancedRepositoryTools] found in
    [Docagent.py], together with the properties its specification states
    about them.  Further modules embed [directory_read],
    [_extract_relevant_snippet], the report of [detailed_file_analysis] and
    the routines that choose and save the documents, with properties read
    off the code.

    Conventions.
    - A Python [str] is a Rocq [string]; the character [c] stands for the
      code point [N_of_ascii c], so the strings covered are those over
      U+0000..U+00FF.  On that range [str.lower], [str.strip] and the
      regular-expression class [\w] are the functions written out below.
    - Effects (network probes, file-system calls, sleeps, sub-processes) are
      modelled by explicit outcomes supplied by an environment and by the
      trace of effects a run performs.
    - Messages printed or returned as formatted text are represented by
      constructors carrying the formatted fields. *)

From Stdlib Require Import ZArith NArith Ascii String List Bool Lia.
From Stdlib Require Import Permutation Sorted DecimalString.
From stdpp Require Import gmap strings list fin_maps.

Local Open Scope string_scope.
Local Open Scope list_scope.

(** ** Python strings *)

Module Py.

Definition code (c : ascii) : N := N_of_ascii c.

Definition in_range (lo hi : N) (c : ascii) : bool :=
  ((lo <=? code c) && (code c <=? hi))%N.

(** [str.isspace] on one character. *)
Definition is_space (c : ascii) : bool :=
  in_range 9 13 c || in_range 28 32 c || (code c =? 133)%N || (code c =? 160)%N.

Definition is_upper (c : ascii) : bool :=
  in_range 65 90 c || in_range 192 214 c || in_range 216 222 c.

Definition lower_char (c : ascii) : ascii :=
  if is_upper c then ascii_of_N (code c + 32) else c.

(** [s.lower()] *)
Fixpoint lower (s : string) : string :=
  match s with
  | EmptyString => EmptyString
  | String c r => String (lower_char c) (lower r)
  end.

(** [c.isalnum()] *)
Definition is_alnum (c : ascii) : bool :=
  in_range 48 57 c || in_range 65 90 c || in_range 97 122 c
  || (code c =? 170)%N || in_range 178 179 c || (code c =? 181)%N
  || in_range 185 186 c || in_range 188 190 c
  || in_range 192 214 c || in_range 216 246 c || in_range 248 255 c.

(** The class [\w] of the [re] module on a [str] pattern. *)
Definition is_word (c : ascii) : bool := is_alnum c || (code c =? 95)%N.

Fixpoint lstrip (s : string) : string :=
  match s with
  | EmptyString => EmptyString
  | String c r => if is_space c then lstrip r else s
  end.

Fixpoint rstrip (s : string) : string :=
  match s with
  | EmptyString => EmptyString
  | String c r =>
      match rstrip r with
      | EmptyString => if is_space c then EmptyString else String c EmptyString
      | r' => String c r'
      end
  end.

(** [s.strip()] *)
Definition strip (s : string) : string := rstrip (lstrip s).

(** [s.startswith(p)] *)
Definition startswith (s p : string) : bool := String.prefix p s.

(** [p in s] *)
Fixpoint contains (p s : string) : bool :=
  String.prefix p s
  || match s with
     | EmptyString => false
     | String _ r => contains p r
     end.

(** [s.endswith("/")]-style test on the last character. *)
Fixpoint ends_with_char (c : ascii) (s : string) : bool :=
  match s with
  | EmptyString => false
  | String a EmptyString => Ascii.eqb a c
  | String _ r => ends_with_char c r
  end.

(** [s.split(sep)] for a one-character separator: never empty. *)
Fixpoint split (sep : ascii) (s : string) : list string :=
  match s with
  | EmptyString => [EmptyString]
  | String c r =>
      if Ascii.eqb c sep then EmptyString :: split sep r
      else match split sep r with
           | [] => [String c EmptyString]
           | h :: t => String c h :: t
           end
  end.

(** [l[-1]] on the result of [split]. *)
Definition last_item (l : list string) : string := List.last l EmptyString.

Fixpoint intersperse (new s : string) : string :=
  match s with
  | EmptyString => new
  | String c r => new +:+ String c (intersperse new r)
  end.

Fixpoint replace_from (old new : string) (skip : nat) (s : string) : string :=
  match s with
  | EmptyString => EmptyString
  | String c r =>
      match skip with
      | S k => replace_from old new k r
      | O =>
          if String.prefix old s
          then new +:+ replace_from old new (String.length old - 1) r
          else String c (replace_from old new 0 r)
      end
  end.

(** [s.replace(old, new)]: every non-overlapping occurrence, left to right. *)
Definition replace (old new s : string) : string :=
  if String.eqb old EmptyString then intersperse new s
  else replace_from old new 0 s.

Fixpoint take_nat (n : nat) (s : string) : string :=
  match n, s with
  | S k, String c r => String c (take_nat k r)
  | _, _ => EmptyString
  end.

(** [s[:n]] *)
Definition take (n : N) (s : string) : string := take_nat (N.to_nat n) s.

(** [len(s)] *)
Definition len (s : string) : N := N.of_nat (String.length s).

(** [str(n)] for a natural number. *)
Definition str_of_N (n : N) : string := NilZero.string_of_uint (N.to_uint n).

End Py.

(** ** pathlib *)

Module Pathlib.

(** An absolute POSIX path, as the list of its components. *)
Definition Path := list string.

Definition parts_of (s : string) : list string :=
  List.filter (fun p => negb (String.eqb p "") && negb (String.eqb p "."))
              (Py.split "/" s).

(** [p / s] *)
Definition truediv (p : Path) (s : string) : Path :=
  if Py.startswith s "/" then parts_of s else p ++ parts_of s.

(** [p.name] *)
Definition name (p : Path) : string := List.last p "".

Fixpoint rfind_dot (s : string) : option nat :=
  match s with
  | EmptyString => None
  | String c r =>
      match rfind_dot r with
      | Some i => Some (S i)
      | None => if Ascii.eqb c "." then Some 0 else None
      end
  end.

Fixpoint drop (n : nat) (s : string) : string :=
  match n, s with
  | S k, String _ r => drop k r
  | _, _ => s
  end.

(** [PurePath.suffix] of a file name: from the last dot, unless that dot is
    the first or the last character. *)
Definition suffix_of_name (nm : string) : string :=
  match rfind_dot nm with
  | Some i =>
      if ((0 <? i) && (i <? String.length nm - 1))%nat then drop i nm else ""
  | None => ""
  end.

Definition suffix (p : Path) : string := suffix_of_name (name p).

(** [p.with_suffix(sfx)] for a path with a non-empty name. *)
Definition with_suffix (p : Path) (sfx : string) : Path :=
  let nm := name p in
  let stem := Py.take (Py.len nm - Py.len (suffix_of_name nm)) nm in
  List.removelast p ++ [stem +:+ sfx].

(** [str(p)] *)
Definition to_str (p : Path) : string :=
  match p with
  | [] => "/"
  | _ => String.concat "" (List.map (fun c => "/" +:+ c) p)
  end.

End Pathlib.

(** ** Exceptions *)

Module Exc.

(** The exceptions the modelled calls raise.  All of them are subclasses of
    [Exception]. *)
Inductive exn : Type :=
| HTTPError (status : N)
| URLError
| PermissionError
| FileNotFoundError
| OSError
| UnicodeDecodeError
| TimeoutExpired
| OtherException.

Inductive cls : Type :=
| CHTTPError | CURLError | COSError | CPermissionError | CFileNotFoundError
| CUnicodeDecodeError | CTimeoutExpired | CException.

(** [isinstance(e, c)], following the class hierarchy of the standard
    library: [HTTPError < URLError < OSError], [PermissionError < OSError],
    [FileNotFoundError < OSError]. *)
Definition isinstance (e : exn) (c : cls) : bool :=
  match c, e with
  | CException, _ => true
  | CHTTPError, HTTPError _ => true
  | CURLError, (HTTPError _ | URLError) => true
  | COSError, (HTTPError _ | URLError | PermissionError | FileNotFoundError | OSError) => true
  | CPermissionError, PermissionError => true
  | CFileNotFoundError, FileNotFoundError => true
  | CUnicodeDecodeError, UnicodeDecodeError => true
  | CTimeoutExpired, TimeoutExpired => true
  | _, _ => false
  end.

Inductive result (A : Type) : Type :=
| Ok (a : A)
| Raise (e : exn).

Arguments Ok {A} a.
Arguments Raise {A} e.

End Exc.

Export Exc.

(** ** Files and directories on disk *)

Module Disk.

(** A regular file: its name, the outcome of [stat().st_size], whether
    [exists()] holds when asked again later, and the outcome of
    [read_text(encoding='utf-8', errors='ignore')]. *)
Record file := {
  fname : string;
  fstat : result N;
  fexists : bool;
  fread : result string
}.

(** A directory: its name, its regular files and its sub-directories, both
    in the order in which the operating system lists them.  The name of the
    root plays no role. *)
#[warnings="-register-all"]
Inductive tree : Type :=
| Tree (name : string) (files : list file) (subdirs : list tree).

Definition dname (t : tree) : string :=
  match t with Tree nm _ _ => nm end.

End Disk.

Export Disk.

(** ** The acquirer: [EnhancedDocumentationFlow.clone_repository] *)

Module Acquirer.

Import Pathlib.

(** *** Reference validation *)

Definition is_name_char (c : ascii) : bool :=
  Py.is_word c || Ascii.eqb c "-" || Ascii.eqb c ".".

Fixpoint span (p : ascii -> bool) (s : string) : string * string :=
  match s with
  | EmptyString => (EmptyString, EmptyString)
  | String c r =>
      if p c then let '(a, b) := span p r in (String c a, b)
      else (EmptyString, s)
  end.

Fixpoint strip_prefix (p s : string) : option string :=
  match p, s with
  | EmptyString, _ => Some s
  | String a p', String b s' => if Ascii.eqb a b then strip_prefix p' s' else None
  | String _ _, EmptyString => None
  end.

Definition newline : string := String (ascii_of_N 10) EmptyString.

(** What [$] accepts after the optional slash: the end of the string, or a
    single newline that ends the string. *)
Definition at_end (s : string) : bool :=
  String.eqb s "" || String.eqb s newline.

(** [re.match(r"^https://github\.com/[\w\-\.]+/[\w\-\.]+/?$", s)] is not
    [None].  Neither class contains the slash or the newline, so each [+]
    consumes the maximal run of class characters. *)
Definition match_github_url (s : string) : bool :=
  match strip_prefix "https://github.com/" s with
  | None => false
  | Some r1 =>
      let '(owner, r2) := span is_name_char r1 in
      negb (String.eqb owner "")
      && match r2 with
         | String c r3 =>
             Ascii.eqb c "/"
             && (let '(nm, r4) := span is_name_char r3 in
                 negb (String.eqb nm "")
                 && (at_end r4
                     || match r4 with
                        | String d r5 => Ascii.eqb d "/" && at_end r5
                        | EmptyString => false
                        end))
         | EmptyString => false
         end
  end.

Definition _validate_github_url (url : string) : bool :=
  match_github_url (Py.strip url).

(** *** Network probes *)

(** [urlopen("https://github.com", timeout=10)]: the status code of the
    response, or the exception raised. *)
Definition _check_github_connectivity (probe : result N) : bool :=
  match probe with
  | Ok status => (status =? 200)%N
  | Raise _ => false
  end.

(** [request] is the outcome of building the [Request] object and adding
    the header, [probe] that of [urlopen(request, timeout=15)]. *)
Definition _check_repository_exists (request : result unit) (probe : result N) : bool :=
  match request with
  | Raise _ => true
  | Ok _ =>
      match probe with
      | Ok status => (status =? 200)%N
      | Raise e =>
          if isinstance e CHTTPError then false
          else if isinstance e CURLError then false
          else true
      end
  end.

(** *** Target directory *)

Definition repo_name (project_url : string) : string :=
  Py.replace ".git" "" (Py.last_item (Py.split "/" project_url)).

(** [Path("workdir").resolve()] in the current directory [cwd]. *)
Definition workdir (cwd : Path) : Path := cwd ++ ["workdir"].

Definition repo_path (cwd : Path) (project_url : string) : Path :=
  truediv (workdir cwd) (repo_name project_url).

(** *** Effects and environment *)

Inductive event : Type :=
| ProbeHost
| ProbeRepository (url : string)
| Mkdir (p : Path)
| Rmtree (p : Path)
| Chmod (p : Path) (mode : N)
| Shell (cmd : list string)
| Sleep (seconds : N)
| Rename (src dst : Path)
| GitClone (cmd : list string) (timeout : N)
| RmtreeIgnoreErrors (p : Path)
| ListDir (p : Path).

(** One removal command: the exception it raised, if any, and whether the
    target directory is gone afterwards. *)
Record removal := { rm_error : option exn; rm_removed : bool }.

(** One [subprocess.run] of git: the pair (return code, stderr) or the
    exception raised, and whether the target directory exists afterwards. *)
Record git_run := { git_result : result (Z * string); dir_left : bool }.

Record env := {
  cwd : Path;
  os_nt : bool;
  now : N;
  host_probe : result N;
  repo_request : result unit;
  repo_probe : result N;
  mkdir_workdir : result unit;
  target_exists : bool;
  stale_tree : tree;
  removal_of : nat -> removal;
  rename_aside : result unit;
  git_of : nat -> git_run;
  post_exists : bool;
  post_is_dir : bool;
  post_items : result nat
}.

Inductive outcome : Type :=
| Returned (b : bool)
| Raised (e : exn).

(** Control after one iteration of a [for] loop. *)
Inductive ctl (S : Type) : Type :=
| Next (s : S)
| Break (s : S)
| Return (b : bool).

Arguments Next {S} s.
Arguments Break {S} s.
Arguments Return {S} b.

(** [for i in indices: body], with [break] and [return]. *)
Fixpoint for_each {S : Type} (body : nat -> S -> list event * ctl S)
    (indices : list nat) (s : S) : list event * ctl S :=
  match indices with
  | [] => ([], Next s)
  | i :: rest =>
      match body i s with
      | (t, Next s') => let '(t', c) := for_each body rest s' in (t ++ t', c)
      | (t, c) => (t, c)
      end
  end.

(** *** Removal of a stale working copy *)

(** The loop of [_force_remove_directory] over
    [os.walk(path, topdown=False)]: the sub-directories are walked first,
    then the files of the directory and the names of its sub-directories
    get mode [0o777].  A failing [chmod] is ignored. *)
Fixpoint chmod_contents (p : Path) (t : tree) : list event :=
  match t with
  | Tree _ fs ds =>
      List.flat_map (fun d => chmod_contents (p ++ [dname d]) d) ds
      ++ List.map (fun f => Chmod (p ++ [fname f]) 511) fs
      ++ List.map (fun d => Chmod (p ++ [dname d]) 511) ds
  end.

(** [contents] is what the directory holds when the routine runs; the
    final [shutil.rmtree] may raise, and the routine re-raises. *)
Definition _force_remove_directory (path : Path) (contents : tree) : list event :=
  chmod_contents path contents ++ [Rmtree path].

Definition removal_command (e : env) (target : Path) (attempt : nat) : list event :=
  match attempt with
  | 0 => [Rmtree target]
  | 1 => _force_remove_directory target (stale_tree e)
  | _ => if os_nt e then [Shell ["rmdir"; "/s"; "/q"; to_str target]]
         else [Shell ["rm"; "-rf"; to_str target]]
  end.

(** The state of the loop is whether the target directory is present. *)
Definition cleanup_body (e : env) (target : Path) (attempt : nat) (present : bool)
  : list event * ctl bool :=
  let backoff := if (attempt <? 2)%nat then [Sleep 1] else [] in
  if present then
    let o := removal_of e attempt in
    let present' := negb (rm_removed o) in
    match rm_error o with
    | Some _ => (removal_command e target attempt ++ backoff, Next present')
    | None =>
        if present' then (removal_command e target attempt ++ backoff, Next true)
        else (removal_command e target attempt, Break false)
    end
  else ([], Break false).

Definition backup_path (e : env) (target : Path) : Path :=
  with_suffix target (".backup_" +:+ Py.str_of_N (now e)).

(** The block guarded by [if repo_path.exists()].  [Next present] means the
    run goes on, with the target directory present or not. *)
Definition cleanup (e : env) (target : Path) : list event * ctl bool :=
  if target_exists e then
    match for_each (cleanup_body e target) [0; 1; 2] true with
    | (t, Return b) => (t, Return b)
    | (t, Next present) | (t, Break present) =>
        if present then
          match rename_aside e with
          | Ok _ => (t ++ [Rename target (backup_path e target)], Next false)
          | Raise _ => (t ++ [Rename target (backup_path e target)], Return false)
          end
        else (t, Next false)
    end
  else ([], Next false).

(** *** The copy, with retries *)

Definition clone_command (project_url : string) (target : Path) (attempt : nat) : list string :=
  match attempt with
  | 0 => ["git"; "clone"; "--depth"; "1"; "--single-branch"; project_url; to_str target]
  | 1 => ["git"; "clone"; "--single-branch"; project_url; to_str target]
  | _ => ["git"; "clone"; project_url; to_str target]
  end.

Definition max_retries : nat := 3.

(** The state of the loop is [clone_success]. *)
Definition clone_body (e : env) (project_url : string) (target : Path)
    (attempt : nat) (clone_success : bool) : list event * ctl bool :=
  let run := [GitClone (clone_command project_url target attempt) 300] in
  match git_result (git_of e attempt) with
  | Ok (returncode, stderr) =>
      if (returncode =? 0)%Z then (run, Break true)
      else
        let error_msg := Py.strip stderr in
        if Py.contains "already exists and is not an empty directory" error_msg then
          if dir_left (git_of e attempt)
          then (run ++ [RmtreeIgnoreErrors target; Sleep 2], Next clone_success)
          else (run, Next clone_success)
        else if Py.contains "not found" (Py.lower error_msg)
                || Py.contains "does not exist" (Py.lower error_msg) then
          (run, Return false)
        else if Py.contains "permission denied" (Py.lower error_msg)
                || Py.contains "forbidden" (Py.lower error_msg) then
          (run, Return false)
        else if (attempt <? max_retries - 1)%nat then
          (run ++ [Sleep ((N.of_nat attempt + 1) * 3)], Next clone_success)
        else (run, Next clone_success)
  | Raise ex =>
      if isinstance ex CTimeoutExpired then
        if (attempt <? max_retries - 1)%nat then (run, Next clone_success)
        else (run, Return false)
      else
        if (attempt <? max_retries - 1)%nat then (run, Next clone_success)
        else (run, Return false)
  end.

Definition clone_loop (e : env) (project_url : string) (target : Path)
  : list event * ctl bool :=
  for_each (clone_body e project_url target) (seq 0 max_retries) false.

(** *** Checks after the copy *)

Definition post_checks (e : env) (target : Path) : list event * bool :=
  if negb (post_exists e) then ([], false)
  else if negb (post_is_dir e) then ([], false)
  else match post_items e with
       | Ok n => ([ListDir target], negb (n =? 0)%nat)
       | Raise _ => ([ListDir target], false)
       end.

(** *** The whole routine *)

Definition probe_events (e : env) (project_url : string) : list event :=
  match repo_request e with
  | Ok _ => [ProbeRepository project_url]
  | Raise _ => []
  end.

(** The gates in their order: validation, host probe, existence probe;
    then the working directory, the removal of a stale copy, the copy and
    the checks after it.  Printing, the initialisation of the state and the
    registration of the tools, which cannot change the result, are left
    out; an exception of [mkdir] leaves the routine. *)
Definition clone_repository (e : env) (project_url : string) : list event * outcome :=
  if negb (_validate_github_url project_url) then ([], Returned false)
  else if negb (_check_github_connectivity (host_probe e)) then
    ([ProbeHost], Returned false)
  else
    let t0 := ProbeHost :: probe_events e project_url in
    if negb (_check_repository_exists (repo_request e) (repo_probe e)) then
      (t0, Returned false)
    else
      let target := repo_path (cwd e) project_url in
      let t1 := t0 ++ [Mkdir (workdir (cwd e))] in
      match mkdir_workdir e with
      | Raise ex => (t1, Raised ex)
      | Ok _ =>
          match cleanup e target with
          | (t2, Return b) => (t1 ++ t2, Returned b)
          | (t2, _) =>
              match clone_loop e project_url target with
              | (t3, Return b) => (t1 ++ t2 ++ t3, Returned b)
              | (t3, Next ok) | (t3, Break ok) =>
                  if negb ok then (t1 ++ t2 ++ t3, Returned false)
                  else
                    let '(t4, b) := post_checks e target in
                    (t1 ++ t2 ++ t3 ++ t4, Returned b)
              end
          end
      end.

End Acquirer.

(** ** The classifier: [AdvancedRepositoryTools] *)

Module Classifier.

Import Pathlib.

(** *** Helpers of the class *)

Definition _format_size (size : N) : string :=
  if (size <? 1024)%N then Py.str_of_N size +:+ "B"
  else if (size <? 1024 * 1024)%N then Py.str_of_N (size / 1024) +:+ "KB"
  else Py.str_of_N (size / (1024 * 1024)) +:+ "MB".

Definition language_map : list (string * string) :=
  [ (".py", "Python"); (".js", "JavaScript"); (".ts", "TypeScript");
    (".java", "Java"); (".cpp", "C++"); (".c", "C"); (".h", "C/C++ Header");
    (".go", "Go"); (".rs", "Rust"); (".php", "PHP"); (".rb", "Ruby");
    (".scala", "Scala"); (".kt", "Kotlin"); (".swift", "Swift");
    (".json", "JSON"); (".yaml", "YAML"); (".yml", "YAML"); (".toml", "TOML");
    (".xml", "XML"); (".html", "HTML"); (".css", "CSS"); (".md", "Markdown");
    (".txt", "Text"); (".sql", "SQL"); (".sh", "Shell Script");
    (".bat", "Batch"); (".ps1", "PowerShell") ].

Fixpoint assoc (k : string) (l : list (string * string)) : option string :=
  match l with
  | [] => None
  | (k', v) :: r => if String.eqb k k' then Some v else assoc k r
  end.

Definition _get_language (ext : string) : string :=
  match assoc ext language_map with
  | Some l => l
  | None => "Unknown"
  end.

(** [x in l] for a list of strings. *)
Definition mem (x : string) (l : list string) : bool :=
  List.existsb (String.eqb x) l.

(** *** Walking the working copy *)

(** [os.walk(repo_path)], top-down, where the loop body prunes the list of
    sub-directories to those satisfying [keep].  Each item carries the
    components of the directory relative to the root. *)
Fixpoint walk (keep : string -> bool) (rel : list string) (t : tree)
  : list (list string * list file) :=
  match t with
  | Tree _ fs ds =>
      (rel, fs)
      :: List.flat_map
           (fun d => if keep (dname d) then walk keep (rel ++ [dname d]) d else [])
           ds
  end.

Definition hidden (nm : string) : bool := Py.startswith nm ".".

Definition keep_dir (deny : list string) (d : string) : bool :=
  negb (hidden d) && negb (mem d deny).

(** [str(p.relative_to(root))] for the relative components [rel]. *)
Definition rel_str (rel : list string) : string :=
  match rel with
  | [] => "."
  | _ => String.concat "/" rel
  end.

(** *** [find_key_files] *)

Inductive category : Type :=
| EntryPoints | ProjectConfig | Documentation | BuildDeploy
| EnvironmentConfig | Tests | Frontend.



#[global] Instance category_eq_dec : EqDecision category.
Proof. solve_decision. Defined.

Definition category_index (c : category) : nat :=
  match c with
  | EntryPoints => 0 | ProjectConfig => 1 | Documentation => 2
  | BuildDeploy => 3 | EnvironmentConfig => 4 | Tests => 5 | Frontend => 6
  end.

Definition category_of_index (n : nat) : category :=
  match n with
  | 0 => EntryPoints | 1 => ProjectConfig | 2 => Documentation
  | 3 => BuildDeploy | 4 => EnvironmentConfig | 5 => Tests | _ => Frontend
  end.

#[global] Instance category_countable : Countable category.
Proof.
  apply (inj_countable' category_index category_of_index).
  intros []; reflexivity.
Defined.




(** One file as the loops meet it: the directory it lies in and the file. *)
Definition visit : Type := list string * file.






(** The files of a walk in the order the loops meet them. *)
Definition visits_of (w : list (list string * list file)) : list visit :=
  List.flat_map (fun d => List.map (fun f => (fst d, f)) (snd d)) w.




(** *** [detailed_file_analysis]: selection of the files to analyse *)

Definition important_patterns : list string :=
  ["main.py"; "app.py"; "server.py"; "index.js"; "main.go";
   "README.md"; "setup.py"; "package.json"; "requirements.txt"].

Definition rank_exts : list string := [".py"; ".js"; ".ts"; ".java"; ".go"].

(** The pair ([should_analyze], [priority]) computed for one file. *)
Definition criteria (f : file) : bool * Z :=
  if List.existsb (fun pattern => Py.contains pattern (Py.lower (fname f)))
                  important_patterns
  then (true, 10%Z)
  else if mem (Py.lower (suffix_of_name (fname f))) rank_exts then
    match fstat f with
    | Ok size => if (1000 <? size)%N then (true, 5%Z) else (false, 0%Z)
    | Raise _ => (false, 0%Z)
    end
  else (false, 0%Z).

Record target := {
  t_relative_path : string;
  t_file : file;
  t_priority : Z
}.

Definition collect_file (max_files : Z) (targets : list target) (v : visit)
  : list target :=
  if hidden (fname (snd v)) then targets
  else
    let '(should_analyze, priority) := criteria (snd v) in
    if should_analyze && (Z.of_nat (length targets) <? max_files * 2)%Z
    then targets ++ [{| t_relative_path := rel_str (fst v ++ [fname (snd v)]);
                        t_file := snd v; t_priority := priority |}]
    else targets.

(** The key of the final sort: [(-priority, -size if exists else 0)]. *)
Definition sort_key (x : target) : result (Z * Z) :=
  if fexists (t_file x) then
    match fstat (t_file x) with
    | Ok size => Ok ((- t_priority x)%Z, (- Z.of_N size)%Z)
    | Raise e => Raise e
    end
  else Ok ((- t_priority x)%Z, 0%Z).

(** Order on the tuples that serve as keys. *)
Definition key_le (a b : Z * Z) : bool :=
  (fst a <? fst b)%Z || ((fst a =? fst b)%Z && (snd a <=? snd b)%Z).

Fixpoint with_keys (l : list target) : result (list (Z * Z * target)) :=
  match l with
  | [] => Ok []
  | x :: r =>
      match sort_key x with
      | Raise e => Raise e
      | Ok k =>
          match with_keys r with
          | Raise e => Raise e
          | Ok kr => Ok ((k, x) :: kr)
          end
      end
  end.

Fixpoint insert_keyed (x : Z * Z * target) (l : list (Z * Z * target))
  : list (Z * Z * target) :=
  match l with
  | [] => [x]
  | y :: r => if key_le (fst x) (fst y) then x :: l else y :: insert_keyed x r
  end.

(** [list.sort(key=...)]: ascending on the keys and stable. *)
Fixpoint sort_keyed (l : list (Z * Z * target)) : list (Z * Z * target) :=
  match l with
  | [] => []
  | x :: r => insert_keyed x (sort_keyed r)
  end.

Definition rank_deny : list string := ["node_modules"; "__pycache__"; "target"].

Definition candidates (max_files : Z) (t : tree) : list target :=
  List.fold_left (collect_file max_files)
                 (visits_of (walk (keep_dir rank_deny) [] t)) [].

(** [analysis_targets] after the sort and the slice [[:max_files]]; [Raise]
    when computing a key raised, in which case the routine reports an error
    and selects nothing. *)
Definition analysis_targets (max_files : Z) (t : tree) : result (list target) :=
  match with_keys (candidates max_files t) with
  | Raise e => Raise e
  | Ok keyed =>
      Ok (List.firstn (Z.to_nat max_files) (List.map snd (sort_keyed keyed)))
  end.

(** *** [_safe_execute] and the state of the tools *)

(** What a tool returns: its own value, or one of the four messages of
    [_safe_execute]. *)
Inductive reply (A : Type) : Type :=
| Value (a : A)
| PermissionDenied (func_name : string)
| NotFoundIn (func_name : string)
| EncodingErrorIn (func_name : string)
| ErrorIn (func_name : string) (e : exn).

Arguments Value {A} a.
Arguments PermissionDenied {A} func_name.
Arguments NotFoundIn {A} func_name.
Arguments EncodingErrorIn {A} func_name.
Arguments ErrorIn {A} func_name e.

(** The result of [file_read._operation], one constructor per message. *)
Inductive file_reply : Type :=
| FileNotFound (file_path : string)
| NotAFile (file_path : string)
| TooLarge (file_path size : string)
| EmptyFile (file_path : string)
| AccessError (file_path : string)
| Unreadable (file_path : string)
| BinaryDetected (file_path : string)
| Report (file_path size : string) (lines : nat)
         (language encoding analysis ext excerpt : string) (truncated : bool).

Record tools := {
  file_cache : gmap string file_reply;
  error_count : nat
}.

Definition count_error (st : tools) : tools :=
  {| file_cache := file_cache st; error_count := S (error_count st) |}.

(** [operation] is the outcome of running the closure: its value and the
    state it left, or the exception it raised from state [st]. *)
Definition _safe_execute {A : Type} (func_name : string)
    (operation : result (A * tools)) (st : tools) : reply A * tools :=
  match operation with
  | Ok (a, st') => (Value a, st')
  | Raise e =>
      if isinstance e CPermissionError then (PermissionDenied func_name, count_error st)
      else if isinstance e CFileNotFoundError then (NotFoundIn func_name, count_error st)
      else if isinstance e CUnicodeDecodeError then (EncodingErrorIn func_name, count_error st)
      else (ErrorIn func_name e, count_error st)
  end.

Section Tools.

(** The two content heuristics rely on the [re] and [json] modules, which
    are not modelled.  Both catch every exception themselves, so they are
    total functions of (content, language). *)
Variable _count_functions_classes : string -> string -> nat * nat.
Variable _analyze_code_content : string -> string -> string.

(** *** [analyze_code_structure] *)

Record lang_stats := {
  ls_files : nat; ls_lines : nat; ls_functions : nat; ls_classes : nat
}.

Record important := {
  i_path : string; i_language : string;
  i_lines : nat; i_functions : nat; i_classes : nat
}.

Record analysis := {
  language_stats : gmap string lang_stats;
  function_count : nat;
  class_count : nat;
  total_loc : nat;
  important_files : list important
}.

Definition empty_analysis : analysis :=
  {| language_stats := ∅; function_count := 0; class_count := 0;
     total_loc := 0; important_files := [] |}.

Definition code_exts : list string :=
  [".py"; ".js"; ".ts"; ".java"; ".cpp"; ".c"; ".h"; ".go"; ".rs"; ".php"; ".rb"].

Definition line_feed : ascii := ascii_of_N 10.

(** [len([l for l in content.split('\n') if l.strip()])] *)
Definition useful_lines (content : string) : nat :=
  length (List.filter (fun l => negb (String.eqb (Py.strip l) ""))
                      (Py.split line_feed content)).

Definition important_names : list string :=
  ["main.py"; "index.js"; "app.py"; "server.py"; "main.go"].

Definition is_important (fl : string) (lines : nat) : bool :=
  (50 <? lines)%nat
  || mem (Py.lower fl) important_names
  || Py.contains "main" (Py.lower fl)
  || Py.contains "app" (Py.lower fl).

(** The statements of the inner [try] once the content has been read. *)
Definition account (rel : list string) (f : file) (content : string)
    (a : analysis) : analysis :=
  let lines := useful_lines content in
  let language := _get_language (Py.lower (suffix_of_name (fname f))) in
  let '(funcs, classes) := _count_functions_classes content language in
  let old := default {| ls_files := 0; ls_lines := 0; ls_functions := 0; ls_classes := 0 |}
                     (language_stats a !! language) in
  {| language_stats :=
       <[language := {| ls_files := ls_files old + 1;
                        ls_lines := ls_lines old + lines;
                        ls_functions := ls_functions old + funcs;
                        ls_classes := ls_classes old + classes |}]>
         (language_stats a);
     function_count := function_count a + funcs;
     class_count := class_count a + classes;
     total_loc := total_loc a + lines;
     important_files :=
       if is_important (fname f) lines
       then important_files a
              ++ [{| i_path := rel_str (rel ++ [fname f]); i_language := language;
                     i_lines := lines; i_functions := funcs; i_classes := classes |}]
       else important_files a |}.

(** [except (UnicodeDecodeError, PermissionError, OSError): continue] *)
Definition skipped_silently (e : exn) : bool :=
  isinstance e CUnicodeDecodeError || isinstance e CPermissionError
  || isinstance e COSError.

(** One iteration of the loop over [files].  [Raise] is an exception that
    the inner handler lets through; the analysis is then unchanged. *)
Definition analyze_file (rel : list string) (f : file) (a : analysis)
  : result analysis :=
  if hidden (fname f) then Ok a
  else if negb (mem (Py.lower (suffix_of_name (fname f))) code_exts) then Ok a
  else
    match fstat f with
    | Raise e => if skipped_silently e then Ok a else Raise e
    | Ok size =>
        if (500 * 1024 <? size)%N then Ok a
        else
          match fread f with
          | Raise e => if skipped_silently e then Ok a else Raise e
          | Ok content => Ok (account rel f content a)
          end
    end.

Fixpoint analyze_files (rel : list string) (fs : list file) (a : analysis)
  : analysis * option exn :=
  match fs with
  | [] => (a, None)
  | f :: r =>
      match analyze_file rel f a with
      | Ok a' => analyze_files rel r a'
      | Raise e => (a, Some e)
      end
  end.

(** The loop over [os.walk]; it stops once more than 50 important files
    have been collected, or at the first exception that reaches the outer
    handler, which is then reported as a warning. *)
Fixpoint analyze_dirs (w : list (list string * list file)) (a : analysis)
  : analysis * option exn :=
  match w with
  | [] => (a, None)
  | d :: r =>
      match analyze_files (fst d) (snd d) a with
      | (a', Some e) => (a', Some e)
      | (a', None) =>
          if (50 <? length (important_files a'))%nat then (a', None)
          else analyze_dirs r a'
      end
  end.

Definition analysis_deny : list string :=
  ["node_modules"; "__pycache__"; "target"; "build"; "dist"; "vendor"].

Definition analyze_code_structure (t : tree) (st : tools)
  : reply (analysis * option exn) * tools :=
  _safe_execute "analyze_code_structure"
    (Ok (analyze_dirs (walk (keep_dir analysis_deny) [] t) empty_analysis, st)) st.

(** *** [file_read] *)

Inductive encoding : Type := UTF8 | Latin1 | CP1252 | ASCII.

Definition encoding_name (enc : encoding) : string :=
  match enc with
  | UTF8 => "utf-8" | Latin1 => "latin-1" | CP1252 => "cp1252" | ASCII => "ascii"
  end.

(** What the file system answers about one path at one moment:
    [exists()], [is_file()], [stat().st_size] and [read_text(encoding)].
    The first two return a truth value or raise: pathlib turns the errors
    ENOENT, ENOTDIR, EBADF and ELOOP of the underlying [stat] into [False]
    and lets every other one through, such as the [PermissionError] for a
    parent directory that cannot be searched. *)
Record fs_entry := {
  e_exists : result bool;
  e_is_file : result bool;
  e_stat : result N;
  e_read_text : encoding -> result string
}.

(** The file system at one moment, by [str(path)]. *)
Definition filesystem : Type := string -> fs_entry.

(** The loop over the encodings: the first one that decodes wins, a
    [UnicodeDecodeError] tries the next, any other exception stops. *)
Fixpoint try_encodings (rd : encoding -> result string) (encs : list encoding)
  : option (string * encoding) :=
  match encs with
  | [] => None
  | enc :: r =>
      match rd enc with
      | Ok content => Some (content, enc)
      | Raise e =>
          if isinstance e CUnicodeDecodeError then try_encodings rd r else None
      end
  end.

(** [content.count('\n') + 1] *)
Fixpoint count_char (c : ascii) (s : string) : nat :=
  match s with
  | EmptyString => 0
  | String a r => (if Ascii.eqb a c then 1 else 0) + count_char c r
  end.

Definition nul : string := String (ascii_of_N 0) EmptyString.

Definition cache_key (repo : Path) (file_path : string) : string :=
  to_str (truediv repo file_path).

Definition file_read_operation (fs : filesystem) (repo : Path)
    (file_path : string) (st : tools) : result (file_reply * tools) :=
  let target_file := truediv repo file_path in
  let entry := fs (to_str target_file) in
  match e_exists entry, e_is_file entry with
  | Raise e, _ => Raise e
  | Ok false, _ => Ok (FileNotFound file_path, st)
  | Ok true, Raise e => Raise e
  | Ok true, Ok false => Ok (NotAFile file_path, st)
  | Ok true, Ok true =>
    match file_cache st !! cache_key repo file_path with
    | Some cached => Ok (cached, st)
    | None =>
        match e_stat entry with
        | Raise e =>
            if isinstance e COSError then Ok (AccessError file_path, st) else Raise e
        | Ok file_size =>
            if (300 * 1024 <? file_size)%N then
              Ok (TooLarge file_path (_format_size file_size), st)
            else if (file_size =? 0)%N then Ok (EmptyFile file_path, st)
            else
              match try_encodings (e_read_text entry) [UTF8; Latin1; CP1252; ASCII] with
              | None => Ok (Unreadable file_path, st)
              | Some (content, used_encoding) =>
                  if Py.contains nul (Py.take 1000 content) then
                    Ok (BinaryDetected file_path, st)
                  else
                    let ext := Py.lower (suffix target_file) in
                    let language := _get_language ext in
                    let result :=
                      Report file_path (_format_size file_size)
                             (count_char line_feed content + 1) language
                             (encoding_name used_encoding)
                             (_analyze_code_content content language)
                             ext (Py.take 4000 content)
                             (4000 <? Py.len content)%N in
                    if (size (file_cache st) <? 30)%nat then
                      Ok (result,
                          {| file_cache := <[cache_key repo file_path := result]> (file_cache st);
                             error_count := error_count st |})
                    else Ok (result, st)
              end
        end
    end
  end.

Definition file_read (fs : filesystem) (repo : Path) (file_path : string)
    (st : tools) : reply file_reply * tools :=
  _safe_execute "file_read" (file_read_operation fs repo file_path st) st.

End Tools.

End Classifier.

(** ** The browser: [directory_read] and [_extract_relevant_snippet] *)

Module Browser.

Import Pathlib Classifier.

(** *** [_extract_relevant_snippet] *)

(** The truth value of [l.strip()]. *)
Definition nonblank (l : string) : bool := negb (String.eqb (Py.strip l) "").

Definition python_entry (line : string) : bool :=
  Py.contains "if __name__" line
  || Py.startswith (Py.strip line) "class "
  || Py.startswith (Py.strip line) "def main".

Definition javascript_entry (line : string) : bool :=
  Py.contains "export" line
  || Py.contains "function main" line
  || Py.contains "module.exports" line.

(** [lines[i:]] for the first index [i] whose line satisfies [p]: the
    point at which the loop over [enumerate(lines)] returns. *)
Fixpoint from_first (p : string -> bool) (lines : list string)
  : option (list string) :=
  match lines with
  | [] => None
  | l :: r => if p l then Some lines else from_first p r
  end.

(** ['\n'.join(l)] *)
Definition join_lines (l : list string) : string :=
  String.concat (String line_feed "") l.

(** [max_lines] is a count; the one caller passes the default, 10. *)
Definition _extract_relevant_snippet (content language : string)
    (max_lines : nat) : string :=
  let lines := Py.split line_feed content in
  let found :=
    if String.eqb language "Python" then from_first python_entry lines
    else if String.eqb language "JavaScript" then from_first javascript_entry lines
    else None in
  match found with
  | Some rest => join_lines (List.firstn max_lines rest)
  | None =>
      match List.filter nonblank lines with
      | [] => ""
      | non_empty_lines => join_lines (List.firstn max_lines non_empty_lines)
      end
  end.

(** *** [directory_read] *)

(** What the calls on one item of the directory answer: [item.is_dir()],
    [len(list(item.iterdir()))] and [item.stat().st_size]. *)
Record item := {
  item_name : string;
  item_is_dir : result bool;
  item_count : result nat;
  item_stat : result N
}.

(** What the calls on the target answer: [exists()], [is_dir()] and
    [list(iterdir())].  The first two return a truth value or raise an
    error of the underlying [stat] that pathlib lets through, such as the
    [PermissionError] for a parent directory that cannot be searched. *)
Record directory := {
  d_exists : result bool;
  d_is_dir : result bool;
  d_iterdir : result (list item)
}.

(** The five lists of the loop.  A line is kept without the pictogram and
    the blank that open it, which are the same for all lines of a list. *)
Record buckets := {
  dirs : list string;
  code_files : list string;
  config_files : list string;
  doc_files : list string;
  other_files : list string
}.

Definition no_lines : buckets :=
  {| dirs := []; code_files := []; config_files := []; doc_files := [];
     other_files := [] |}.

Definition code_suffixes : list string :=
  [".py"; ".js"; ".ts"; ".java"; ".cpp"; ".c"; ".h"; ".go"; ".rs"; ".php";
   ".rb"; ".scala"; ".kt"].

Definition config_suffixes : list string :=
  [".json"; ".yaml"; ".yml"; ".toml"; ".ini"; ".cfg"; ".conf"].

Definition doc_suffixes : list string := [".md"; ".txt"; ".rst"; ".adoc"].

Definition doc_names : list string := ["README"; "LICENSE"; "CHANGELOG"].

Definition upper_ascii (c : ascii) : ascii :=
  if Py.in_range 97 122 c then ascii_of_N (Py.code c - 32) else c.

Fixpoint upper_letters (s : string) : string :=
  match s with
  | EmptyString => EmptyString
  | String c r => String (upper_ascii c) (upper_letters r)
  end.

(** [nm.upper() in names] for names made of the capitals A-Z and free of
    "SS": among the characters U+0000..U+00FF only a-z have such a capital
    as upper case, and only U+00DF has a longer one, "SS". *)
Definition upper_in (nm : string) (names : list string) : bool :=
  mem (upper_letters nm) names.

(** [except (PermissionError, OSError): continue] *)
Definition passed_over (e : exn) : bool :=
  isinstance e CPermissionError || isinstance e COSError.

(** One iteration of the loop over [items[:150]].  [Raise] is an exception
    that the handler of the loop lets through. *)
Definition classify (it : item) (b : buckets) : result buckets :=
  let nm := item_name it in
  if hidden nm then Ok b
  else
    match item_is_dir it with
    | Raise e => if passed_over e then Ok b else Raise e
    | Ok true =>
        let line :=
          match item_count it with
          | Ok sub_items =>
              nm +:+ "/ (" +:+ Py.str_of_N (N.of_nat sub_items) +:+ " itens)"
          | Raise _ => nm +:+ "/"
          end in
        Ok {| dirs := dirs b ++ [line]; code_files := code_files b;
              config_files := config_files b; doc_files := doc_files b;
              other_files := other_files b |}
    | Ok false =>
        match item_stat it with
        | Raise e => if passed_over e then Ok b else Raise e
        | Ok size =>
            let size_str := _format_size size in
            let ext := Py.lower (suffix_of_name nm) in
            if mem ext code_suffixes then
              Ok {| dirs := dirs b;
                    code_files :=
                      code_files b
                      ++ [nm +:+ " (" +:+ size_str +:+ ") - " +:+ _get_language ext];
                    config_files := config_files b; doc_files := doc_files b;
                    other_files := other_files b |}
            else if mem ext config_suffixes then
              Ok {| dirs := dirs b; code_files := code_files b;
                    config_files :=
                      config_files b ++ [nm +:+ " (" +:+ size_str +:+ ") - Config"];
                    doc_files := doc_files b; other_files := other_files b |}
            else if mem ext doc_suffixes || upper_in nm doc_names then
              Ok {| dirs := dirs b; code_files := code_files b;
                    config_files := config_files b;
                    doc_files := doc_files b ++ [nm +:+ " (" +:+ size_str +:+ ") - Doc"];
                    other_files := other_files b |}
            else
              Ok {| dirs := dirs b; code_files := code_files b;
                    config_files := config_files b; doc_files := doc_files b;
                    other_files := other_files b ++ [nm +:+ " (" +:+ size_str +:+ ")"] |}
        end
    end.

Fixpoint classify_all (items : list item) (b : buckets) : result buckets :=
  match items with
  | [] => Ok b
  | it :: r =>
      match classify it b with
      | Ok b' => classify_all r b'
      | Raise e => Raise e
      end
  end.

Fixpoint insert_line (x : string) (l : list string) : list string :=
  match l with
  | [] => [x]
  | y :: r => if String.leb x y then x :: l else y :: insert_line x r
  end.

(** [sorted(l)]: the order of [str], by code points. *)
Definition sorted (l : list string) : list string :=
  List.fold_right insert_line [] l.

(** The text returned for a directory with items.  A list that is empty
    stands for a section that is left out; [more] is the figure of the
    closing line, when there is one. *)
Record dir_listing := {
  heading : string;
  shown_dirs : list string;
  shown_code : list string;
  shown_config : list string;
  shown_docs : list string;
  shown_others : list string;
  more : option nat
}.

(** The result of [directory_read._operation], one constructor per text. *)
Inductive dir_reply : Type :=
| DirectoryNotFound (target_path : string)
| NotADirectory (target_path : string)
| NoPermission (target_path : string)
| EmptyDirectory (heading : string)
| Listing (l : dir_listing).

Definition total_shown (b : buckets) : nat :=
  length (dirs b) + length (code_files b) + length (config_files b)
  + length (doc_files b) + length (other_files b).

Definition target_of_path (repo : Path) (path : string) : Path :=
  if String.eqb path "" then repo else truediv repo path.

Definition directory_read_operation (ds : string -> directory) (repo : Path)
    (path : string) (st : tools) : result (dir_reply * tools) :=
  let target_path := target_of_path repo path in
  let d := ds (to_str target_path) in
  match d_exists d, d_is_dir d with
  | Raise e, _ => Raise e
  | Ok false, _ => Ok (DirectoryNotFound (to_str target_path), st)
  | Ok true, Raise e => Raise e
  | Ok true, Ok false => Ok (NotADirectory (to_str target_path), st)
  | Ok true, Ok true =>
    let title := if String.eqb path "" then "raiz" else name target_path in
    match d_iterdir d with
    | Raise e =>
        if isinstance e CPermissionError
        then Ok (NoPermission (to_str target_path), st)
        else Raise e
    | Ok [] => Ok (EmptyDirectory title, st)
    | Ok items =>
        match classify_all (List.firstn 150 items) no_lines with
        | Raise e => Raise e
        | Ok b =>
            Ok (Listing
                  {| heading := title;
                     shown_dirs := List.firstn 15 (sorted (dirs b));
                     shown_code := List.firstn 20 (sorted (code_files b));
                     shown_config := List.firstn 10 (sorted (config_files b));
                     shown_docs := List.firstn 10 (sorted (doc_files b));
                     shown_others := List.firstn 15 (sorted (other_files b));
                     more :=
                       if (total_shown b <? length items)%nat
                       then Some (length items - total_shown b)
                       else None |},
                st)
        end
    end
  end.

Definition directory_read (ds : string -> directory) (repo : Path)
    (path : string) (st : tools) : reply dir_reply * tools :=
  _safe_execute "directory_read" (directory_read_operation ds repo path st) st.

End Browser.

(** ** [detailed_file_analysis]: the report on the selected files *)

Module Detail.

Import Pathlib Classifier Browser.

Section Report.

Variable _analyze_code_content : string -> string -> string.

(** What follows the two lines on size and language. *)
Inductive status : Type :=
| TooLargeToRead
| ReadOk (lines : nat) (code_analysis : string) (snippet : option (string * string))
| ReadError.

(** What one iteration appends: a section, or a section cut short by the
    warning of the outer handler.  [info] holds the size and the language
    when the exception came after they were written. *)
Inductive section : Type :=
| Described (i : nat) (relative_path size language : string) (s : status)
| Aborted (i : nat) (relative_path : string) (info : option (string * string))
          (e : exn).

(** [ext[1:] if ext else 'text'] *)
Definition fence (ext : string) : string :=
  if String.eqb ext "" then "text" else drop 1 ext.

(** One iteration of the loop over [enumerate(analysis_targets, 1)];
    [None] when the file does not exist any more. *)
Definition analyse_target (i : nat) (x : target) : option section :=
  let f := t_file x in
  let relative_path := t_relative_path x in
  if negb (fexists f) then None
  else
    match fstat f with
    | Raise e => Some (Aborted i relative_path None e)
    | Ok size =>
        let ext := Py.lower (suffix_of_name (fname f)) in
        let language := _get_language ext in
        if (100 * 1024 <? size)%N then
          Some (Described i relative_path (_format_size size) language TooLargeToRead)
        else
          match fread f with
          | Raise e =>
              if isinstance e CUnicodeDecodeError || isinstance e CPermissionError
              then Some (Described i relative_path (_format_size size) language ReadError)
              else Some (Aborted i relative_path
                                 (Some (_format_size size, language)) e)
          | Ok content =>
              let lines := useful_lines content in
              let code_analysis := _analyze_code_content content language in
              let shown :=
                if negb (String.eqb language "Text") && (5 <? lines)%nat then
                  let snippet := _extract_relevant_snippet content language 10 in
                  if String.eqb snippet "" then None else Some (fence ext, snippet)
                else None in
              Some (Described i relative_path (_format_size size) language
                              (ReadOk lines code_analysis shown))
          end
    end.

Fixpoint analyse_from (i : nat) (targets : list target) : list section :=
  match targets with
  | [] => []
  | x :: r =>
      match analyse_target i x with
      | Some s => s :: analyse_from (S i) r
      | None => analyse_from (S i) r
      end
  end.

(** The text returned by [detailed_file_analysis._operation]. *)
Inductive detailed_report : Type :=
| IdentificationError (e : exn)
| NoFileIdentified
| Analysis (count : nat) (sections : list section).

(** Every statement that can raise sits in a [try] whose handler catches
    [Exception], so the closure always returns its text. *)
Definition detailed_file_analysis (max_files : Z) (t : tree) (st : tools)
  : reply detailed_report * tools :=
  _safe_execute "detailed_file_analysis"
    (Ok (match analysis_targets max_files t with
         | Raise e => IdentificationError e
         | Ok [] => NoFileIdentified
         | Ok targets => Analysis (length targets) (analyse_from 1 targets)
         end, st))
    st.

End Report.

End Detail.

(** ** Documents: [_extract_documentation_safely] and [_save_documentation] *)

Module Documents.

Import Pathlib.

(** A message of the chat, read with [msg.get('content', '')] and
    [msg.get('name', '')]: a key that is absent reads as the empty string. *)
Record message := {
  msg_content : string;
  msg_name : string
}.

(** The three tests of the loop over [reversed(messages)]; each of them
    appends the content. *)
Definition is_candidate (m : message) : bool :=
  if Py.contains "reviewer" (Py.lower (msg_name m))
     && (200 <? Py.len (msg_content m))%N then true
  else if Py.contains "writer" (Py.lower (msg_name m))
          && (200 <? Py.len (msg_content m))%N then true
  else Py.contains "##" (msg_content m) && (300 <? Py.len (msg_content m))%N.

Definition candidates_of (messages : list message) : list string :=
  List.map msg_content (List.filter is_candidate (List.rev messages)).

(** [max(best :: l, key=len)]: the first of the longest. *)
Fixpoint longest (best : string) (l : list string) : string :=
  match l with
  | [] => best
  | x :: r =>
      if (Py.len best <? Py.len x)%N then longest x r else longest best r
  end.

(** The words looked for in a lower-cased title. *)
Definition visao : string := "vis" +:+ String (ascii_of_N 227) "o".
Definition instalacao : string :=
  "instala" +:+ String (ascii_of_N 231) (String (ascii_of_N 227) "o").
Definition configuracao : string :=
  "configura" +:+ String (ascii_of_N 231) (String (ascii_of_N 227) "o").
Definition tecnica : string := "t" +:+ String (ascii_of_N 233) "cnica".

(** The chain of tests on [title.lower()], which both routines share: the
    number of the section the title belongs to, if any. *)
Definition section_of (title_lower : string) : option nat :=
  if Py.contains visao title_lower || Py.contains "geral" title_lower then Some 0
  else if Py.contains instalacao title_lower
          || Py.contains configuracao title_lower then Some 1
  else if Py.contains tecnica title_lower
          || Py.contains "arquivos" title_lower then Some 2
  else None.

(** A text of a document: a text of the chat, or one of the generated
    texts, named by the routine that formats it and its arguments. *)
Inductive document : Type :=
| FromChat (text : string)
| SectionFallback (title : string) (section_index : nat)
| BasicDoc (title : string).

(** With messages whose content and name are strings nothing in the [try]
    block raises. *)
Definition _extract_documentation_safely (messages : list message)
    (title : string) : document :=
  match candidates_of messages with
  | c :: cs => FromChat (longest c cs)
  | [] =>
      match section_of (Py.lower title) with
      | Some i => SectionFallback title i
      | None => BasicDoc title
      end
  end.

(** *** [_save_documentation] *)

Fixpoint filter_chars (p : ascii -> bool) (s : string) : string :=
  match s with
  | EmptyString => EmptyString
  | String c r => if p c then String c (filter_chars p r) else filter_chars p r
  end.

(** The class [[-\s]]. *)
Definition is_separator (c : ascii) : bool :=
  Ascii.eqb c "-" || Py.is_space c.

(** [re.sub(r'[-\s]+', '_', s)]; [in_run] tells that the character before
    belongs to a run already replaced. *)
Fixpoint collapse (in_run : bool) (s : string) : string :=
  match s with
  | EmptyString => EmptyString
  | String c r =>
      if is_separator c
      then if in_run then collapse true r else String "_" (collapse true r)
      else String c (collapse false r)
  end.

Definition safe_title (title : string) : string :=
  collapse false
    (filter_chars (fun c => Py.is_word c || Py.is_space c || Ascii.eqb c "-") title).

Definition filename_of (title : string) : string :=
  match section_of (Py.lower title) with
  | Some 0 => "01_visao_geral.md"
  | Some 1 => "02_instalacao_configuracao.md"
  | Some _ => "03_documentacao_tecnica.md"
  | None => Py.lower (safe_title title) +:+ ".md"
  end.

Inductive doc_event : Type :=
| MakeDocsDir
| WriteFile (doc_path : Path) (content : document).

(** [str(p)] for a relative path with at least one component. *)
Definition rel_to_str (p : Path) : string := String.concat "/" p.

(** [mkdir] and [write] are the outcomes of [docs_dir.mkdir(exist_ok=True)]
    and of opening and writing the file; the trace lists the calls made.
    Paths are relative to the working directory. *)
Definition _save_documentation (mkdir write : result unit)
    (title : string) (content : document) : option string * list doc_event :=
  let docs_dir := ["docs"] in
  match mkdir with
  | Raise _ => (None, [MakeDocsDir])
  | Ok _ =>
      let doc_path := truediv docs_dir (filename_of title) in
      match write with
      | Raise _ => (None, [MakeDocsDir; WriteFile doc_path content])
      | Ok _ => (Some (rel_to_str doc_path), [MakeDocsDir; WriteFile doc_path content])
      end
  end.

(** *** [_create_comprehensive_documentation] *)

Definition c_cedilla_a_tilde_o : string :=
  String (ascii_of_N 231) (String (ascii_of_N 227) "o").

(** The three sections that are always written. *)
Definition sections : list (string * nat) :=
  [ ("Vis" +:+ String (ascii_of_N 227) "o Geral do Projeto", 0);
    ("Guia de Instala" +:+ c_cedilla_a_tilde_o +:+ " e Configura" +:+ c_cedilla_a_tilde_o, 1);
    ("Documenta" +:+ c_cedilla_a_tilde_o +:+ " T" +:+ String (ascii_of_N 233) "cnica dos Arquivos", 2) ].

(** The loop over the sections.  [disk index] holds the outcomes of the
    two file-system calls made when section [index] is saved.  The state
    and the plan, which the routine only fills in, are left out. *)
Fixpoint save_sections (disk : nat -> result unit * result unit)
    (l : list (string * nat)) (docs_created : list string)
  : list string * list doc_event :=
  match l with
  | [] => (docs_created, [])
  | (title, index) :: r =>
      let doc_content := SectionFallback title index in
      let '(doc_path, t) :=
        _save_documentation (fst (disk index)) (snd (disk index)) title doc_content in
      let created :=
        match doc_path with
        | Some p => if String.eqb p "" then docs_created else docs_created ++ [p]
        | None => docs_created
        end in
      let '(final, t') := save_sections disk r created in
      (final, t ++ t')
  end.

(** No statement of the [try] block raises: [_save_documentation] catches
    every exception itself. *)
Definition _create_comprehensive_documentation
    (disk : nat -> result unit * result unit) : bool * list doc_event :=
  let '(docs_created, t) := save_sections disk sections [] in
  (match docs_created with [] => false | _ => true end, t).

End Documents.

(** ** Vocabulary of the specification

    The notions in which the specification speaks about the code: the shape
    of a reference, the schedule of the removal and of the copy, the members
    of a key-file category, the order of the ranked files. *)

Module Spec.

Import Pathlib Acquirer Classifier.

(** *** References *)

Fixpoint all_chars (p : ascii -> bool) (s : string) : bool :=
  match s with
  | EmptyString => true
  | String c r => p c && all_chars p r
  end.

Fixpoint last_char (s : string) : option ascii :=
  match s with
  | EmptyString => None
  | String c EmptyString => Some c
  | String _ r => last_char r
  end.

(** The shape [https://<host>/<owner>/<name>[/]] with the fixed host:
    owner and name are non-empty runs of word characters, dashes and dots. *)
Definition well_shaped (s : string) : Prop :=
  exists owner name tail,
    s = "https://github.com/" +:+ owner +:+ "/" +:+ name +:+ tail
    /\ owner <> "" /\ name <> ""
    /\ all_chars is_name_char owner = true
    /\ all_chars is_name_char name = true
    /\ (tail = "" \/ tail = "/").

(** What the regular expression accepts after the name. *)
Definition tail_ok (tail : string) : Prop :=
  tail = "" \/ tail = "/" \/ tail = newline \/ tail = "/" +:+ newline.

Definition head_fails (p : ascii -> bool) (s : string) : Prop :=
  match s with
  | EmptyString => True
  | String c _ => p c = false
  end.

(** Removal of a trailing [.git], and of nothing else. *)
Fixpoint strip_git_suffix (s : string) : string :=
  if String.eqb s ".git" then EmptyString
  else match s with
       | EmptyString => EmptyString
       | String c r => String c (strip_git_suffix r)
       end.

(** *** The existence gate *)

(** The run goes past the existence gate: the working directory is made. *)
Definition passes_gate (e : env) (url : string) : Prop :=
  In (Mkdir (workdir (cwd e))) (fst (clone_repository e url)).

(** *** Removal of a stale working copy *)


Definition pause (k : nat) : list event :=
  if (k <? 2)%nat then [Sleep 1] else [].

(** [removal_run e target k tr present]: from attempt [k] on, with the
    directory present, the removal performs [tr] and leaves the directory
    present or not.  Attempt [k] uses the [k]-th strategy; a one-second
    pause follows every attempt but the third unless the attempt removed
    the directory without raising. *)
Inductive removal_run (e : env) (target : Path) : nat -> list event -> bool -> Prop :=
| rm_exhausted : removal_run e target 3 [] true
| rm_done k :
    k < 3 -> rm_removed (removal_of e k) = true -> rm_error (removal_of e k) = None ->
    removal_run e target k (removal_command e target k) false
| rm_done_raising k ex :
    k < 3 -> rm_removed (removal_of e k) = true -> rm_error (removal_of e k) = Some ex ->
    removal_run e target k (removal_command e target k ++ pause k) false
| rm_retry k tr p :
    k < 3 -> rm_removed (removal_of e k) = false -> removal_run e target (S k) tr p ->
    removal_run e target k (removal_command e target k ++ pause k ++ tr) p.

Definition present_after (c : ctl bool) : bool :=
  match c with
  | Next p | Break p => p
  | Return _ => true
  end.

(** *** The copy *)

(** How one attempt ended. *)
Inductive verdict : Type :=
| Cloned | DirectoryNotEmpty | Terminal | Failed | Interrupted.

Definition verdict_of (r : result (Z * string)) : verdict :=
  match r with
  | Raise _ => Interrupted
  | Ok (returncode, stderr) =>
      let msg := Py.strip stderr in
      if (returncode =? 0)%Z then Cloned
      else if Py.contains "already exists and is not an empty directory" msg
      then DirectoryNotEmpty
      else if Py.contains "not found" (Py.lower msg)
              || Py.contains "does not exist" (Py.lower msg)
              || Py.contains "permission denied" (Py.lower msg)
              || Py.contains "forbidden" (Py.lower msg)
      then Terminal
      else Failed
  end.

Definition verdict_at (e : env) (k : nat) : verdict :=
  verdict_of (git_result (git_of e k)).

Definition attempt (url : string) (target : Path) (k : nat) : event :=
  GitClone (clone_command url target k) 300.

Definition tidy (e : env) (target : Path) (k : nat) : list event :=
  if dir_left (git_of e k) then [RmtreeIgnoreErrors target; Sleep 2] else [].

(** [copy_run e url target k tr c]: from attempt [k] on, the copy performs
    [tr] and ends in [c].  A timeout or another exception goes straight to
    the next attempt; a non-empty directory is tidied up first; only the
    remaining failures are followed by the linear back-off. *)
Inductive copy_run (e : env) (url : string) (target : Path)
  : nat -> list event -> ctl bool -> Prop :=
| run_exhausted : copy_run e url target 3 [] (Next false)
| run_cloned k :
    k < 3 -> verdict_at e k = Cloned ->
    copy_run e url target k [attempt url target k] (Break true)
| run_terminal k :
    k < 3 -> verdict_at e k = Terminal ->
    copy_run e url target k [attempt url target k] (Return false)
| run_interrupted k tr c :
    k < 2 -> verdict_at e k = Interrupted -> copy_run e url target (S k) tr c ->
    copy_run e url target k (attempt url target k :: tr) c
| run_interrupted_last :
    verdict_at e 2 = Interrupted ->
    copy_run e url target 2 [attempt url target 2] (Return false)
| run_not_empty k tr c :
    k < 3 -> verdict_at e k = DirectoryNotEmpty -> copy_run e url target (S k) tr c ->
    copy_run e url target k (attempt url target k :: tidy e target k ++ tr) c
| run_backoff k tr c :
    k < 2 -> verdict_at e k = Failed -> copy_run e url target (S k) tr c ->
    copy_run e url target k
      (attempt url target k :: Sleep (3 * (N.of_nat k + 1)) :: tr) c
| run_failed_last tr c :
    verdict_at e 2 = Failed -> copy_run e url target 3 tr c ->
    copy_run e url target 2 (attempt url target 2 :: tr) c.

Definition git_commands (tr : list event) : list (list string) :=
  List.flat_map (fun ev => match ev with GitClone cmd _ => [cmd] | _ => [] end) tr.

(** *** Key files *)







(** *** Ranked files *)

Definition keyed_le (a b : Z * Z * target) : Prop :=
  key_le (fst a) (fst b) = true.

(** [x] is ranked no later than [y]: higher priority first, then larger
    size. *)
Definition ranked_before (x y : target) : Prop :=
  exists kx ky, sort_key x = Ok kx /\ sort_key y = Ok ky /\ key_le kx ky = true.

(** *** Code structure *)

(** The files of the walk that are not hidden. *)
Definition visible_files (w : list (list string * list file)) : list visit :=
  List.filter (fun v => negb (hidden (fname (snd v)))) (visits_of w).

Definition visible_count (fs : list file) : nat :=
  length (List.filter (fun f => negb (hidden (fname f))) fs).

(** *** The read cache *)

Definition is_report (r : file_reply) : bool :=
  match r with
  | Report _ _ _ _ _ _ _ _ _ => true
  | _ => false
  end.

(** The reads of a session that follow one another, each with the file
    system as it is at that moment. *)
Definition reads (aca : string -> string -> string) (repo : Path)
    (ops : list (filesystem * string)) (st : tools) : tools :=
  List.fold_left (fun s op => snd (file_read aca (fst op) repo (snd op) s)) ops st.

End Spec.

(** ** Concrete scenarios *)

Module Scenario.

Import Pathlib Acquirer Classifier Spec.

Definition hello_url : string := "https://github.com/octocat/hello".
Definition slash_url : string := "https://github.com/octocat/hello/".
Definition pages_url : string := "https://github.com/octocat/octocat.github.io".
Definition padded_url : string := " https://github.com/octocat/hello".

(** Everything works and no stale copy is in the way. *)
Definition calm : env :=
  {| cwd := ["srv"]; os_nt := false; now := 1700000000%N;
     host_probe := Ok 200%N; repo_request := Ok tt; repo_probe := Ok 200%N;
     mkdir_workdir := Ok tt; target_exists := false;
     stale_tree := Tree "hello" [] [];
     removal_of := fun _ => {| rm_error := None; rm_removed := true |};
     rename_aside := Ok tt;
     git_of := fun _ => {| git_result := Ok (0%Z, ""); dir_left := true |};
     post_exists := true; post_is_dir := true; post_items := Ok 4 |}.

Definition with_repo_probe (p : result N) (e : env) : env :=
  {| cwd := cwd e; os_nt := os_nt e; now := now e;
     host_probe := host_probe e; repo_request := repo_request e; repo_probe := p;
     mkdir_workdir := mkdir_workdir e; target_exists := target_exists e;
     stale_tree := stale_tree e;
     removal_of := removal_of e; rename_aside := rename_aside e;
     git_of := git_of e;
     post_exists := post_exists e; post_is_dir := post_is_dir e;
     post_items := post_items e |}.

Definition plain_file (nm : string) (size : N) : file :=
  {| fname := nm; fstat := Ok size; fexists := true; fread := Ok "" |}.

(** What an earlier run left behind. *)
Definition old_copy : tree :=
  Tree "hello" [plain_file "README.md" 40]
    [Tree "src" [plain_file "main.py" 900] []].

(** The name of the host cannot be resolved when the repository is probed. *)
Definition dns_failure : env := with_repo_probe (Raise URLError) calm.

(** The read of the response times out. *)
Definition read_timeout : env := with_repo_probe (Raise OSError) calm.



(** The shallow copy times out, the second attempt succeeds. *)
Definition slow_network : env :=
  {| cwd := ["srv"]; os_nt := false; now := 1700000000%N;
     host_probe := Ok 200%N; repo_request := Ok tt; repo_probe := Ok 200%N;
     mkdir_workdir := Ok tt; target_exists := false;
     stale_tree := Tree "hello" [] [];
     removal_of := fun _ => {| rm_error := None; rm_removed := true |};
     rename_aside := Ok tt;
     git_of := fun k =>
       match k with
       | 0 => {| git_result := Raise TimeoutExpired; dir_left := false |}
       | _ => {| git_result := Ok (0%Z, ""); dir_left := true |}
       end;
     post_exists := true; post_is_dir := true; post_items := Ok 4 |}.

Definition hello_target : Path := repo_path ["srv"] hello_url.






Definition readme_tree : tree := Tree "" [plain_file "README.md" 5000] [].

Definition locked_file : file :=
  {| fname := "locked.py"; fstat := Ok 120%N; fexists := true;
     fread := Raise PermissionError |}.

Definition locked_tree : tree := Tree "" [locked_file] [].

Definition no_counts : string -> string -> nat * nat := fun _ _ => (0, 0).
Definition no_comment : string -> string -> string := fun _ _ => "".
Definition fresh_tools : tools := {| file_cache := ∅; error_count := 0 |}.

Definition text_entry (content : string) : fs_entry :=
  {| e_exists := Ok true; e_is_file := Ok true;
     e_stat := Ok (N.of_nat (String.length content));
     e_read_text := fun _ => Ok content |}.

Definition absent_entry : fs_entry :=
  {| e_exists := Ok false; e_is_file := Ok false;
     e_stat := Raise FileNotFoundError;
     e_read_text := fun _ => Raise FileNotFoundError |}.

Definition repo_dir : Path := ["srv"; "workdir"; "hello"].

(** The working copy holds [notes.txt]; later its content changes; later
    still the file is deleted. *)
Definition disk_first : filesystem := fun _ => text_entry "first draft".
Definition disk_edited : filesystem := fun _ => text_entry "second, longer draft".
Definition disk_deleted : filesystem := fun _ => absent_entry.

Definition first_report : file_reply :=
  Report "notes.txt" "11B" 1 "Text" "utf-8" "" ".txt" "first draft" false.

Definition after_first_read : tools :=
  snd (file_read no_comment disk_first repo_dir "notes.txt" fresh_tools).

End Scenario.

(** ** Further vocabulary *)

Module Vocabulary.

Import Pathlib Acquirer Classifier Spec.

(** The seconds a trace spends in [time.sleep]. *)
Definition sleep_total (tr : list event) : N :=
  List.fold_right (fun ev acc => match ev with Sleep n => (n + acc)%N | _ => acc end)
                  0%N tr.


(** [c not in s] *)
Definition lacks (c : ascii) (s : string) : bool :=
  all_chars (fun a => negb (Ascii.eqb a c)) s.

(** The seconds that the attempts from number [k] on may still sleep. *)
Definition copy_budget (k : nat) : N :=
  match k with
  | 0 => 11
  | 1 => 8
  | 2 => 2
  | _ => 0
  end.

End Vocabulary.

(** ** Vocabulary of the further properties *)

Module ClassifierTerms.

Import Pathlib Acquirer Classifier Spec.

(** The files of a walk that the selection would take, in order. *)
Definition qualifies (v : visit) : bool :=
  negb (hidden (fname (snd v))) && fst (criteria (snd v)).

Definition target_of (v : visit) : target :=
  {| t_relative_path := rel_str (fst v ++ [fname (snd v)]);
     t_file := snd v;
     t_priority := snd (criteria (snd v)) |}.

Definition stat_sum (proj : lang_stats -> nat) (m : gmap string lang_stats) : nat :=
  map_fold (fun _ s acc => proj s + acc) 0 m.

(** The totals of a report agree with its table of languages. *)
Definition consistent (a : analysis) : Prop :=
  total_loc a = stat_sum ls_lines (language_stats a)
  /\ function_count a = stat_sum ls_functions (language_stats a)
  /\ class_count a = stat_sum ls_classes (language_stats a)
  /\ length (important_files a) <= stat_sum ls_files (language_stats a).

(** The record [i] describes a file of the walk [w] that the analysis
    read. *)
Definition accounted (w : list (list string * list file)) (i : important) : Prop :=
  exists rel f size content,
    In (rel, f) (visits_of w)
    /\ hidden (fname f) = false
    /\ mem (Py.lower (suffix_of_name (fname f))) code_exts = true
    /\ fstat f = Ok size /\ (size <= 500 * 1024)%N
    /\ fread f = Ok content
    /\ i_path i = rel_str (rel ++ [fname f])
    /\ i_language i = _get_language (Py.lower (suffix_of_name (fname f)))
    /\ i_lines i = useful_lines content
    /\ is_important (fname f) (useful_lines content) = true.

(** A report whose excerpt has at most 4000 characters. *)
Definition bounded_report (r : file_reply) : Prop :=
  match r with
  | Report _ _ _ _ _ _ _ excerpt _ => (Py.len excerpt <= 4000)%N
  | _ => False
  end.

Definition cache_ok (st : tools) : Prop :=
  map_Forall (fun _ r => bounded_report r) (file_cache st).

Definition is_value {A : Type} (r : reply A) : bool :=
  match r with Value _ => true | _ => false end.

(** The exception [ex] leaves the closure of [file_read]: it is raised by
    [exists()] or by [is_file()], or it lies outside the [OSError] family
    and is raised when the size of a file that is not cached is read. *)
Definition escaping (entry : fs_entry) (cached : option file_reply) (ex : exn)
  : Prop :=
  e_exists entry = Raise ex
  \/ (e_exists entry = Ok true /\ e_is_file entry = Raise ex)
  \/ (e_exists entry = Ok true /\ e_is_file entry = Ok true /\ cached = None
      /\ e_stat entry = Raise ex /\ isinstance ex COSError = false).

(** What a read does, case by case. *)
Inductive read_case (fs : filesystem) (repo : Path) (file_path : string) (st : tools)
  : reply file_reply -> tools -> Prop :=
| case_plain r :
    is_report r = false -> read_case fs repo file_path st (Value r) st
| case_hit r :
    file_cache st !! cache_key repo file_path = Some r ->
    read_case fs repo file_path st (Value r) st
| case_fresh r :
    file_cache st !! cache_key repo file_path = None ->
    bounded_report r -> (30 <= size (file_cache st)) ->
    read_case fs repo file_path st (Value r) st
| case_admitted r :
    file_cache st !! cache_key repo file_path = None ->
    bounded_report r -> size (file_cache st) < 30 ->
    read_case fs repo file_path st (Value r)
      {| file_cache := <[cache_key repo file_path := r]> (file_cache st);
         error_count := error_count st |}
| case_error r ex :
    is_value r = false ->
    escaping (fs (cache_key repo file_path))
             (file_cache st !! cache_key repo file_path) ex ->
    read_case fs repo file_path st r (count_error st).

End ClassifierTerms.

Module BrowserTerms.

Import Pathlib Classifier Spec Browser.

(** The line starts with the name of a visible item of [items]. *)
Definition line_of (items : list item) (line : string) : Prop :=
  exists it, In it items /\ hidden (item_name it) = false
             /\ Py.startswith line (item_name it) = true.

(** The items that get a line. *)
Definition listed (it : item) : bool :=
  negb (hidden (item_name it))
  && match item_is_dir it with
     | Ok true => true
     | Ok false => match item_stat it with Ok _ => true | Raise _ => false end
     | Raise _ => false
     end.

(** The items whose inspection raises an exception that the loop does not
    catch. *)
Definition escapes (it : item) : bool :=
  negb (hidden (item_name it))
  && match item_is_dir it with
     | Raise e => negb (passed_over e)
     | Ok true => false
     | Ok false =>
         match item_stat it with Raise e => negb (passed_over e) | Ok _ => false end
     end.

(** The exception [e] leaves the closure of [directory_read]: it is raised
    by [exists()] or by [is_dir()] on the target, or by [iterdir()] without
    being a [PermissionError], or by the inspection of an item. *)
Definition withholds (d : directory) (e : exn) : Prop :=
  d_exists d = Raise e
  \/ (d_exists d = Ok true /\ d_is_dir d = Raise e)
  \/ (d_exists d = Ok true /\ d_is_dir d = Ok true
      /\ ((d_iterdir d = Raise e /\ isinstance e CPermissionError = false)
          \/ exists items,
               d_iterdir d = Ok items
               /\ classify_all (List.firstn 150 items) no_lines = Raise e)).

Definition lines_shown (l : dir_listing) : nat :=
  length (shown_dirs l) + length (shown_code l) + length (shown_config l)
  + length (shown_docs l) + length (shown_others l).

Definition all_lines (b : buckets) : list string :=
  dirs b ++ code_files b ++ config_files b ++ doc_files b ++ other_files b.

Definition ascending (l : list string) : Prop :=
  Sorted (fun a b => String.leb a b = true) l.

End BrowserTerms.

Module DocumentsTerms.

Import Pathlib Spec Documents.


(** The names of the files of the three sections. *)
Definition standard_name (index : nat) : string :=
  match index with
  | 0 => "01_visao_geral.md"
  | 1 => "02_instalacao_configuracao.md"
  | _ => "03_documentacao_tecnica.md"
  end.

(** The save of section [index] succeeds. *)
Definition saved (disk : nat -> result unit * result unit) (index : nat) : bool :=
  match disk index with
  | (Ok _, Ok _) => true
  | _ => false
  end.

(** What the save of a section does. *)
Definition section_calls (disk : nat -> result unit * result unit)
    (section : string * nat) : list doc_event :=
  match fst (disk (snd section)) with
  | Raise _ => [MakeDocsDir]
  | Ok _ =>
      [MakeDocsDir;
       WriteFile ["docs"; standard_name (snd section)]
                 (SectionFallback (fst section) (snd section))]
  end.

End DocumentsTerms.

Module DetailTerms.

Import Pathlib Classifier Spec Browser Detail.

Definition number (s : section) : nat :=
  match s with
  | Described i _ _ _ _ => i
  | Aborted i _ _ _ => i
  end.

Definition path_of (s : section) : string :=
  match s with
  | Described _ relative_path _ _ _ => relative_path
  | Aborted _ relative_path _ _ => relative_path
  end.

Definition still_there (x : target) : bool := fexists (t_file x).

End DetailTerms.

(** ** Further scenarios *)

Module Samples.

Import Pathlib Acquirer Classifier Spec Scenario Browser Detail Documents.

(** A stale copy that only the third strategy removes, two failed copies
    and a third one that finds the directory in its way. *)
Definition worst_case : env :=
  {| cwd := ["srv"]; os_nt := false; now := 1700000000%N;
     host_probe := Ok 200%N; repo_request := Ok tt; repo_probe := Ok 200%N;
     mkdir_workdir := Ok tt; target_exists := true;
     stale_tree := old_copy;
     removal_of := fun k =>
       match k with
       | 0 | 1 => {| rm_error := Some PermissionError; rm_removed := false |}
       | _ => {| rm_error := None; rm_removed := true |}
       end;
     rename_aside := Ok tt;
     git_of := fun k =>
       match k with
       | 0 | 1 => {| git_result := Ok (1%Z, "fatal: early EOF"); dir_left := true |}
       | _ =>
           {| git_result :=
                Ok (128%Z,
                    "fatal: destination path already exists and is not an empty directory.");
              dir_left := true |}
       end;
     post_exists := true; post_is_dir := true; post_items := Ok 4 |}.



Definition main_file : file :=
  {| fname := "main.py"; fstat := Ok 24%N; fexists := true;
     fread := Ok "import os" |}.

Definition main_tree : tree := Tree "" [main_file] [].

Definition main_record : important :=
  {| i_path := "main.py"; i_language := "Python"; i_lines := 1;
     i_functions := 0; i_classes := 0 |}.

Definition main_analysis : analysis :=
  fst (analyze_dirs no_counts (walk (keep_dir analysis_deny) [] main_tree)
         empty_analysis).

(** A Python text of three lines. *)
Definition script : string :=
  "import os" +:+ String line_feed ("class A:" +:+ String line_feed "    pass").

(** A directory with a hidden item, a sub-directory, two files and a file
    whose size cannot be read. *)
Definition sample_items : list item :=
  [ {| item_name := ".git"; item_is_dir := Ok true; item_count := Ok 9;
       item_stat := Ok 0%N |};
    {| item_name := "src"; item_is_dir := Ok true; item_count := Ok 3;
       item_stat := Ok 0%N |};
    {| item_name := "main.py"; item_is_dir := Ok false; item_count := Raise OSError;
       item_stat := Ok 2048%N |};
    {| item_name := "README"; item_is_dir := Ok false; item_count := Raise OSError;
       item_stat := Ok 10%N |};
    {| item_name := "lock"; item_is_dir := Ok false; item_count := Raise OSError;
       item_stat := Raise PermissionError |} ].

Definition sample_dirs : string -> directory :=
  fun _ => {| d_exists := Ok true; d_is_dir := Ok true;
              d_iterdir := Ok sample_items |}.

(** The parent of the path cannot be searched: every check raises. *)
Definition sealed_disk : filesystem :=
  fun _ => {| e_exists := Raise PermissionError; e_is_file := Raise PermissionError;
              e_stat := Raise PermissionError;
              e_read_text := fun _ => Raise PermissionError |}.

Definition sealed_dirs : string -> directory :=
  fun _ => {| d_exists := Raise PermissionError; d_is_dir := Raise PermissionError;
              d_iterdir := Raise PermissionError |}.

Definition sample_listing : dir_listing :=
  {| heading := "raiz";
     shown_dirs := ["src/ (3 itens)"];
     shown_code := ["main.py (2KB) - Python"];
     shown_config := [];
     shown_docs := ["README (10B) - Doc"];
     shown_others := [];
     more := Some 2 |}.

Fixpoint filler (c : ascii) (n : nat) : string :=
  match n with
  | O => EmptyString
  | S k => String c (filler c k)
  end.

(** A draft, a review of the same length and a short closing message. *)
Definition draft : message :=
  {| msg_content := filler "a" 250; msg_name := "TechnicalDocumentationWriter" |}.
Definition review : message :=
  {| msg_content := filler "b" 250; msg_name := "DocumentationReviewer" |}.
Definition thanks : message :=
  {| msg_content := "ok"; msg_name := "DocumentationReviewer" |}.

Definition big_file : file :=
  {| fname := "big.py"; fstat := Ok 200000%N; fexists := true; fread := Ok "" |}.

Definition big_target : target :=
  {| t_relative_path := "big.py"; t_file := big_file; t_priority := 5 |}.

End Samples.

(** * Properties *)

(** ** Strings *)

Module PyFacts.

Import Spec.

Lemma str_app_cons c r s : String c r +:+ s = String c (r +:+ s).
Proof. reflexivity. Qed.

Lemma str_app_nil_l s : "" +:+ s = s.
Proof. reflexivity. Qed.

Lemma str_app_nil_r s : s +:+ "" = s.
Proof.
  induction s as [|c r IH]; [reflexivity | rewrite str_app_cons; f_equal; exact IH].
Qed.

Lemma str_app_assoc a b c : (a +:+ b) +:+ c = a +:+ (b +:+ c).
Proof.
  induction a as [|x r IH]; [reflexivity | rewrite !str_app_cons; f_equal; exact IH].
Qed.

Lemma last_char_app a b : b <> "" -> last_char (a +:+ b) = last_char b.
Proof.
  intros Hb. induction a as [|c r IH]; [reflexivity|].
  rewrite str_app_cons. simpl. rewrite IH.
  destruct (r +:+ b) eqn:E; [|reflexivity].
  destruct r; [rewrite str_app_nil_l in E; congruence
              | rewrite str_app_cons in E; discriminate].
Qed.

Lemma last_char_all p s c :
  all_chars p s = true -> last_char s = Some c -> p c = true.
Proof.
  induction s as [|a r IH]; simpl; [discriminate|].
  intros H Hl. apply andb_true_iff in H as [Ha Hr].
  destruct r; [inversion Hl; subst; auto | auto].
Qed.

Lemma last_char_nonempty s : s <> "" -> exists c, last_char s = Some c.
Proof.
  induction s as [|a r IH]; [congruence|]. intros _.
  destruct r as [|b r]; [eexists; reflexivity|].
  destruct IH as [c Hc]; [discriminate|]. exists c. exact Hc.
Qed.

(** What [rstrip] leaves does not end in white space. *)
Lemma rstrip_last s c : last_char (Py.rstrip s) = Some c -> Py.is_space c = false.
Proof.
  induction s as [|a r IH]; simpl; [discriminate|].
  destruct (Py.rstrip r) as [|b r'] eqn:E.
  - destruct (Py.is_space a) eqn:Ha; simpl; [discriminate|].
    intros H; inversion H; subst; exact Ha.
  - intros H. apply IH. exact H.
Qed.

Lemma rstrip_id s c : last_char s = Some c -> Py.is_space c = false -> Py.rstrip s = s.
Proof.
  induction s as [|a r IH]; simpl; [discriminate|].
  intros Hl Hc. destruct r as [|b r].
  - inversion Hl; subst. simpl. now rewrite Hc.
  - rewrite (IH Hl Hc). reflexivity.
Qed.

Lemma prefix_head_differs a p b s :
  a <> b -> String.prefix (String a p) (String b s) = false.
Proof.
  intros Hne.
  change (String.prefix (String a p) (String b s))
    with (if ascii_dec a b then String.prefix p s else false).
  destruct (ascii_dec a b); [contradiction | reflexivity].
Qed.

Lemma contains_cons p c r :
  Py.contains p (String c r) = String.prefix p (String c r) || Py.contains p r.
Proof. reflexivity. Qed.

Lemma lower_char_not_upper_R c : Py.lower_char c <> "R"%char.
Proof.
  destruct c as [[] [] [] [] [] [] [] []]; vm_compute; discriminate.
Qed.

Lemma split_nonempty sep s : Py.split sep s <> [].
Proof.
  destruct s as [|c r]; simpl; [discriminate|].
  destruct (Ascii.eqb c sep); [discriminate|].
  destruct (Py.split sep r); discriminate.
Qed.

(** A string ending in the separator splits into a list ending in the
    empty string. *)
Lemma split_trailing sep s :
  Py.ends_with_char sep s = true ->
  exists l, Py.split sep s = l ++ [""].
Proof.
  induction s as [|c r IH]; [discriminate|].
  destruct r as [|b r].
  - simpl. intros H. rewrite H. now exists [""].
  - intros H. change (Py.ends_with_char sep (String b r) = true) in H.
    destruct (IH H) as [l Hl].
    change (Py.split sep (String c (String b r)))
      with (if Ascii.eqb c sep then "" :: Py.split sep (String b r)
            else match Py.split sep (String b r) with
                 | [] => [String c ""]
                 | h :: t => String c h :: t
                 end).
    rewrite Hl. destruct (Ascii.eqb c sep).
    + now exists ("" :: l).
    + destruct l as [|h t]; simpl.
      * (* the empty prefix cannot occur: the tail is not empty *)
        exfalso. clear -Hl. simpl in Hl.
        pose proof (split_nonempty sep r) as Hne.
        destruct (Ascii.eqb b sep); [inversion Hl; contradiction|].
        destruct (Py.split sep r); discriminate.
      * now exists (String c h :: t).
Qed.

End PyFacts.

(** ** The acquirer *)

Module AcquirerFacts.

Import Pathlib Acquirer Spec Scenario PyFacts.

(** *** The regular expression *)

Lemma strip_prefix_sound p : forall s r, strip_prefix p s = Some r -> s = p +:+ r.
Proof.
  induction p as [|a p IH]; intros s r H; simpl in *.
  - now inversion H.
  - destruct s as [|b s]; [discriminate|].
    destruct (Ascii.eqb_spec a b) as [->|]; [|discriminate].
    rewrite str_app_cons. f_equal. exact (IH _ _ H).
Qed.

Lemma strip_prefix_complete p r : strip_prefix p (p +:+ r) = Some r.
Proof.
  induction p as [|a p IH]; [now destruct r|].
  rewrite str_app_cons. simpl. now rewrite Ascii.eqb_refl.
Qed.

Lemma span_sound p : forall s a b,
  span p s = (a, b) -> s = a +:+ b /\ all_chars p a = true /\ head_fails p b.
Proof.
  induction s as [|c r IH]; intros a b H; simpl in H.
  - inversion H; subst; simpl; auto.
  - destruct (p c) eqn:Hc.
    + destruct (span p r) as [a' b'] eqn:Hs. inversion H; subst.
      destruct (IH _ _ eq_refl) as (-> & Ha & Hb).
      rewrite str_app_cons. simpl. rewrite Hc, Ha. auto.
    + inversion H; subst; simpl; auto.
Qed.

Lemma span_complete p : forall a b,
  all_chars p a = true -> head_fails p b -> span p (a +:+ b) = (a, b).
Proof.
  induction a as [|c r IH]; intros b Ha Hb.
  - rewrite str_app_nil_l. destruct b as [|d b]; simpl in *; [reflexivity | now rewrite Hb].
  - simpl in Ha. apply andb_true_iff in Ha as [Hc Hr].
    rewrite str_app_cons. simpl. now rewrite Hc, (IH b Hr Hb).
Qed.

Lemma at_end_spec s : at_end s = true <-> s = "" \/ s = newline.
Proof.
  unfold at_end. rewrite orb_true_iff, !String.eqb_eq. tauto.
Qed.

(** The matcher accepts exactly the language of the regular expression. *)
Lemma match_github_url_spec s :
  match_github_url s = true <->
  exists owner name tail,
    s = "https://github.com/" +:+ owner +:+ "/" +:+ name +:+ tail
    /\ owner <> "" /\ name <> ""
    /\ all_chars is_name_char owner = true
    /\ all_chars is_name_char name = true
    /\ tail_ok tail.
Proof.
  unfold match_github_url. split.
  - destruct (strip_prefix _ s) as [r1|] eqn:Hp; [|discriminate].
    apply strip_prefix_sound in Hp.
    destruct (span is_name_char r1) as [owner r2] eqn:Ho.
    apply span_sound in Ho as (-> & Hown & _).
    intros H. apply andb_true_iff in H as [Hne H].
    destruct r2 as [|c r3]; [discriminate|].
    apply andb_true_iff in H as [Hc H].
    apply Ascii.eqb_eq in Hc as ->.
    destruct (span is_name_char r3) as [nm r4] eqn:Hn.
    apply span_sound in Hn as (-> & Hnm & _).
    apply andb_true_iff in H as [Hne' H].
    exists owner, nm, r4. repeat split; auto.
    + intros ->. discriminate.
    + intros ->. discriminate.
    + apply orb_true_iff in H as [H|H].
      * apply at_end_spec in H as [->| ->]; unfold tail_ok; auto.
      * destruct r4 as [|d r5]; [discriminate|].
        apply andb_true_iff in H as [Hd H]. apply Ascii.eqb_eq in Hd as ->.
        apply at_end_spec in H as [->| ->]; unfold tail_ok; auto.
  - intros (owner & nm & tail & -> & Ho & Hn & Hown & Hnm & Ht).
    rewrite strip_prefix_complete.
    rewrite (span_complete is_name_char owner ("/" +:+ nm +:+ tail) Hown eq_refl).
    assert (Hspan : span is_name_char (nm +:+ tail) = (nm, tail)).
    { apply span_complete; auto.
      destruct Ht as [->|[->|[->| ->]]]; reflexivity. }
    rewrite str_app_cons, str_app_nil_l. rewrite Hspan.
    destruct owner; [congruence|]. destruct nm; [congruence|]. simpl.
    destruct Ht as [->|[->|[->| ->]]]; reflexivity.
Qed.

Lemma name_char_not_space c : is_name_char c = true -> Py.is_space c = false.
Proof.
  destruct c as [[] [] [] [] [] [] [] []]; vm_compute; congruence.
Qed.

Lemma well_shaped_matches s : well_shaped s -> match_github_url s = true.
Proof.
  intros (owner & nm & tail & H & Ho & Hn & Hown & Hnm & Ht).
  apply match_github_url_spec. exists owner, nm, tail.
  repeat split; auto. unfold tail_ok. tauto.
Qed.

Lemma well_shaped_last s :
  well_shaped s -> exists c, last_char s = Some c /\ Py.is_space c = false.
Proof.
  intros (owner & nm & tail & -> & Ho & Hn & Hown & Hnm & Ht).
  rewrite <- !str_app_assoc.
  destruct Ht as [-> | ->].
  - rewrite str_app_nil_r. rewrite last_char_app by exact Hn.
    destruct (last_char_nonempty nm Hn) as [c Hc]. exists c. split; [exact Hc|].
    apply name_char_not_space. eapply last_char_all; eauto.
  - rewrite last_char_app by discriminate. exists "/"%char. split; reflexivity.
Qed.

(** A well-shaped reference carries no white space at either end. *)
Lemma well_shaped_strip s : well_shaped s -> Py.strip s = s.
Proof.
  intros H. destruct (well_shaped_last s H) as (c & Hc & Hs).
  assert (Hl : Py.lstrip s = s).
  { destruct H as (owner & nm & tail & -> & _). reflexivity. }
  unfold Py.strip. rewrite Hl. eapply rstrip_id; eauto.
Qed.

Lemma validate_iff url :
  _validate_github_url url = true <-> well_shaped (Py.strip url).
Proof.
  unfold _validate_github_url. split.
  - intros H. apply match_github_url_spec in H.
    destruct H as (owner & nm & tail & E & Ho & Hn & Hown & Hnm & Ht).
    exists owner, nm, tail. repeat split; auto.
    destruct Ht as [->|[->|[Ht|Ht]]]; auto; exfalso; subst tail.
    + assert (Hl : last_char (Py.strip url) = Some (ascii_of_N 10)).
      { rewrite E, <- !str_app_assoc. rewrite last_char_app by discriminate. reflexivity. }
      apply rstrip_last in Hl. discriminate.
    + assert (Hl : last_char (Py.strip url) = Some (ascii_of_N 10)).
      { rewrite E, <- !str_app_assoc. rewrite last_char_app by discriminate. reflexivity. }
      apply rstrip_last in Hl. discriminate.
  - apply well_shaped_matches.
Qed.

(** C4 (as amended).  Validation depends on the reference string alone: it
    accepts exactly the strings whose form stripped of surrounding white
    space has the shape [https://github.com/<owner>/<name>[/]]; every
    string of that shape is accepted; and a rejected string makes the
    acquirer return failure before any network or file-system action. *)
Theorem validation_decides_the_stripped_shape (url : string) :
  (_validate_github_url url = true <-> well_shaped (Py.strip url))
  /\ (well_shaped url -> _validate_github_url url = true)
  /\ (forall e, _validate_github_url url = false ->
                clone_repository e url = ([], Returned false)).
Proof.
  split; [apply validate_iff|]. split.
  - intros H. apply validate_iff. now rewrite well_shaped_strip.
  - intros e H. unfold clone_repository. now rewrite H.
Qed.

Lemma validation_decides_the_stripped_shape_witness :
  _validate_github_url "ftp://example.org/x" = false
  /\ clone_repository calm "ftp://example.org/x" = ([], Returned false).
Proof.
  split; [reflexivity|].
  apply (validation_decides_the_stripped_shape "ftp://example.org/x"). reflexivity.
Defined.

(** C4 as stated fails: a reference with a leading blank does not have the
    shape, yet it is accepted, and the run goes on to probe the network
    with it. *)
Lemma padded_reference_is_accepted :
  ~ well_shaped padded_url
  /\ _validate_github_url padded_url = true
  /\ fst (clone_repository dns_failure padded_url)
     = [ProbeHost; ProbeRepository padded_url].
Proof.
  split; [|split; reflexivity].
  intros (owner & nm & tail & H & _). discriminate H.
Qed.

(** *** The name of the local directory *)

(** C8.  The name of the local directory is the last segment of the
    reference with every occurrence of [.git] removed, not only a trailing
    one: for the repository [octocat.github.io] the directory is
    [octocathub.io], where stripping the trailing suffix alone leaves the
    segment unchanged. *)
Theorem repo_name_removes_every_git :
  _validate_github_url pages_url = true
  /\ Py.last_item (Py.split "/" pages_url) = "octocat.github.io"
  /\ strip_git_suffix "octocat.github.io" = "octocat.github.io"
  /\ repo_name pages_url = "octocathub.io"
  /\ repo_path ["srv"] pages_url = ["srv"; "workdir"; "octocathub.io"].
Proof. repeat split. Qed.

Lemma last_item_trailing_slash url :
  Py.ends_with_char "/" url = true -> Py.last_item (Py.split "/" url) = "".
Proof.
  intros H. destruct (split_trailing _ _ H) as [l ->].
  unfold Py.last_item. apply List.last_last.
Qed.

(** C9.  A reference that the validator accepts and that ends with a slash
    yields the empty directory name, so the target of the copy is the base
    working directory itself. *)
Theorem trailing_slash_collapses_target (base : Path) (url : string) :
  _validate_github_url url = true ->
  Py.ends_with_char "/" url = true ->
  repo_name url = "" /\ repo_path base url = workdir base.
Proof.
  intros _ Hs.
  assert (Hn : repo_name url = "").
  { unfold repo_name. now rewrite (last_item_trailing_slash url Hs). }
  split; [exact Hn|].
  unfold repo_path. rewrite Hn. unfold truediv, parts_of. simpl.
  apply List.app_nil_r.
Qed.

Lemma trailing_slash_collapses_target_witness :
  _validate_github_url slash_url = true
  /\ Py.ends_with_char "/" slash_url = true
  /\ repo_name slash_url = ""
  /\ repo_path ["srv"] slash_url = ["srv"; "workdir"].
Proof.
  split; [reflexivity|]. split; [reflexivity|].
  apply (trailing_slash_collapses_target ["srv"] slash_url); reflexivity.
Defined.

(** *** The existence gate *)

Section Gate.

Variables (e : env) (url : string).
Hypothesis Hvalid : _validate_github_url url = true.
Hypothesis Hhost : _check_github_connectivity (host_probe e) = true.

Lemma gate_closed_iff :
  _check_repository_exists (repo_request e) (repo_probe e) = false <->
  (exists u, repo_request e = Ok u)
  /\ ((exists status, repo_probe e = Ok status /\ status <> 200%N)
      \/ (exists ex, repo_probe e = Raise ex /\ isinstance ex CURLError = true)).
Proof.
  unfold _check_repository_exists. split.
  - destruct (repo_request e) as [u|ex]; [|discriminate].
    intros H. split; [eauto|].
    destruct (repo_probe e) as [status|ex].
    + left. exists status. split; [reflexivity|]. now apply N.eqb_neq.
    + right. exists ex. split; [reflexivity|].
      destruct ex; simpl in *; congruence.
  - intros [[u ->] [(status & -> & Hs) | (ex & -> & Hx)]].
    + now apply N.eqb_neq.
    + destruct ex; simpl in *; congruence.
Qed.

Lemma gate_closed_aborts :
  _check_repository_exists (repo_request e) (repo_probe e) = false ->
  clone_repository e url = (ProbeHost :: probe_events e url, Returned false).
Proof.
  intros H. unfold clone_repository. now rewrite Hvalid, Hhost, H.
Qed.

Lemma gate_open_proceeds :
  _check_repository_exists (repo_request e) (repo_probe e) = true ->
  passes_gate e url.
Proof.
  intros H. unfold passes_gate, clone_repository. rewrite Hvalid, Hhost, H. simpl negb.
  cbv iota.
  set (t1 := (ProbeHost :: probe_events e url) ++ [Mkdir (workdir (cwd e))]).
  assert (H1 : In (Mkdir (workdir (cwd e))) t1).
  { apply List.in_or_app. right. now left. }
  assert (G : forall t, In (Mkdir (workdir (cwd e))) (t1 ++ t)).
  { intros t. apply List.in_or_app. now left. }
  destruct (mkdir_workdir e); [|exact H1].
  destruct (cleanup e _) as [t2 [p|p|b]]; try apply G;
    destruct (clone_loop e url _) as [t3 [ok|ok|b]]; try apply G;
    destruct (negb ok); try apply G;
    destruct (post_checks e _) as [t4 b4]; apply G.
Qed.

Lemma gate_closed_stops :
  _check_repository_exists (repo_request e) (repo_probe e) = false ->
  ~ passes_gate e url.
Proof.
  intros H. unfold passes_gate. rewrite (gate_closed_aborts H). simpl.
  unfold probe_events. destruct (repo_request e); simpl; intuition discriminate.
Qed.

End Gate.

(** C1 (as amended).  For a reference that passed validation and the host
    probe, the run goes past the existence gate exactly when the probe
    function returns true.  The gate is closed, and the run returns failure
    right there, exactly when the request was built and either a response
    arrived whose status is not 200 or the probe raised an exception of the
    [URLError] family, which comprises every [HTTPError] whatever its status
    and also a plain [URLError].  Any exception outside that family,
    whether raised by the probe or while building the request, opens the
    gate. *)
Theorem existence_gate_by_exception_class (e : env) (url : string) :
  _validate_github_url url = true ->
  _check_github_connectivity (host_probe e) = true ->
  (passes_gate e url <->
   _check_repository_exists (repo_request e) (repo_probe e) = true)
  /\ (_check_repository_exists (repo_request e) (repo_probe e) = false <->
      (exists u, repo_request e = Ok u)
      /\ ((exists status, repo_probe e = Ok status /\ status <> 200%N)
          \/ (exists ex, repo_probe e = Raise ex /\ isinstance ex CURLError = true)))
  /\ (_check_repository_exists (repo_request e) (repo_probe e) = false ->
      clone_repository e url = (ProbeHost :: probe_events e url, Returned false)).
Proof.
  intros Hv Hh. split; [|split].
  - split.
    + intros Hp. destruct (_check_repository_exists _ _) eqn:E; [reflexivity|].
      exfalso. eapply gate_closed_stops; eauto.
    + now apply gate_open_proceeds.
  - apply gate_closed_iff.
  - now apply gate_closed_aborts.
Qed.

Lemma existence_gate_by_exception_class_witness :
  _validate_github_url hello_url = true
  /\ _check_github_connectivity (host_probe read_timeout) = true
  /\ (passes_gate read_timeout hello_url <->
      _check_repository_exists (repo_request read_timeout) (repo_probe read_timeout) = true).
Proof.
  split; [reflexivity|]. split; [reflexivity|].
  apply (existence_gate_by_exception_class read_timeout hello_url); reflexivity.
Defined.

(** C1 as stated fails: a failure to resolve the host name is raised as a
    [URLError], which is no HTTP response, and the run stops at the gate. *)
Lemma url_error_closes_the_gate :
  _validate_github_url hello_url = true
  /\ _check_github_connectivity (host_probe dns_failure) = true
  /\ repo_probe dns_failure = Raise URLError
  /\ isinstance URLError CHTTPError = false
  /\ clone_repository dns_failure hello_url
     = ([ProbeHost; ProbeRepository hello_url], Returned false).
Proof. repeat split. Qed.

(** *** Loops *)

Lemma for_each_cons {S : Type} (bd : nat -> S -> list event * ctl S) i rest s :
  for_each bd (i :: rest) s =
  match bd i s with
  | (t, Next s') => let '(t', c) := for_each bd rest s' in (t ++ t', c)
  | (t, c) => (t, c)
  end.
Proof. reflexivity. Qed.

(** *** Removal of a stale working copy *)

Lemma tree_nested_ind (P : tree -> Prop) :
  (forall nm fs ds, List.Forall P ds -> P (Tree nm fs ds)) ->
  forall t, P t.
Proof.
  intros step. fix IH 1. intros [nm fs ds]. apply step.
  induction ds as [|d ds IHds]; constructor; [apply IH | exact IHds].
Qed.


Section Removal.

Variables (e : env) (target : Path).

Lemma for_each_absent rest :
  fst (for_each (cleanup_body e target) rest false) = []
  /\ present_after (snd (for_each (cleanup_body e target) rest false)) = false.
Proof. destruct rest; simpl; auto. Qed.

Lemma cleanup_body_present k :
  cleanup_body e target k true =
  match rm_error (removal_of e k), rm_removed (removal_of e k) with
  | Some _, removed => (removal_command e target k ++ pause k, Next (negb removed))
  | None, false => (removal_command e target k ++ pause k, Next true)
  | None, true => (removal_command e target k, Break false)
  end.
Proof.
  unfold cleanup_body, pause.
  destruct (rm_error (removal_of e k)); destruct (rm_removed (removal_of e k)); reflexivity.
Qed.

Lemma removal_step k rest :
  k < 3 ->
  removal_run e target (S k)
    (fst (for_each (cleanup_body e target) rest true))
    (present_after (snd (for_each (cleanup_body e target) rest true))) ->
  removal_run e target k
    (fst (for_each (cleanup_body e target) (k :: rest) true))
    (present_after (snd (for_each (cleanup_body e target) (k :: rest) true))).
Proof.
  intros Hk IH. rewrite for_each_cons, cleanup_body_present.
  destruct (rm_error (removal_of e k)) as [ex|] eqn:He;
    destruct (rm_removed (removal_of e k)) eqn:Hr; simpl negb.
  - destruct (for_each_absent rest) as [Ht Hp].
    destruct (for_each (cleanup_body e target) rest false) as [t' c]. simpl in *. subst t'.
    rewrite Hp, List.app_nil_r.
    eapply rm_done_raising; eauto.
  - destruct (for_each (cleanup_body e target) rest true) as [t' c]. simpl in *.
    rewrite <- List.app_assoc. apply rm_retry; auto.
  - apply rm_done; auto.
  - destruct (for_each (cleanup_body e target) rest true) as [t' c]. simpl in *.
    rewrite <- List.app_assoc. apply rm_retry; auto.
Qed.

Lemma removal_loop_run :
  removal_run e target 0
    (fst (for_each (cleanup_body e target) [0; 1; 2] true))
    (present_after (snd (for_each (cleanup_body e target) [0; 1; 2] true))).
Proof.
  do 3 (apply removal_step; [lia|]). constructor.
Qed.

Lemma cleanup_loop_never_returns rest p b :
  snd (for_each (cleanup_body e target) rest p) <> Return b.
Proof.
  revert p. induction rest as [|k rest IH]; intros p; [discriminate|].
  rewrite for_each_cons. destruct p; [|discriminate].
  rewrite cleanup_body_present.
  destruct (rm_error (removal_of e k)); destruct (rm_removed (removal_of e k)); simpl negb.
  - specialize (IH false). destruct (for_each (cleanup_body e target) rest false); exact IH.
  - specialize (IH true). destruct (for_each (cleanup_body e target) rest true); exact IH.
  - discriminate.
  - specialize (IH true). destruct (for_each (cleanup_body e target) rest true); exact IH.
Qed.



End Removal.



(** *** The copy *)

Section Copy.

Variables (e : env) (url : string) (target : Path).

Lemma clone_body_cases k :
  match verdict_at e k with
  | Cloned => clone_body e url target k false = ([attempt url target k], Break true)
  | Terminal => clone_body e url target k false = ([attempt url target k], Return false)
  | Interrupted =>
      clone_body e url target k false
      = ([attempt url target k], if (k <? 2)%nat then Next false else Return false)
  | DirectoryNotEmpty =>
      clone_body e url target k false
      = (attempt url target k :: tidy e target k, Next false)
  | Failed =>
      clone_body e url target k false =
      (if (k <? 2)%nat then [attempt url target k; Sleep (3 * (N.of_nat k + 1))]
       else [attempt url target k], Next false)
  end.
Proof.
  unfold verdict_at, verdict_of, clone_body, attempt, tidy, max_retries.
  destruct (git_result (git_of e k)) as [[rc err]|ex].
  - destruct (rc =? 0)%Z; [reflexivity|].
    destruct (Py.contains "already exists and is not an empty directory" _).
    { destruct (dir_left _); reflexivity. }
    destruct (Py.contains "not found" _); [reflexivity|].
    destruct (Py.contains "does not exist" _); [reflexivity|].
    destruct (Py.contains "permission denied" _); [reflexivity|].
    destruct (Py.contains "forbidden" _); [reflexivity|].
    simpl. destruct (k <? 2)%nat; [|reflexivity].
    do 4 f_equal. lia.
  - simpl. destruct ex; destruct (k <? 2)%nat; reflexivity.
Qed.

Lemma copy_step k rest :
  k < 3 ->
  copy_run e url target (S k)
    (fst (for_each (clone_body e url target) rest false))
    (snd (for_each (clone_body e url target) rest false)) ->
  copy_run e url target k
    (fst (for_each (clone_body e url target) (k :: rest) false))
    (snd (for_each (clone_body e url target) (k :: rest) false)).
Proof.
  intros Hk IH. rewrite for_each_cons.
  pose proof (clone_body_cases k) as Hc.
  destruct (verdict_at e k) eqn:Hv; rewrite Hc.
  - simpl. now constructor.
  - destruct (for_each (clone_body e url target) rest false) as [t' c]. simpl in *.
    apply (run_not_empty e url target k t' c); auto.
  - simpl. now constructor.
  - destruct (Nat.ltb_spec k 2).
    + destruct (for_each (clone_body e url target) rest false) as [t' c]. simpl in *.
      now apply run_backoff.
    + assert (k = 2) by lia. subst k.
      destruct (for_each (clone_body e url target) rest false) as [t' c]. simpl in *.
      now apply run_failed_last.
  - destruct (Nat.ltb_spec k 2).
    + destruct (for_each (clone_body e url target) rest false) as [t' c]. simpl in *.
      now apply run_interrupted.
    + assert (k = 2) by lia. subst k. simpl. now apply run_interrupted_last.
Qed.

Lemma clone_loop_run :
  copy_run e url target 0 (fst (clone_loop e url target)) (snd (clone_loop e url target)).
Proof.
  unfold clone_loop, max_retries.
  do 3 (apply copy_step; [lia|]). constructor.
Qed.

Lemma git_commands_app a b : git_commands (a ++ b) = git_commands a ++ git_commands b.
Proof. unfold git_commands. apply List.flat_map_app. Qed.

Lemma tidy_no_git k : git_commands (tidy e target k) = [].
Proof. unfold tidy. destruct (dir_left _); reflexivity. Qed.

Lemma git_commands_attempt k tr :
  git_commands (attempt url target k :: tr)
  = clone_command url target k :: git_commands tr.
Proof. reflexivity. Qed.

Lemma git_commands_sleep n tr : git_commands (Sleep n :: tr) = git_commands tr.
Proof. reflexivity. Qed.

Lemma run_commands k tr c :
  copy_run e url target k tr c ->
  exists n, k + n <= 3
            /\ git_commands tr = List.map (clone_command url target) (seq k n).
Proof.
  induction 1 as [ | k | k | k tr c Hk Hv H IH | | k tr c Hk Hv H IH
                 | k tr c Hk Hv H IH | tr c Hv H IH ].
  - exists 0. split; [lia | reflexivity].
  - exists 1. split; [lia | reflexivity].
  - exists 1. split; [lia | reflexivity].
  - destruct IH as (n & Hn & E). exists (S n). split; [lia|].
    rewrite git_commands_attempt, E. reflexivity.
  - exists 1. split; [lia | reflexivity].
  - destruct IH as (n & Hn & E). exists (S n). split; [lia|].
    rewrite git_commands_attempt, git_commands_app, tidy_no_git, E. reflexivity.
  - destruct IH as (n & Hn & E). exists (S n). split; [lia|].
    rewrite git_commands_attempt, git_commands_sleep, E. reflexivity.
  - destruct IH as (n & Hn & E). exists (S n). split; [lia|].
    rewrite git_commands_attempt, E. reflexivity.
Qed.

(** C5 (as amended).  The copy is attempted at most three times, in the
    order depth-1 single-branch, single-branch, full, each with a timeout
    of 300 seconds.  After a timeout or any other exception the next
    attempt follows at once, without a sleep, and after the third the run
    returns failure.  A git failure that reports a missing or forbidden
    repository ends the run at once.  A failure that reports a non-empty
    directory removes the directory and sleeps two seconds when the
    directory exists, and goes on to the next attempt.  Only the remaining
    git failures are followed by the linear back-off, three seconds after
    the first attempt and six after the second. *)
Theorem clone_attempts_follow_the_schedule :
  copy_run e url target 0 (fst (clone_loop e url target)) (snd (clone_loop e url target))
  /\ exists n, n <= 3
       /\ git_commands (fst (clone_loop e url target))
          = List.map (clone_command url target) (seq 0 n).
Proof.
  split; [apply clone_loop_run|].
  destruct (run_commands _ _ _ clone_loop_run) as (n & Hn & E).
  exists n. split; [lia | exact E].
Qed.

End Copy.

(** C5 as stated fails: after a timeout of the first attempt the second
    one starts at once; nothing sleeps between the two. *)
Lemma timeout_retry_has_no_backoff :
  git_result (git_of slow_network 0) = Raise TimeoutExpired
  /\ clone_loop slow_network hello_url hello_target
     = ([attempt hello_url hello_target 0; attempt hello_url hello_target 1],
        Break true)
  /\ ~ In (Sleep 3) (fst (clone_loop slow_network hello_url hello_target)).
Proof.
  split; [reflexivity|]. split; [reflexivity|].
  vm_compute. intros [H|[H|H]]; [discriminate H | discriminate H | exact H].
Qed.

End AcquirerFacts.

(** ** The classifier *)

Module ClassifierFacts.

Import Pathlib Classifier Spec Scenario PyFacts.

(** *** Key files *)
















(** *** Ranked files *)

Lemma readme_never_matches nm : Py.contains "README.md" (Py.lower nm) = false.
Proof.
  induction nm as [|c r IH]; [reflexivity|].
  change (Py.lower (String c r)) with (String (Py.lower_char c) (Py.lower r)).
  rewrite contains_cons, IH, orb_false_r.
  apply prefix_head_differs. intros E. now apply (lower_char_not_upper_R c).
Qed.

(** C7.  The pattern [README.md] of the high-value set is compared with the
    lower-cased file name and therefore matches no file at all: a file
    named [README.md] gets priority 0 instead of 10 and is not selected. *)
Theorem readme_is_never_selected :
  In "README.md" important_patterns
  /\ (forall nm, Py.contains "README.md" (Py.lower nm) = false)
  /\ criteria (plain_file "README.md" 5000) = (false, 0%Z)
  /\ analysis_targets 10 readme_tree = Ok [].
Proof.
  split; [vm_compute; tauto|].
  split; [exact readme_never_matches|]. split; reflexivity.
Qed.

Lemma collect_file_length max_files targets v :
  (Z.of_nat (length targets) <= Z.max 0 (max_files * 2))%Z ->
  (Z.of_nat (length (collect_file max_files targets v)) <= Z.max 0 (max_files * 2))%Z.
Proof.
  intros H. unfold collect_file.
  destruct (hidden _); [exact H|].
  destruct (criteria (snd v)) as [sa pr].
  destruct sa; simpl; [|exact H].
  destruct (Z.ltb_spec (Z.of_nat (length targets)) (max_files * 2)); [|exact H].
  rewrite List.length_app. simpl. lia.
Qed.

(** At most twice [max_files] candidates are collected. *)
Lemma candidates_length max_files t :
  (Z.of_nat (length (candidates max_files t)) <= Z.max 0 (max_files * 2))%Z.
Proof.
  unfold candidates.
  assert (G : forall vs acc,
    (Z.of_nat (length acc) <= Z.max 0 (max_files * 2))%Z ->
    (Z.of_nat (length (List.fold_left (collect_file max_files) vs acc))
     <= Z.max 0 (max_files * 2))%Z).
  { induction vs as [|v vs IH]; intros acc H; simpl; [exact H|].
    apply IH, collect_file_length, H. }
  apply G. simpl. lia.
Qed.

Lemma with_keys_map l keyed : with_keys l = Ok keyed -> List.map snd keyed = l.
Proof.
  revert keyed. induction l as [|x r IH]; intros keyed H; simpl in H.
  - now inversion H.
  - destruct (sort_key x); [|discriminate].
    destruct (with_keys r); [|discriminate].
    inversion H; subst. simpl. now rewrite (IH _ eq_refl).
Qed.

Lemma with_keys_keys l keyed :
  with_keys l = Ok keyed ->
  List.Forall (fun kx => sort_key (snd kx) = Ok (fst kx)) keyed.
Proof.
  revert keyed. induction l as [|x r IH]; intros keyed H; simpl in H.
  - inversion H. constructor.
  - destruct (sort_key x) eqn:Ek; [|discriminate].
    destruct (with_keys r); [|discriminate].
    inversion H; subst. constructor; [exact Ek | now apply IH].
Qed.

Lemma insert_keyed_perm x l : Permutation (x :: l) (insert_keyed x l).
Proof.
  induction l as [|y r IH]; simpl; [reflexivity|].
  destruct (key_le (fst x) (fst y)); [reflexivity|].
  rewrite perm_swap. now constructor.
Qed.

Lemma sort_keyed_perm l : Permutation l (sort_keyed l).
Proof.
  induction l as [|x r IH]; simpl; [constructor|].
  rewrite <- insert_keyed_perm. now constructor.
Qed.

Lemma key_le_total a b : key_le a b = false -> key_le b a = true.
Proof.
  unfold key_le. destruct a as [a1 a2], b as [b1 b2]. simpl.
  intros H. apply orb_false_iff in H as [H1 H2].
  apply Z.ltb_ge in H1.
  destruct (Z.ltb_spec b1 a1); [reflexivity|]. simpl.
  assert (a1 = b1) by lia. subst.
  rewrite Z.eqb_refl in *. simpl in *. apply Z.leb_gt in H2.
  apply Z.leb_le. lia.
Qed.

Lemma insert_keyed_sorted x l :
  Sorted keyed_le l -> Sorted keyed_le (insert_keyed x l).
Proof.
  induction 1 as [|y r Hs IH Hd]; simpl.
  - repeat constructor.
  - destruct (key_le (fst x) (fst y)) eqn:E.
    + constructor; [now constructor | now constructor].
    + constructor; [exact IH|].
      apply key_le_total in E.
      destruct r as [|z r]; simpl.
      * now constructor.
      * destruct (key_le (fst x) (fst z)); constructor; auto.
        now inversion Hd.
Qed.

Lemma sort_keyed_sorted l : Sorted keyed_le (sort_keyed l).
Proof.
  induction l as [|x r IH]; simpl; [constructor|].
  now apply insert_keyed_sorted.
Qed.

Lemma sorted_firstn {A : Type} (R : A -> A -> Prop) n l :
  Sorted R l -> Sorted R (List.firstn n l).
Proof.
  intros H. revert n. induction H as [|x l Hs IH Hd]; intros n.
  - destruct n; constructor.
  - destruct n; simpl; [constructor|].
    constructor; [apply IH|].
    destruct l; destruct n; simpl; constructor. now inversion Hd.
Qed.

Lemma sorted_map_snd keyed :
  List.Forall (fun kx => sort_key (snd kx) = Ok (fst kx)) keyed ->
  Sorted keyed_le keyed -> Sorted ranked_before (List.map snd keyed).
Proof.
  intros Hk Hs. induction Hs as [|x l Hs IH Hd]; simpl; [constructor|].
  inversion Hk as [|? ? Hx Hl]; subst.
  constructor; [now apply IH|].
  destruct l as [|y l]; simpl; constructor.
  inversion Hd; subst. inversion Hl; subst.
  exists (fst x), (fst y). auto.
Qed.

(** The parts of the ranking that hold: the selection has at most
    [max_files] entries, is sorted by descending priority and then
    descending size, and is drawn from the candidates. *)
Lemma analysis_targets_ranked (max_files : Z) (t : tree) (l : list target) :
  analysis_targets max_files t = Ok l ->
  length l <= Z.to_nat max_files
  /\ Sorted ranked_before l
  /\ (forall x, In x l -> In x (candidates max_files t)).
Proof.
  unfold analysis_targets.
  destruct (with_keys (candidates max_files t)) as [keyed|] eqn:E; [|discriminate].
  intros H; inversion H; subst; clear H.
  split; [|split].
  - rewrite List.length_firstn. lia.
  - apply sorted_firstn, sorted_map_snd.
    + pose proof (with_keys_keys _ _ E) as Hk.
      rewrite List.Forall_forall in *. intros kx Hin. apply Hk.
      eapply Permutation_in; [symmetry; apply sort_keyed_perm | exact Hin].
    + apply sort_keyed_sorted.
  - intros x Hin.
    assert (Hin' : In x (List.map snd (sort_keyed keyed))).
    { rewrite <- (List.firstn_skipn (Z.to_nat max_files)).
      apply List.in_or_app. now left. }
    rewrite <- (with_keys_map _ _ E).
    eapply Permutation_in; [|exact Hin'].
    apply Permutation_map. symmetry. apply sort_keyed_perm.
Qed.

(** *** Code structure *)

Section Structure.

Variable cfc : string -> string -> nat * nat.

Lemma account_length rel f content a :
  length (important_files (account cfc rel f content a))
  <= S (length (important_files a)).
Proof.
  unfold account. destruct (cfc _ _) as [fu cl]. simpl.
  destruct (is_important _ _); [rewrite List.length_app; simpl; lia | lia].
Qed.

Lemma analyze_file_length rel f a a' :
  analyze_file cfc rel f a = Ok a' ->
  length (important_files a')
  <= length (important_files a) + (if hidden (fname f) then 0 else 1).
Proof.
  unfold analyze_file.
  destruct (hidden (fname f)); [intros H; inversion H; lia|].
  destruct (negb _); [intros H; inversion H; lia|].
  destruct (fstat f) as [size|ex].
  - destruct (500 * 1024 <? size)%N; [intros H; inversion H; lia|].
    destruct (fread f) as [content|ex].
    + intros H; inversion H; subst. pose proof (account_length rel f content a). lia.
    + destruct (skipped_silently ex); intros H; inversion H; lia.
  - destruct (skipped_silently ex); intros H; inversion H; lia.
Qed.

Lemma analyze_files_length rel fs : forall a,
  length (important_files (fst (analyze_files cfc rel fs a)))
  <= length (important_files a) + visible_count fs.
Proof.
  induction fs as [|f fs IH]; intros a; simpl; [lia|].
  destruct (analyze_file cfc rel f a) as [a'|ex] eqn:E.
  - specialize (IH a'). apply analyze_file_length in E.
    unfold visible_count in *. simpl.
    destruct (hidden (fname f)); simpl in *; lia.
  - simpl. lia.
Qed.

Lemma visible_files_cons d w :
  length (visible_files (d :: w)) = visible_count (snd d) + length (visible_files w).
Proof.
  unfold visible_files, visits_of, visible_count. simpl.
  rewrite List.filter_app, List.length_app. f_equal.
  induction (snd d) as [|f fs IH]; simpl; [reflexivity|].
  destruct (hidden (fname f)); simpl; now rewrite IH.
Qed.

Lemma analyze_dirs_length w : forall a,
  length (important_files (fst (analyze_dirs cfc w a)))
  <= length (important_files a) + length (visible_files w).
Proof.
  induction w as [|d w IH]; intros a; simpl; [lia|].
  pose proof (analyze_files_length (fst d) (snd d) a) as Hd.
  rewrite visible_files_cons.
  destruct (analyze_files cfc (fst d) (snd d) a) as [a' [ex|]]; simpl in *; [lia|].
  destruct (50 <? length (important_files a'))%nat; simpl; [lia|].
  specialize (IH a'). lia.
Qed.

(** C3 (as amended).  The analysis of the code structure never lets an
    exception out: it returns its report and leaves the state of the tools,
    the error counter included, as it was.  A file whose size or content
    cannot be obtained because of a decoding, permission or other
    operating-system error is skipped silently: the analysis is unchanged,
    nothing is counted and no record mentions the file.  The records are at
    most as many as the visible files of the walk.  Only an exception that
    leaves a tool's operation as a whole is counted: [_safe_execute] turns
    it into an error message and adds one to the error counter. *)
Theorem unreadable_files_are_skipped_silently (t : tree) (st : tools) :
  (exists a warning,
      analyze_code_structure cfc t st = (Value (a, warning), st)
      /\ length (important_files a)
         <= length (visible_files (walk (keep_dir analysis_deny) [] t)))
  /\ (forall rel f a ex,
        skipped_silently ex = true ->
        fstat f = Raise ex \/ (exists size, fstat f = Ok size /\ fread f = Raise ex) ->
        analyze_file cfc rel f a = Ok a)
  /\ (forall func_name ex st0,
        exists r, _safe_execute (A := analysis * option exn) func_name (Raise ex) st0
                  = (r, count_error st0)
                  /\ forall a, r <> Value a).
Proof.
  split; [|split].
  - unfold analyze_code_structure, _safe_execute.
    pose proof (analyze_dirs_length (walk (keep_dir analysis_deny) [] t) empty_analysis) as H.
    destruct (analyze_dirs cfc _ empty_analysis) as [a w].
    exists a, w. split; [reflexivity | simpl in H; lia].
  - intros rel f a ex Hs H. unfold analyze_file.
    destruct (hidden (fname f)); [reflexivity|].
    destruct (negb _); [reflexivity|].
    destruct H as [-> | (size & -> & ->)].
    + now rewrite Hs.
    + destruct (500 * 1024 <? size)%N; [reflexivity | now rewrite Hs].
  - intros func_name ex st0. unfold _safe_execute.
    destruct (isinstance ex CPermissionError); [eexists; split; [reflexivity | discriminate]|].
    destruct (isinstance ex CFileNotFoundError); [eexists; split; [reflexivity | discriminate]|].
    destruct (isinstance ex CUnicodeDecodeError); eexists; split; try reflexivity; discriminate.
Qed.

End Structure.

Lemma unreadable_files_are_skipped_silently_witness :
  skipped_silently PermissionError = true
  /\ (exists size, fstat locked_file = Ok size /\ fread locked_file = Raise PermissionError)
  /\ analyze_file no_counts [] locked_file empty_analysis = Ok empty_analysis.
Proof.
  assert (Hs : skipped_silently PermissionError = true) by reflexivity.
  assert (Hf : exists size, fstat locked_file = Ok size
                            /\ fread locked_file = Raise PermissionError)
    by (exists 120%N; split; reflexivity).
  split; [exact Hs|]. split; [exact Hf|].
  exact (proj1 (proj2 (unreadable_files_are_skipped_silently no_counts locked_tree
                         fresh_tools))
           [] locked_file empty_analysis PermissionError Hs (or_intror Hf)).
Defined.

(** C3 as stated fails: a source file that cannot be read is visited, but
    the report holds no record of it and the error counter stays at 0. *)
Lemma locked_file_leaves_no_trace :
  length (visible_files (walk (keep_dir analysis_deny) [] locked_tree)) = 1
  /\ fread locked_file = Raise PermissionError
  /\ analyze_code_structure no_counts locked_tree fresh_tools
     = (Value (empty_analysis, None), fresh_tools)
  /\ length (important_files empty_analysis) = 0
  /\ error_count fresh_tools = 0.
Proof. repeat split. Qed.

(** *** The read cache *)

Section Cache.

Variable aca : string -> string -> string.

(** A cached path that still names a regular file is answered from the
    cache, whatever the file holds now. *)
Lemma file_read_hit fs repo file_path st r :
  file_cache st !! cache_key repo file_path = Some r ->
  e_exists (fs (cache_key repo file_path)) = Ok true ->
  e_is_file (fs (cache_key repo file_path)) = Ok true ->
  file_read aca fs repo file_path st = (Value r, st).
Proof.
  intros Hc He Hf. unfold file_read, file_read_operation.
  fold (cache_key repo file_path). now rewrite He, Hf, Hc.
Qed.

Lemma safe_execute_cache {A : Type} nm (op : result (A * tools)) st :
  file_cache (snd (_safe_execute nm op st)) =
  match op with
  | Ok (_, st') => file_cache st'
  | Raise _ => file_cache st
  end.
Proof.
  unfold _safe_execute. destruct op as [[a st']|ex]; [reflexivity|].
  destruct (isinstance ex CPermissionError); [reflexivity|].
  destruct (isinstance ex CFileNotFoundError); [reflexivity|].
  destruct (isinstance ex CUnicodeDecodeError); reflexivity.
Qed.

(** An entry of the cache is never changed or removed by a read. *)
Lemma file_read_keeps fs repo file_path st k r :
  file_cache st !! k = Some r ->
  file_cache (snd (file_read aca fs repo file_path st)) !! k = Some r.
Proof.
  intros Hk. unfold file_read. rewrite safe_execute_cache.
  unfold file_read_operation.
  destruct (e_exists _) as [[|]|ex]; [|exact Hk|exact Hk].
  destruct (e_is_file _) as [[|]|ex]; [|exact Hk|exact Hk].
  destruct (file_cache st !! cache_key repo file_path) as [c|] eqn:Hc; [exact Hk|].
  destruct (e_stat _) as [sz|ex].
  - destruct (300 * 1024 <? sz)%N; [exact Hk|].
    destruct (sz =? 0)%N; [exact Hk|].
    destruct (try_encodings _ _) as [[content enc]|]; [|exact Hk].
    destruct (Py.contains nul _); [exact Hk|].
    destruct (size (file_cache st) <? 30)%nat; [|exact Hk].
    cbn [snd file_cache]. rewrite lookup_insert_ne; [exact Hk|].
    intros <-. congruence.
  - destruct (isinstance ex COSError); exact Hk.
Qed.

Lemma reads_keep repo ops : forall st k r,
  file_cache st !! k = Some r -> file_cache (reads aca repo ops st) !! k = Some r.
Proof.
  induction ops as [|op ops IH]; intros st k r Hk; [exact Hk|].
  simpl. apply IH. now apply file_read_keeps.
Qed.

(** A report produced while the cache holds fewer than 30 entries is in
    the cache afterwards. *)
Lemma file_read_admits fs repo file_path st r st' :
  is_report r = true ->
  size (file_cache st) < 30 ->
  file_read aca fs repo file_path st = (Value r, st') ->
  file_cache st' !! cache_key repo file_path = Some r.
Proof.
  intros Hr Hsz.
  assert (Hmsg : forall ex : exn,
            _safe_execute "file_read" (Raise ex) st <> (Value r, st')).
  { intros ex. unfold _safe_execute.
    destruct (isinstance ex CPermissionError); [discriminate|].
    destruct (isinstance ex CFileNotFoundError); [discriminate|].
    destruct (isinstance ex CUnicodeDecodeError); discriminate. }
  unfold file_read, file_read_operation.
  destruct (e_exists _) as [[|]|ex];
    [|intros H; inversion H; subst; discriminate|intros H; now apply Hmsg in H].
  destruct (e_is_file _) as [[|]|ex];
    [|intros H; inversion H; subst; discriminate|intros H; now apply Hmsg in H].
  unfold _safe_execute.
  destruct (file_cache st !! cache_key repo file_path) as [c|] eqn:Hc.
  { intros H; inversion H; subst. exact Hc. }
  destruct (e_stat _) as [sz|ex].
  - destruct (300 * 1024 <? sz)%N; [intros H; inversion H; subst; discriminate|].
    destruct (sz =? 0)%N; [intros H; inversion H; subst; discriminate|].
    destruct (try_encodings _ _) as [[content enc]|];
      [|intros H; inversion H; subst; discriminate].
    destruct (Py.contains nul _); [intros H; inversion H; subst; discriminate|].
    destruct (Nat.ltb_spec (size (file_cache st)) 30) as [_|Hge]; [|lia].
    intros H; inversion H; subst. cbn [file_cache]. apply lookup_insert_eq.
  - destruct (isinstance ex COSError); [intros H; inversion H; subst; discriminate|].
    destruct (isinstance ex CPermissionError); [discriminate|].
    destruct (isinstance ex CFileNotFoundError); [discriminate|].
    destruct (isinstance ex CUnicodeDecodeError); discriminate.
Qed.

(** A report produced by a miss while the cache already holds 30 entries
    is not admitted. *)
Lemma file_read_full fs repo file_path st r st' :
  file_cache st !! cache_key repo file_path = None ->
  30 <= size (file_cache st) ->
  file_read aca fs repo file_path st = (Value r, st') ->
  st' = st.
Proof.
  intros Hc Hsz.
  assert (Hmsg : forall ex : exn,
            _safe_execute "file_read" (Raise ex) st <> (Value r, st')).
  { intros ex. unfold _safe_execute.
    destruct (isinstance ex CPermissionError); [discriminate|].
    destruct (isinstance ex CFileNotFoundError); [discriminate|].
    destruct (isinstance ex CUnicodeDecodeError); discriminate. }
  unfold file_read, file_read_operation. rewrite Hc.
  destruct (e_exists _) as [[|]|ex];
    [|intros H; now inversion H|intros H; now apply Hmsg in H].
  destruct (e_is_file _) as [[|]|ex];
    [|intros H; now inversion H|intros H; now apply Hmsg in H].
  unfold _safe_execute.
  destruct (e_stat _) as [sz|ex].
  - destruct (300 * 1024 <? sz)%N; [intros H; now inversion H|].
    destruct (sz =? 0)%N; [intros H; now inversion H|].
    destruct (try_encodings _ _) as [[content enc]|]; [|intros H; now inversion H].
    destruct (Py.contains nul _); [intros H; now inversion H|].
    destruct (Nat.ltb_spec (size (file_cache st)) 30) as [Hlt|_]; [lia|].
    intros H; now inversion H.
  - destruct (isinstance ex COSError); [intros H; now inversion H|].
    destruct (isinstance ex CPermissionError); [discriminate|].
    destruct (isinstance ex CFileNotFoundError); [discriminate|].
    destruct (isinstance ex CUnicodeDecodeError); discriminate.
Qed.

(** C10 (as amended).  Once [file_read] has produced a report for a path
    while the cache held fewer than 30 entries, every later [file_read] of
    that path, after any number of reads in between, returns that very
    report and leaves the state unchanged, whatever the file contains by
    then, provided the path still exists and is a regular file at the time
    of the later read. *)
Theorem cached_report_is_reused_while_the_file_exists
    (repo : Path) (file_path : string) (st st1 : tools) (r : file_reply)
    (fs1 fs2 : filesystem) (ops : list (filesystem * string)) :
  is_report r = true ->
  size (file_cache st) < 30 ->
  file_read aca fs1 repo file_path st = (Value r, st1) ->
  e_exists (fs2 (cache_key repo file_path)) = Ok true ->
  e_is_file (fs2 (cache_key repo file_path)) = Ok true ->
  file_read aca fs2 repo file_path (reads aca repo ops st1)
  = (Value r, reads aca repo ops st1).
Proof.
  intros Hr Hsz H1 He Hf.
  apply file_read_hit; auto.
  apply reads_keep. eapply file_read_admits; eauto.
Qed.

End Cache.

Lemma cached_report_is_reused_while_the_file_exists_witness :
  is_report first_report = true
  /\ size (file_cache fresh_tools) < 30
  /\ file_read no_comment disk_first repo_dir "notes.txt" fresh_tools
     = (Value first_report, after_first_read)
  /\ e_exists (disk_edited (cache_key repo_dir "notes.txt")) = Ok true
  /\ e_is_file (disk_edited (cache_key repo_dir "notes.txt")) = Ok true
  /\ file_read no_comment disk_edited repo_dir "notes.txt"
       (reads no_comment repo_dir [(disk_edited, "README.md")] after_first_read)
     = (Value first_report,
        reads no_comment repo_dir [(disk_edited, "README.md")] after_first_read).
Proof.
  assert (H0 : is_report first_report = true) by reflexivity.
  assert (H1 : size (file_cache fresh_tools) < 30) by (vm_compute; lia).
  assert (H2 : file_read no_comment disk_first repo_dir "notes.txt" fresh_tools
               = (Value first_report, after_first_read)) by (vm_compute; reflexivity).
  assert (H3 : e_exists (disk_edited (cache_key repo_dir "notes.txt")) = Ok true)
    by reflexivity.
  assert (H4 : e_is_file (disk_edited (cache_key repo_dir "notes.txt")) = Ok true)
    by reflexivity.
  repeat (split; [assumption|]).
  exact (cached_report_is_reused_while_the_file_exists no_comment repo_dir "notes.txt"
           fresh_tools after_first_read first_report disk_first disk_edited
           [(disk_edited, "README.md")] H0 H1 H2 H3 H4).
Defined.

(** C10 as stated fails: the existence of the file is tested before the
    cache is consulted, so once the file is deleted a read of the cached
    path answers that the file is not found. *)
Lemma deleted_file_is_not_served_from_cache :
  file_read no_comment disk_first repo_dir "notes.txt" fresh_tools
  = (Value first_report, after_first_read)
  /\ file_cache after_first_read !! cache_key repo_dir "notes.txt" = Some first_report
  /\ file_read no_comment disk_deleted repo_dir "notes.txt" after_first_read
     = (Value (FileNotFound "notes.txt"), after_first_read).
Proof.
  split; [vm_compute; reflexivity|]. split; [vm_compute; reflexivity|].
  vm_compute; reflexivity.
Qed.

End ClassifierFacts.

(** ** The acquirer, continued *)

Module AcquirerMore.
Import Samples.

Import Pathlib Acquirer Spec Scenario Vocabulary PyFacts AcquirerFacts.

(** *** A successful run *)

Lemma verdict_cloned r :
  verdict_of r = Cloned -> exists stderr, r = Ok (0%Z, stderr).
Proof.
  unfold verdict_of. destruct r as [[rc err]|ex]; [|discriminate].
  destruct (Z.eqb_spec rc 0) as [->|]; [eauto|].
  destruct (Py.contains _ _); [discriminate|].
  destruct (_ || _ || _ || _); discriminate.
Qed.

Lemma copy_run_success e url target k tr c :
  copy_run e url target k tr c ->
  forall ok, (c = Next ok \/ c = Break ok) -> ok = true ->
  exists j stderr, k <= j < 3
    /\ git_result (git_of e j) = Ok (0%Z, stderr)
    /\ In (attempt url target j) tr.
Proof.
  induction 1 as [ | k Hk Hv | k Hk Hv | k tr c Hk Hv H IH | Hv | k tr c Hk Hv H IH
                 | k tr c Hk Hv H IH | tr c Hv H IH ]; intros ok Hc Hok; subst ok;
    try (destruct Hc as [Hc|Hc]; discriminate Hc);
    try (destruct (IH true Hc eq_refl) as (j & err & Hj & Hg & Hin);
         exists j, err; split; [lia|]; split; [exact Hg|]).
  - apply verdict_cloned in Hv as [err Hv].
    exists k, err. split; [lia|]. split; [exact Hv | now left].
  - now right.
  - right. apply List.in_or_app. now right.
  - right. now right.
  - now right.
Qed.

Lemma copy_run_return e url target k tr c :
  copy_run e url target k tr c -> forall b, c = Return b -> b = false.
Proof.
  induction 1; intros b Hb; try discriminate Hb; try (inversion Hb; reflexivity);
    eauto.
Qed.

Lemma cleanup_return e target t b : cleanup e target = (t, Return b) -> b = false.
Proof.
  unfold cleanup. destruct (target_exists e); [|discriminate].
  pose proof (cleanup_loop_never_returns e target [0; 1; 2] true) as Hr.
  destruct (for_each (cleanup_body e target) [0; 1; 2] true) as [t' c]. simpl in Hr.
  destruct c as [p|p|b'].
  - destruct p; [destruct (rename_aside e)|]; intros H; inversion H; reflexivity.
  - destruct p; [destruct (rename_aside e)|]; intros H; inversion H; reflexivity.
  - exfalso. now apply (Hr b').
Qed.

(** X1.  A run that returns success has passed every gate and check: the
    reference was accepted, the host answered 200, the existence probe let
    the run through, one of the at most three git commands exited with
    code 0, and afterwards the target exists, is a directory and is not
    empty. *)
Theorem success_means_a_checked_copy (e : env) (url : string) (tr : list event) :
  clone_repository e url = (tr, Returned true) ->
  _validate_github_url url = true
  /\ host_probe e = Ok 200%N
  /\ _check_repository_exists (repo_request e) (repo_probe e) = true
  /\ (exists j stderr, j < 3
        /\ git_result (git_of e j) = Ok (0%Z, stderr)
        /\ In (attempt url (repo_path (cwd e) url) j) tr)
  /\ post_exists e = true
  /\ post_is_dir e = true
  /\ exists n, post_items e = Ok n /\ 0 < n.
Proof.
  unfold clone_repository.
  destruct (_validate_github_url url); simpl negb; cbv iota; [|discriminate].
  destruct (_check_github_connectivity (host_probe e)) eqn:Hh; simpl negb; cbv iota;
    [|discriminate].
  destruct (_check_repository_exists _ _); simpl negb; cbv iota; [|discriminate].
  destruct (mkdir_workdir e); [|discriminate].
  destruct (cleanup e _) as [t2 c2] eqn:Hcl.
  pose proof (clone_loop_run e url (repo_path (cwd e) url)) as Hrun.
  assert (Hhost : host_probe e = Ok 200%N).
  { unfold _check_github_connectivity in Hh. destruct (host_probe e); [|discriminate].
    apply N.eqb_eq in Hh. now subst. }
  assert (G : forall t3 c3 ok,
    copy_run e url (repo_path (cwd e) url) 0 t3 c3 ->
    (c3 = Next ok \/ c3 = Break ok) ->
    (if negb ok
     then ((((ProbeHost :: probe_events e url) ++ [Mkdir (workdir (cwd e))]) ++ t2 ++ t3),
           Returned false)
     else let '(t4, b) := post_checks e (repo_path (cwd e) url) in
          ((((ProbeHost :: probe_events e url) ++ [Mkdir (workdir (cwd e))])
              ++ t2 ++ t3 ++ t4), Returned b)) = (tr, Returned true) ->
    true = true /\ host_probe e = Ok 200%N /\ true = true
    /\ (exists j stderr, j < 3 /\ git_result (git_of e j) = Ok (0%Z, stderr)
          /\ In (attempt url (repo_path (cwd e) url) j) tr)
    /\ post_exists e = true /\ post_is_dir e = true
    /\ exists n, post_items e = Ok n /\ 0 < n).
  { intros t3 c3 ok Hr Hc. destruct ok; simpl negb; cbv iota; [|discriminate].
    destruct (copy_run_success _ _ _ _ _ _ Hr true Hc eq_refl) as (j & err & Hj & Hg & Hin).
    unfold post_checks.
    destruct (post_exists e); simpl negb; cbv iota; [|discriminate].
    destruct (post_is_dir e); simpl negb; cbv iota; [|discriminate].
    destruct (post_items e) as [n|ex]; [|discriminate].
    intros H. inversion H as [[Ht Hb]]. 
    repeat split; auto.
    - exists j, err. split; [lia|]. split; [exact Hg|].
      clear -Hin. right. rewrite !List.in_app_iff. tauto.
    - exists n. split; [reflexivity|].
      destruct n; [discriminate Hb | lia]. }
  destruct c2 as [p|p|b].
  3:{ apply cleanup_return in Hcl. subst b. discriminate. }
  all: destruct (clone_loop e url _) as [t3 c3]; simpl in Hrun;
    destruct c3 as [ok|ok|b];
    try (eapply G; now eauto);
    pose proof (copy_run_return _ _ _ _ _ _ Hrun b eq_refl); subst b; discriminate.
Qed.

Lemma success_means_a_checked_copy_witness :
  clone_repository calm hello_url
  = ([ProbeHost; ProbeRepository hello_url; Mkdir ["srv"; "workdir"];
      attempt hello_url hello_target 0; ListDir hello_target], Returned true)
  /\ host_probe calm = Ok 200%N
  /\ post_exists calm = true.
Proof.
  assert (H : clone_repository calm hello_url
              = ([ProbeHost; ProbeRepository hello_url; Mkdir ["srv"; "workdir"];
                  attempt hello_url hello_target 0; ListDir hello_target],
                 Returned true)) by reflexivity.
  split; [exact H|].
  pose proof (success_means_a_checked_copy calm hello_url _ H) as G.
  split; [apply G | apply G].
Defined.

(** *** Sleeping *)

Lemma sleep_total_app a b : sleep_total (a ++ b) = (sleep_total a + sleep_total b)%N.
Proof.
  induction a as [|ev a IH]; simpl; [reflexivity|].
  destruct ev; rewrite ?IH; lia.
Qed.

Lemma chmod_contents_no_sleep t : forall p, sleep_total (chmod_contents p t) = 0%N.
Proof.
  induction t as [nm fs ds IH] using tree_nested_ind. intros p. simpl.
  rewrite !sleep_total_app.
  assert (H1 : sleep_total
                 (List.flat_map (fun d => chmod_contents (p ++ [dname d]) d) ds) = 0%N).
  { induction IH as [|d ds Hd Hds IHds]; simpl; [reflexivity|].
    rewrite sleep_total_app, Hd, IHds. reflexivity. }
  assert (H2 : forall (A : Type) (f : A -> Path) (l : list A),
             sleep_total (List.map (fun x => Chmod (f x) 511) l) = 0%N).
  { intros A f l. induction l; simpl; auto. }
  rewrite H1, (H2 _ (fun f => p ++ [fname f])), (H2 _ (fun d => p ++ [dname d])).
  reflexivity.
Qed.

Lemma removal_command_no_sleep e target k :
  sleep_total (removal_command e target k) = 0%N.
Proof.
  destruct k as [|[|k]]; simpl; [reflexivity| |destruct (os_nt e); reflexivity].
  unfold _force_remove_directory. rewrite sleep_total_app, chmod_contents_no_sleep.
  reflexivity.
Qed.

Lemma removal_run_sleep e target k tr p :
  removal_run e target k tr p -> (sleep_total tr <= N.of_nat (2 - k))%N.
Proof.
  induction 1 as [ | k Hk Hr He | k ex Hk Hr He | k tr p Hk Hr H IH ];
    rewrite ?sleep_total_app, ?removal_command_no_sleep.
  - simpl. lia.
  - lia.
  - unfold pause. destruct (Nat.ltb_spec k 2); simpl; lia.
  - unfold pause. destruct (Nat.ltb_spec k 2); simpl sleep_total; lia.
Qed.

Lemma cleanup_sleep e target : (sleep_total (fst (cleanup e target)) <= 2)%N.
Proof.
  unfold cleanup. destruct (target_exists e); [|simpl; lia].
  pose proof (removal_loop_run e target) as Hrun.
  apply removal_run_sleep in Hrun. change (N.of_nat (2 - 0)) with 2%N in Hrun.
  destruct (for_each (cleanup_body e target) [0; 1; 2] true) as [t c].
  simpl fst in Hrun.
  destruct c as [p|p|b]; [| |exact Hrun];
    (destruct p; [destruct (rename_aside e)|]; simpl fst;
     rewrite ?sleep_total_app; simpl sleep_total; lia).
Qed.


Lemma tidy_sleep e target k : (sleep_total (tidy e target k) <= 2)%N.
Proof. unfold tidy. destruct (dir_left _); simpl; lia. Qed.

Lemma copy_run_sleep e url target k tr c :
  copy_run e url target k tr c -> (sleep_total tr <= copy_budget k)%N.
Proof.
  induction 1 as [ | k Hk Hv | k Hk Hv | k tr c Hk Hv H IH | Hv | k tr c Hk Hv H IH
                 | k tr c Hk Hv H IH | tr c Hv H IH ].
  - simpl. lia.
  - destruct k as [|[|[|k]]]; simpl; lia.
  - destruct k as [|[|[|k]]]; simpl; lia.
  - destruct k as [|[|k]]; simpl in *; lia.
  - simpl. lia.
  - change (attempt url target k :: tidy e target k ++ tr)
      with ([attempt url target k] ++ tidy e target k ++ tr).
    rewrite !sleep_total_app. pose proof (tidy_sleep e target k).
    destruct k as [|[|[|k]]]; simpl in *; lia.
  - destruct k as [|[|k]]; simpl in *; lia.
  - simpl in *. lia.
Qed.

Lemma post_checks_no_sleep e target : sleep_total (fst (post_checks e target)) = 0%N.
Proof.
  unfold post_checks.
  destruct (negb (post_exists e)); [reflexivity|].
  destruct (negb (post_is_dir e)); [reflexivity|].
  destruct (post_items e); reflexivity.
Qed.

(** X2.  Whatever the environment does, a run sleeps at most 13 seconds in
    total: at most 2 while removing a stale copy and at most 11 between the
    attempts of the copy.  Some run does sleep 13 seconds. *)
Theorem a_run_sleeps_at_most_13_seconds :
  (forall e url,
     (sleep_total (fst (clone_repository e url)) <= 13)%N
     /\ (sleep_total (fst (cleanup e (repo_path (cwd e) url))) <= 2)%N
     /\ (sleep_total (fst (clone_loop e url (repo_path (cwd e) url))) <= 11)%N)
  /\ exists e url, sleep_total (fst (clone_repository e url)) = 13%N.
Proof.
  split; [|exists worst_case, hello_url; vm_compute; reflexivity].
  intros e url.
  pose proof (cleanup_sleep e (repo_path (cwd e) url)) as Hc.
  pose proof (copy_run_sleep _ _ _ _ _ _ (clone_loop_run e url (repo_path (cwd e) url)))
    as Hl.
  pose proof (post_checks_no_sleep e (repo_path (cwd e) url)) as Hp.
  simpl copy_budget in Hl.
  split; [|split; assumption].
  unfold clone_repository.
  destruct (negb (_validate_github_url url)); [simpl; lia|].
  destruct (negb (_check_github_connectivity _)); [simpl; lia|].
  assert (H0 : sleep_total (ProbeHost :: probe_events e url) = 0%N).
  { unfold probe_events. destruct (repo_request e); reflexivity. }
  destruct (negb (_check_repository_exists _ _)); [simpl fst; lia|].
  assert (H1 : sleep_total ((ProbeHost :: probe_events e url) ++ [Mkdir (workdir (cwd e))])
               = 0%N).
  { rewrite sleep_total_app, H0. reflexivity. }
  set (t1 := (ProbeHost :: probe_events e url) ++ [Mkdir (workdir (cwd e))]) in *.
  clearbody t1.
  destruct (mkdir_workdir e); [|simpl fst; lia].
  destruct (cleanup e _) as [t2 c2]. simpl fst in Hc.
  destruct (clone_loop e url _) as [t3 c3]. simpl fst in Hl.
  destruct (post_checks e _) as [t4 b4]. simpl fst in Hp.
  destruct c2 as [p|p|b]; [| |cbn; rewrite sleep_total_app; lia];
    (destruct c3 as [ok|ok|b]; [| |cbn; rewrite !sleep_total_app; lia];
     (destruct ok; cbn; rewrite !sleep_total_app; lia)).
Qed.

(** *** What a run touches *)

Section Confined.

Variables (e : env) (url : string).

Local Abbreviation base := (workdir (cwd e)).
Local Abbreviation target := (repo_path (cwd e) url).
Local Abbreviation backup := (backup_path e (repo_path (cwd e) url)).









End Confined.

End AcquirerMore.

Module NameFacts.

Import Pathlib Acquirer Spec Scenario Vocabulary PyFacts AcquirerFacts.

Lemma contains_false_cons p c r :
  Py.contains p (String c r) = false ->
  String.prefix p (String c r) = false /\ Py.contains p r = false.
Proof. rewrite contains_cons. apply orb_false_iff. Qed.

Lemma replace_from_here old new c r :
  Py.replace_from old new 0 (String c r) =
  if String.prefix old (String c r)
  then new +:+ Py.replace_from old new (String.length old - 1) r
  else String c (Py.replace_from old new 0 r).
Proof. reflexivity. Qed.


(** A string without an occurrence of [old] is left as it is. *)
Lemma replace_from_absent old new s :
  Py.contains old s = false -> Py.replace_from old new 0 s = s.
Proof.
  induction s as [|c r IH]; [reflexivity|].
  intros H. apply contains_false_cons in H as [Hp Hr].
  rewrite replace_from_here, Hp. f_equal. apply IH, Hr.
Qed.

Lemma prefix_app p x y :
  String.length p <= String.length x -> String.prefix p (x +:+ y) = String.prefix p x.
Proof.
  revert x. induction p as [|a p IH]; intros x Hl.
  - destruct x; [destruct y|]; reflexivity.
  - destruct x as [|b x]; [simpl in Hl; lia|].
    rewrite str_app_cons.
    change (String.prefix (String a p) (String b (x +:+ y)))
      with (if ascii_dec a b then String.prefix p (x +:+ y) else false).
    change (String.prefix (String a p) (String b x))
      with (if ascii_dec a b then String.prefix p x else false).
    destruct (ascii_dec a b); [|reflexivity].
    apply IH. simpl in Hl. lia.
Qed.

Lemma length_app a b : String.length (a +:+ b) = String.length a + String.length b.
Proof.
  induction a as [|c a IH]; [reflexivity|]. rewrite str_app_cons. simpl. now rewrite IH.
Qed.

Lemma replace_git_suffix base :
  Py.contains ".git" (base +:+ ".gi") = false ->
  Py.replace ".git" "" (base +:+ ".git") = base.
Proof.
  unfold Py.replace. simpl String.eqb. cbv iota.
  induction base as [|c b IH]; [reflexivity|].
  rewrite !str_app_cons. intros H. apply contains_false_cons in H as [Hp Hr].
  assert (Hp' : String.prefix ".git" (String c (b +:+ ".git")) = false).
  { replace (String c (b +:+ ".git")) with (String c (b +:+ ".gi") +:+ "t").
    - rewrite prefix_app; [exact Hp|]. simpl. rewrite length_app. simpl. lia.
    - rewrite str_app_cons, str_app_assoc. reflexivity. }
  rewrite replace_from_here, Hp'. f_equal. apply IH, Hr.
Qed.

(** No character of the separator is left in a segment of [split]. *)
Lemma split_lacks sep s : List.Forall (fun x => lacks sep x = true) (Py.split sep s).
Proof.
  induction s as [|c r IH]; [repeat constructor|].
  simpl. destruct (Ascii.eqb c sep) eqn:E.
  - constructor; [reflexivity | exact IH].
  - destruct (Py.split sep r) as [|h t].
    + apply List.Forall_cons; [|apply List.Forall_nil].
      unfold lacks. simpl. now rewrite E.
    + inversion IH as [|? ? Hh Ht]; subst.
      apply List.Forall_cons; [|exact Ht].
      unfold lacks in *. simpl. now rewrite E.
Qed.



Lemma split_whole sep s : lacks sep s = true -> Py.split sep s = [s].
Proof.
  unfold lacks. induction s as [|c r IH]; [reflexivity|].
  simpl. intros H. apply andb_true_iff in H as [Hc Hr].
  apply negb_true_iff in Hc. rewrite Hc, (IH Hr). reflexivity.
Qed.



(** X5.  When the last segment of the reference holds no [.git], the local
    directory is named by that segment unchanged; when [.git] occurs in it
    only as its suffix, the name is the segment without the suffix. *)
Theorem repo_name_of_a_plain_segment (url : string) :
  (Py.contains ".git" (Py.last_item (Py.split "/" url)) = false ->
   repo_name url = Py.last_item (Py.split "/" url))
  /\ (forall stem,
        Py.last_item (Py.split "/" url) = stem +:+ ".git" ->
        Py.contains ".git" (stem +:+ ".gi") = false ->
        repo_name url = stem).
Proof.
  split.
  - intros H. unfold repo_name, Py.replace. simpl String.eqb. cbv iota.
    now apply replace_from_absent.
  - intros stem Hs Hc. unfold repo_name. rewrite Hs. now apply replace_git_suffix.
Qed.

Lemma repo_name_of_a_plain_segment_witness :
  Py.contains ".git" (Py.last_item (Py.split "/" hello_url)) = false
  /\ repo_name hello_url = "hello"
  /\ Py.last_item (Py.split "/" "https://github.com/octocat/hello.git") = "hello" +:+ ".git"
  /\ Py.contains ".git" ("hello" +:+ ".gi") = false
  /\ repo_name "https://github.com/octocat/hello.git" = "hello".
Proof.
  assert (H1 : Py.contains ".git" (Py.last_item (Py.split "/" hello_url)) = false)
    by reflexivity.
  assert (H2 : Py.last_item (Py.split "/" "https://github.com/octocat/hello.git")
               = "hello" +:+ ".git") by reflexivity.
  assert (H3 : Py.contains ".git" ("hello" +:+ ".gi") = false) by reflexivity.
  split; [exact H1|].
  split; [exact (proj1 (repo_name_of_a_plain_segment hello_url) H1)|].
  split; [exact H2|]. split; [exact H3|].
  exact (proj2 (repo_name_of_a_plain_segment "https://github.com/octocat/hello.git")
           "hello" H2 H3).
Defined.

End NameFacts.

(** ** The classifier, continued *)

Module SelectionFacts.

Import Pathlib Classifier Spec Scenario Vocabulary PyFacts AcquirerFacts ClassifierFacts ClassifierTerms.

(** *** Pruning *)

Lemma walk_kept keep t : forall rel d,
  In d (walk keep rel t) ->
  exists rest, fst d = rel ++ rest /\ List.forallb keep rest = true.
Proof.
  induction t as [nm fs ds IH] using tree_nested_ind. intros rel d Hin.
  simpl in Hin. destruct Hin as [<-|Hin].
  - exists []. split; [now rewrite List.app_nil_r | reflexivity].
  - apply List.in_flat_map in Hin as (sub & Hsub & Hin).
    destruct (keep (dname sub)) eqn:Hk; [|destruct Hin].
    rewrite List.Forall_forall in IH.
    destruct (IH sub Hsub _ _ Hin) as (rest & -> & Hr).
    exists (dname sub :: rest). split; [now rewrite <- List.app_assoc|].
    simpl. now rewrite Hk, Hr.
Qed.

Lemma in_firstn {A : Type} n (l : list A) x : In x (List.firstn n l) -> In x l.
Proof.
  intros H. rewrite <- (List.firstn_skipn n l). apply List.in_or_app. now left.
Qed.

Lemma visits_of_in w rel f :
  In (rel, f) (visits_of w) <-> exists d, In d w /\ fst d = rel /\ In f (snd d).
Proof.
  unfold visits_of. rewrite List.in_flat_map. split.
  - intros (d & Hd & Hin). apply List.in_map_iff in Hin as (f' & E & Hf).
    inversion E; subst. eauto.
  - intros (d & Hd & <- & Hf). exists d. split; [exact Hd|].
    apply List.in_map_iff. eauto.
Qed.


(** *** Candidates *)

Lemma collect_file_spec max_files acc v :
  collect_file max_files acc v =
  if qualifies v && (length acc <? Z.to_nat (max_files * 2))%nat
  then acc ++ [target_of v] else acc.
Proof.
  unfold collect_file, qualifies, target_of.
  destruct (hidden (fname (snd v))); [reflexivity|].
  destruct (criteria (snd v)) as [sa pr]. simpl.
  destruct sa; [|reflexivity]. simpl.
  destruct (Z.ltb_spec (Z.of_nat (length acc)) (max_files * 2));
    destruct (Nat.ltb_spec (length acc) (Z.to_nat (max_files * 2)));
    try reflexivity; lia.
Qed.

Lemma collect_fold max_files vs : forall acc,
  List.fold_left (collect_file max_files) vs acc =
  acc ++ List.firstn (Z.to_nat (max_files * 2) - length acc)
           (List.map target_of (List.filter qualifies vs)).
Proof.
  induction vs as [|v vs IH]; intros acc.
  - simpl. rewrite List.firstn_nil. now rewrite List.app_nil_r.
  - simpl List.fold_left. rewrite IH, collect_file_spec. simpl List.filter.
    destruct (qualifies v); simpl andb; [|reflexivity].
    destruct (Nat.ltb_spec (length acc) (Z.to_nat (max_files * 2))).
    + rewrite List.length_app. simpl length. simpl List.map.
      replace (Z.to_nat (max_files * 2) - length acc)
        with (S (Z.to_nat (max_files * 2) - (length acc + 1))) by lia.
      simpl. now rewrite <- List.app_assoc.
    + replace (Z.to_nat (max_files * 2) - length acc) with 0 by lia.
      reflexivity.
Qed.

Lemma criteria_priority f :
  fst (criteria f) = true -> snd (criteria f) = 10%Z \/ snd (criteria f) = 5%Z.
Proof.
  unfold criteria.
  destruct (List.existsb _ _); [now left|].
  destruct (mem _ _); [|discriminate].
  destruct (fstat f) as [size|]; [|discriminate].
  destruct (1000 <? size)%N; [now right | discriminate].
Qed.

(** X7.  The files considered for the detailed analysis are exactly the
    first [2 * max_files] files of the walk that are not hidden and meet a
    criterion; a file met later is never considered, whatever its
    priority.  Each of them has priority 10 or 5. *)
Theorem candidates_are_the_first_qualifying_files (max_files : Z) (t : tree) :
  candidates max_files t
  = List.firstn (Z.to_nat (max_files * 2))
      (List.map target_of
         (List.filter qualifies (visits_of (walk (keep_dir rank_deny) [] t))))
  /\ forall x, In x (candidates max_files t) ->
       hidden (fname (t_file x)) = false
       /\ (t_priority x = 10%Z \/ t_priority x = 5%Z).
Proof.
  assert (E : candidates max_files t
    = List.firstn (Z.to_nat (max_files * 2))
        (List.map target_of
           (List.filter qualifies (visits_of (walk (keep_dir rank_deny) [] t))))).
  { unfold candidates. rewrite collect_fold. simpl. now rewrite Nat.sub_0_r. }
  split; [exact E|].
  intros x Hx. rewrite E in Hx. apply in_firstn in Hx.
  apply List.in_map_iff in Hx as (v & <- & Hv).
  apply List.filter_In in Hv as [_ Hq].
  unfold qualifies in Hq. apply andb_true_iff in Hq as [Hh Hc].
  apply negb_true_iff in Hh. split; [exact Hh|].
  now apply criteria_priority.
Qed.

Import Samples.


End SelectionFacts.

Module RankingFacts.

Import Pathlib Classifier Spec Scenario Vocabulary PyFacts AcquirerFacts ClassifierFacts ClassifierTerms.
Import SelectionFacts.

(** *** The selection *)

Lemma with_keys_raise l ex :
  with_keys l = Raise ex -> exists x, In x l /\ sort_key x = Raise ex.
Proof.
  induction l as [|x r IH]; simpl; [discriminate|].
  destruct (sort_key x) as [k|ex'] eqn:Ek.
  - destruct (with_keys r) as [kr|ex'']; [discriminate|].
    intros H; inversion H; subst.
    destruct (IH eq_refl) as (y & Hy & Ey). exists y. split; [now right | exact Ey].
  - intros H; inversion H; subst. exists x. split; [now left | exact Ek].
Qed.

Lemma analysis_targets_cases (max_files : Z) (t : tree) :
  (forall l, analysis_targets max_files t = Ok l ->
     length l <= Z.to_nat max_files
     /\ exists rest,
          Permutation (l ++ rest) (candidates max_files t)
          /\ Sorted ranked_before (l ++ rest))
  /\ (forall ex, analysis_targets max_files t = Raise ex ->
        exists x, In x (candidates max_files t)
                  /\ fexists (t_file x) = true /\ fstat (t_file x) = Raise ex).
Proof.
  unfold analysis_targets. split.
  - intros l. destruct (with_keys (candidates max_files t)) as [keyed|] eqn:E;
      [|discriminate].
    intros H; inversion H; subst; clear H.
    split; [rewrite List.length_firstn; lia|].
    exists (List.skipn (Z.to_nat max_files) (List.map snd (sort_keyed keyed))).
    rewrite List.firstn_skipn. split.
    + rewrite <- (with_keys_map _ _ E). apply Permutation_map.
      symmetry. apply sort_keyed_perm.
    + apply sorted_map_snd; [|apply sort_keyed_sorted].
      pose proof (with_keys_keys _ _ E) as Hk.
      rewrite List.Forall_forall in *. intros kx Hin. apply Hk.
      eapply Permutation_in; [symmetry; apply sort_keyed_perm | exact Hin].
  - intros ex. destruct (with_keys (candidates max_files t)) as [keyed|ex'] eqn:E;
      [discriminate|].
    intros H; inversion H; subst.
    destruct (with_keys_raise _ _ E) as (x & Hx & Ex).
    exists x. split; [exact Hx|].
    unfold sort_key in Ex. destruct (fexists (t_file x)); [|discriminate].
    destruct (fstat (t_file x)); [discriminate|]. inversion Ex. auto.
Qed.

(** X8.  When no size fails to be read, the selection is the front of the
    candidates sorted by descending priority and then descending size: it
    has at most [max_files] entries and, together with the candidates left
    out, forms a sorted rearrangement of the candidates.  The selection
    fails only when the size of an existing candidate cannot be read. *)
Theorem selection_is_the_front_of_the_sorted_candidates (max_files : Z) (t : tree) :
  match analysis_targets max_files t with
  | Ok l =>
      length l <= Z.to_nat max_files
      /\ exists rest,
           Permutation (l ++ rest) (candidates max_files t)
           /\ Sorted ranked_before (l ++ rest)
  | Raise ex =>
      exists x, In x (candidates max_files t)
                /\ fexists (t_file x) = true /\ fstat (t_file x) = Raise ex
  end.
Proof.
  destruct (analysis_targets_cases max_files t) as [Hok Hraise].
  destruct (analysis_targets max_files t) as [l|ex]; [now apply Hok | now apply Hraise].
Qed.

(** *** The report on the code structure *)

Section Totals.

Variable cfc : string -> string -> nat * nat.

Lemma stat_sum_insert proj (m : gmap string lang_stats) k new :
  stat_sum proj (<[k := new]> m) + match m !! k with Some o => proj o | None => 0 end
  = stat_sum proj m + proj new.
Proof.
  unfold stat_sum.
  assert (Hcomm : forall (m' : gmap string lang_stats) (j1 j2 : string) z1 z2 (y : nat),
            j1 <> j2 -> m' !! j1 = Some z1 -> m' !! j2 = Some z2 ->
            proj z1 + (proj z2 + y) = proj z2 + (proj z1 + y)) by (intros; lia).
  destruct (m !! k) as [o|] eqn:E.
  - rewrite (map_fold_delete_L _ 0 k o m (Hcomm m) E).
    rewrite <- (insert_delete_eq m k new).
    rewrite (map_fold_insert_L _ 0 k new (delete k m)); [lia | apply Hcomm |].
    apply lookup_delete_eq.
  - rewrite (map_fold_insert_L _ 0 k new m); [lia | apply Hcomm | exact E].
Qed.

Lemma account_consistent rel f content a :
  consistent a -> consistent (account cfc rel f content a).
Proof.
  intros (Hl & Hf & Hc & Hi). unfold consistent, account.
  destruct (cfc content _) as [funcs classes]. simpl.
  set (lang := _get_language (Py.lower (suffix_of_name (fname f)))) in *.
  set (new := {| ls_files := _; ls_lines := _; ls_functions := _; ls_classes := _ |}).
  pose proof (stat_sum_insert ls_lines (language_stats a) lang new) as E1.
  pose proof (stat_sum_insert ls_functions (language_stats a) lang new) as E2.
  pose proof (stat_sum_insert ls_classes (language_stats a) lang new) as E3.
  pose proof (stat_sum_insert ls_files (language_stats a) lang new) as E4.
  subst new. simpl in E1, E2, E3, E4.
  destruct (language_stats a !! lang) as [o|]; simpl in *;
    (repeat split; try lia;
     destruct (is_important _ _); rewrite ?List.length_app; simpl; lia).
Qed.

Lemma analyze_file_consistent rel f a a' :
  consistent a -> analyze_file cfc rel f a = Ok a' -> consistent a'.
Proof.
  intros Ha. unfold analyze_file.
  destruct (hidden (fname f)); [intros H; inversion H; now subst|].
  destruct (negb _); [intros H; inversion H; now subst|].
  destruct (fstat f) as [size|ex].
  - destruct (500 * 1024 <? size)%N; [intros H; inversion H; now subst|].
    destruct (fread f) as [content|ex].
    + intros H; inversion H; subst. now apply account_consistent.
    + destruct (skipped_silently ex); intros H; inversion H; now subst.
  - destruct (skipped_silently ex); intros H; inversion H; now subst.
Qed.

Lemma analyze_files_consistent rel fs : forall a,
  consistent a -> consistent (fst (analyze_files cfc rel fs a)).
Proof.
  induction fs as [|f fs IH]; intros a Ha; simpl; [exact Ha|].
  destruct (analyze_file cfc rel f a) as [a'|ex] eqn:E; [|exact Ha].
  apply IH. eapply analyze_file_consistent; eauto.
Qed.

Lemma analyze_dirs_consistent w : forall a,
  consistent a -> consistent (fst (analyze_dirs cfc w a)).
Proof.
  induction w as [|d w IH]; intros a Ha; simpl; [exact Ha|].
  pose proof (analyze_files_consistent (fst d) (snd d) a Ha) as Hd.
  destruct (analyze_files cfc (fst d) (snd d) a) as [a' [ex|]]; simpl in *; [exact Hd|].
  destruct (50 <? length (important_files a'))%nat; simpl; [exact Hd|].
  now apply IH.
Qed.

Lemma empty_consistent : consistent empty_analysis.
Proof.
  unfold consistent, stat_sum, empty_analysis. simpl.
  rewrite !map_fold_empty. repeat split; lia.
Qed.

(** X9.  The totals of the report on the code structure always agree with
    its table of languages, also when the walk stopped early or was cut
    short by an exception: the lines, functions and classes are the sums of
    the per-language figures, and no more important files are listed than
    files were counted. *)
Theorem report_totals_agree_with_the_language_table (t : tree) (st : tools) :
  exists a warning,
    analyze_code_structure cfc t st = (Value (a, warning), st)
    /\ total_loc a = stat_sum ls_lines (language_stats a)
    /\ function_count a = stat_sum ls_functions (language_stats a)
    /\ class_count a = stat_sum ls_classes (language_stats a)
    /\ length (important_files a) <= stat_sum ls_files (language_stats a).
Proof.
  unfold analyze_code_structure, _safe_execute.
  pose proof (analyze_dirs_consistent (walk (keep_dir analysis_deny) [] t)
                empty_analysis empty_consistent) as H.
  destruct (analyze_dirs cfc _ empty_analysis) as [a w].
  exists a, w. split; [reflexivity | exact H].
Qed.

End Totals.

End RankingFacts.

Module ReadingFacts.

Import Pathlib Classifier Spec Scenario Vocabulary PyFacts AcquirerFacts ClassifierFacts ClassifierTerms.
Import SelectionFacts.

Section Records.

Variable cfc : string -> string -> nat * nat.
Variable w : list (list string * list file).

Lemma account_records rel f size content a :
  In (rel, f) (visits_of w) ->
  hidden (fname f) = false ->
  mem (Py.lower (suffix_of_name (fname f))) code_exts = true ->
  fstat f = Ok size -> (size <= 500 * 1024)%N -> fread f = Ok content ->
  List.Forall (accounted w) (important_files a) ->
  List.Forall (accounted w) (important_files (account cfc rel f content a)).
Proof.
  intros Hin Hh Hm Hs Hz Hr Ha. unfold account.
  destruct (cfc content _) as [funcs classes]. simpl.
  destruct (is_important (fname f) (useful_lines content)) eqn:Hi; [|exact Ha].
  apply List.Forall_app. split; [exact Ha|].
  constructor; [|constructor].
  exists rel, f, size, content. simpl. repeat split; auto.
Qed.

Lemma analyze_file_records rel f a a' :
  In (rel, f) (visits_of w) ->
  List.Forall (accounted w) (important_files a) ->
  analyze_file cfc rel f a = Ok a' ->
  List.Forall (accounted w) (important_files a').
Proof.
  intros Hin Ha. unfold analyze_file.
  destruct (hidden (fname f)) eqn:Hh; [intros E; inversion E; now subst|].
  destruct (mem _ code_exts) eqn:Hm; simpl negb; cbv iota;
    [|intros E; inversion E; now subst].
  destruct (fstat f) as [size|ex] eqn:Hs.
  - destruct (N.ltb_spec (500 * 1024) size) as [Hz|Hz];
      [intros E; inversion E; now subst|].
    destruct (fread f) as [content|ex] eqn:Hr.
    + intros E; inversion E; subst. eapply account_records; eauto.
    + destruct (skipped_silently ex); intros E; inversion E; now subst.
  - destruct (skipped_silently ex); intros E; inversion E; now subst.
Qed.

Lemma analyze_files_records rel fs : forall a,
  (forall f, In f fs -> In (rel, f) (visits_of w)) ->
  List.Forall (accounted w) (important_files a) ->
  List.Forall (accounted w) (important_files (fst (analyze_files cfc rel fs a))).
Proof.
  induction fs as [|f fs IH]; intros a Hin Ha; simpl; [exact Ha|].
  destruct (analyze_file cfc rel f a) as [a'|ex] eqn:E; [|exact Ha].
  apply IH; [intros f' Hf'; apply Hin; now right|].
  eapply analyze_file_records; eauto. apply Hin. now left.
Qed.

Lemma analyze_dirs_records w' : forall a,
  (forall d, In d w' -> In d w) ->
  List.Forall (accounted w) (important_files a) ->
  List.Forall (accounted w) (important_files (fst (analyze_dirs cfc w' a))).
Proof.
  induction w' as [|d w' IH]; intros a Hin Ha; simpl; [exact Ha|].
  assert (Hd : List.Forall (accounted w)
                 (important_files (fst (analyze_files cfc (fst d) (snd d) a)))).
  { apply analyze_files_records; [|exact Ha].
    intros f Hf. apply visits_of_in. exists d. split; [apply Hin; now left | auto]. }
  destruct (analyze_files cfc (fst d) (snd d) a) as [a' [ex|]]; simpl in *; [exact Hd|].
  destruct (50 <? length (important_files a'))%nat; simpl; [exact Hd|].
  apply IH; [intros d' Hd'; apply Hin; now right | exact Hd].
Qed.

End Records.

(** X10.  Every file listed as important in the report on the code
    structure is a file of the walk that is not hidden, has a code
    extension, is at most 500 KB large and was read; its directory has no
    hidden or denied component; and the record carries its relative path,
    its language and its count of non-blank lines. *)
Theorem important_records_describe_files_that_were_read
    (cfc : string -> string -> nat * nat) (t : tree) (st : tools)
    (a : analysis) (warning : option exn) (i : important) :
  analyze_code_structure cfc t st = (Value (a, warning), st) ->
  In i (important_files a) ->
  exists rel f size content,
    In (rel, f) (visits_of (walk (keep_dir analysis_deny) [] t))
    /\ List.forallb (keep_dir analysis_deny) rel = true
    /\ hidden (fname f) = false
    /\ mem (Py.lower (suffix_of_name (fname f))) code_exts = true
    /\ fstat f = Ok size /\ (size <= 500 * 1024)%N
    /\ fread f = Ok content
    /\ i_path i = rel_str (rel ++ [fname f])
    /\ i_language i = _get_language (Py.lower (suffix_of_name (fname f)))
    /\ i_lines i = useful_lines content.
Proof.
  unfold analyze_code_structure, _safe_execute. intros H Hi.
  set (w := walk (keep_dir analysis_deny) [] t) in *.
  assert (Hall : List.Forall (accounted w)
                   (important_files (fst (analyze_dirs cfc w empty_analysis)))).
  { apply analyze_dirs_records; [auto | constructor]. }
  destruct (analyze_dirs cfc w empty_analysis) as [a' w'].
  inversion H; subst. simpl in Hall.
  rewrite List.Forall_forall in Hall.
  destruct (Hall i Hi) as (rel & f & size & content & Hin & Hh & Hm & Hs & Hz & Hr
                           & Hp & Hl & Hn & _).
  exists rel, f, size, content. repeat split; auto.
  apply visits_of_in in Hin as (d & Hd & <- & _).
  apply walk_kept in Hd as (rest & -> & Hk). exact Hk.
Qed.

(** *** The read cache, continued *)

Section CacheBounds.

Variable aca : string -> string -> string.

Lemma take_nat_length k s : String.length (Py.take_nat k s) <= k.
Proof.
  revert s. induction k as [|k IH]; intros s; [destruct s; simpl; lia|].
  destruct s as [|c r]; simpl; [lia|]. specialize (IH r). lia.
Qed.

Lemma len_take n s : (Py.len (Py.take n s) <= n)%N.
Proof.
  unfold Py.len, Py.take. pose proof (take_nat_length (N.to_nat n) s). lia.
Qed.

Lemma safe_execute_message {A : Type} nm ex st :
  is_value (fst (@_safe_execute A nm (Raise ex) st)) = false
  /\ snd (@_safe_execute A nm (Raise ex) st) = count_error st.
Proof.
  unfold _safe_execute.
  destruct (isinstance ex CPermissionError); [split; reflexivity|].
  destruct (isinstance ex CFileNotFoundError); [split; reflexivity|].
  destruct (isinstance ex CUnicodeDecodeError); split; reflexivity.
Qed.

Lemma file_read_cases fs repo file_path st :
  read_case fs repo file_path st
    (fst (file_read aca fs repo file_path st))
    (snd (file_read aca fs repo file_path st)).
Proof.
  unfold file_read, file_read_operation. fold (cache_key repo file_path).
  assert (Hesc : forall ex,
            escaping (fs (cache_key repo file_path))
                     (file_cache st !! cache_key repo file_path) ex ->
            read_case fs repo file_path st
              (fst (@_safe_execute file_reply "file_read" (Raise ex) st))
              (snd (@_safe_execute file_reply "file_read" (Raise ex) st))).
  { intros ex Hex. destruct (@safe_execute_message file_reply "file_read" ex st)
      as [Hv Hs]. rewrite Hs. eapply case_error; eauto. }
  destruct (e_exists _) as [[|]|ex] eqn:He;
    [|now apply case_plain|apply Hesc; now left].
  destruct (e_is_file _) as [[|]|ex] eqn:Hf;
    [|now apply case_plain|apply Hesc; right; left; auto].
  destruct (file_cache st !! cache_key repo file_path) as [c|] eqn:Hc;
    [now apply case_hit|].
  destruct (e_stat _) as [sz|ex] eqn:Hs.
  - destruct (300 * 1024 <? sz)%N; [now apply case_plain|].
    destruct (sz =? 0)%N; [now apply case_plain|].
    destruct (try_encodings _ _) as [[content enc]|]; [|now apply case_plain].
    destruct (Py.contains nul _); [now apply case_plain|].
    destruct (Nat.ltb_spec (size (file_cache st)) 30).
    + apply case_admitted; auto. apply len_take.
    + apply case_fresh; auto. apply len_take.
  - destruct (isinstance ex COSError) eqn:Hi; [now apply case_plain|].
    apply Hesc. right; right. auto.
Qed.

(** X11.  The cache never grows beyond 30 entries, whatever is read and in
    whatever state the disk is. *)
Theorem the_cache_holds_at_most_30_entries
    (repo : Path) (ops : list (filesystem * string)) (st : tools) :
  size (file_cache st) <= 30 ->
  size (file_cache (reads aca repo ops st)) <= 30.
Proof.
  revert st. induction ops as [|[fs file_path] ops IH]; intros st Hst; [exact Hst|].
  simpl. apply IH. simpl.
  pose proof (file_read_cases fs repo file_path st) as Hc.
  destruct (file_read aca fs repo file_path st) as [r st']. simpl in *.
  inversion Hc; subst; simpl; auto.
  rewrite map_size_insert_None by assumption. lia.
Qed.

(** X12.  Only reports enter the cache, never a failure message, and each
    cached report carries an excerpt of at most 4000 characters; hence
    every report a read returns carries such an excerpt. *)
Theorem only_bounded_reports_are_cached
    (repo : Path) (fs : filesystem) (file_path : string) (st : tools) :
  cache_ok st ->
  cache_ok (snd (file_read aca fs repo file_path st))
  /\ (forall r, fst (file_read aca fs repo file_path st) = Value r ->
                is_report r = true -> bounded_report r).
Proof.
  intros Hok.
  pose proof (file_read_cases fs repo file_path st) as Hc.
  destruct (file_read aca fs repo file_path st) as [r st']. simpl in *.
  inversion Hc; subst; simpl.
  - split; [exact Hok|]. intros r' E; inversion E; subst. congruence.
  - split; [exact Hok|]. intros r' E _; inversion E; subst. eapply Hok; eauto.
  - split; [exact Hok|]. intros r' E _; inversion E; subst. assumption.
  - split.
    + unfold cache_ok. simpl. apply map_Forall_insert_2; assumption.
    + intros r' E _; inversion E; subst. assumption.
  - split; [exact Hok|]. intros r' E; subst. discriminate.
Qed.

Lemma file_read_fails_iff fs repo file_path st :
  is_value (fst (file_read aca fs repo file_path st)) = false
  <-> exists ex, escaping (fs (cache_key repo file_path))
                          (file_cache st !! cache_key repo file_path) ex.
Proof.
  unfold file_read, file_read_operation, escaping.
  fold (cache_key repo file_path).
  assert (Hmsg : forall ex,
            is_value (fst (@_safe_execute file_reply "file_read" (Raise ex) st))
            = false)
    by (intros ex; apply safe_execute_message).
  destruct (e_exists _) as [[|]|ex] eqn:He.
  - destruct (e_is_file _) as [[|]|ex] eqn:Hf.
    + destruct (file_cache st !! cache_key repo file_path) as [c|] eqn:Hc.
      { split; [discriminate|].
        intros [ex [E|[[_ E]|(_ & _ & E & _)]]]; congruence. }
      destruct (e_stat _) as [sz|ex] eqn:Hs.
      * assert (Hno : ~ exists ex : exn,
                  Ok true = Raise ex
                  \/ (Ok true = Ok true /\ Ok true = Raise ex)
                  \/ (Ok true = Ok true /\ Ok true = Ok true
                      /\ @None file_reply = None
                      /\ Ok sz = Raise ex /\ isinstance ex COSError = false)).
        { intros [ex [E|[[_ E]|(_ & _ & _ & E & _)]]]; congruence. }
        destruct (300 * 1024 <? sz)%N; [split; [discriminate | intros H; now destruct Hno]|].
        destruct (sz =? 0)%N; [split; [discriminate | intros H; now destruct Hno]|].
        destruct (try_encodings _ _) as [[content enc]|];
          [|split; [discriminate | intros H; now destruct Hno]].
        destruct (Py.contains nul _);
          [split; [discriminate | intros H; now destruct Hno]|].
        destruct (size (file_cache st) <? 30)%nat;
          split; try discriminate; intros H; now destruct Hno.
      * destruct (isinstance ex COSError) eqn:Hi.
        -- split; [discriminate|].
           intros [ex' [E|[[_ E]|(_ & _ & _ & E & Hi')]]]; congruence.
        -- split; [intros _|intros _; apply Hmsg].
           exists ex. right; right. auto.
    + split; [discriminate|].
      intros [ex [E|[[_ E]|(_ & E & _)]]]; congruence.
    + split; [intros _|intros _; apply Hmsg].
      exists ex. right; left. auto.
  - split; [discriminate|].
    intros [ex [E|[[E _]|(E & _)]]]; congruence.
  - split; [intros _|intros _; apply Hmsg].
    exists ex. now left.
Qed.

(** X13.  A read adds one to the error counter exactly when it returns a
    message of [_safe_execute] in place of a text of its own, and the cache
    is then unchanged.  This happens exactly when an exception leaves the
    closure: one raised by [exists()] or [is_file()], such as the
    [PermissionError] for a parent directory that cannot be searched, or
    one outside the [OSError] family raised when the size of a file that
    is not cached is read.  Every other failure is returned as a text
    without being counted. *)
Theorem a_read_counts_only_escaped_exceptions
    (repo : Path) (fs : filesystem) (file_path : string) (st : tools) :
  let out := file_read aca fs repo file_path st in
  error_count (snd out) = error_count st + (if is_value (fst out) then 0 else 1)
  /\ (is_value (fst out) = false -> file_cache (snd out) = file_cache st)
  /\ (is_value (fst out) = false
      <-> exists ex, escaping (fs (cache_key repo file_path))
                              (file_cache st !! cache_key repo file_path) ex).
Proof.
  cbv zeta. split; [|split; [|apply file_read_fails_iff]].
  - pose proof (file_read_cases fs repo file_path st) as Hc.
    destruct (file_read aca fs repo file_path st) as [r st']. simpl in *.
    inversion Hc; subst; simpl; try lia.
    match goal with H : is_value r = false |- _ => rewrite H end. lia.
  - pose proof (file_read_cases fs repo file_path st) as Hc.
    destruct (file_read aca fs repo file_path st) as [r st']. simpl in *.
    inversion Hc; subst; simpl; try discriminate. reflexivity.
Qed.

End CacheBounds.

(** A path below a directory that cannot be searched: the read is answered
    by the message of [_safe_execute] and counted. *)
Lemma a_sealed_path_is_counted :
  file_read Scenario.no_comment Samples.sealed_disk Scenario.repo_dir "notes.txt"
            Scenario.fresh_tools
  = (PermissionDenied "file_read", count_error Scenario.fresh_tools).
Proof. reflexivity. Qed.

Import Samples.

Lemma important_records_describe_files_that_were_read_witness :
  analyze_code_structure no_counts main_tree fresh_tools
  = (Value (main_analysis, None), fresh_tools)
  /\ In main_record (important_files main_analysis)
  /\ exists rel f size content,
       In (rel, f) (visits_of (walk (keep_dir analysis_deny) [] main_tree))
       /\ List.forallb (keep_dir analysis_deny) rel = true
       /\ hidden (fname f) = false
       /\ mem (Py.lower (suffix_of_name (fname f))) code_exts = true
       /\ fstat f = Ok size /\ (size <= 500 * 1024)%N
       /\ fread f = Ok content
       /\ i_path main_record = rel_str (rel ++ [fname f])
       /\ i_language main_record = _get_language (Py.lower (suffix_of_name (fname f)))
       /\ i_lines main_record = useful_lines content.
Proof.
  assert (H1 : analyze_code_structure no_counts main_tree fresh_tools
               = (Value (main_analysis, None), fresh_tools)) by reflexivity.
  assert (H2 : In main_record (important_files main_analysis))
    by (vm_compute; tauto).
  split; [exact H1|]. split; [exact H2|].
  exact (important_records_describe_files_that_were_read no_counts main_tree
           fresh_tools main_analysis None main_record H1 H2).
Defined.

Lemma the_cache_holds_at_most_30_entries_witness :
  size (file_cache fresh_tools) <= 30
  /\ size (file_cache (reads no_comment repo_dir [(disk_first, "notes.txt")]
                             fresh_tools)) <= 30.
Proof.
  assert (H : size (file_cache fresh_tools) <= 30) by (vm_compute; lia).
  split; [exact H|].
  exact (the_cache_holds_at_most_30_entries no_comment repo_dir
           [(disk_first, "notes.txt")] fresh_tools H).
Defined.

Lemma only_bounded_reports_are_cached_witness :
  cache_ok fresh_tools
  /\ cache_ok (snd (file_read no_comment disk_first repo_dir "notes.txt" fresh_tools))
  /\ (forall r,
        fst (file_read no_comment disk_first repo_dir "notes.txt" fresh_tools) = Value r ->
        is_report r = true -> bounded_report r).
Proof.
  assert (H : cache_ok fresh_tools) by apply map_Forall_empty.
  split; [exact H|].
  exact (only_bounded_reports_are_cached no_comment repo_dir disk_first "notes.txt"
           fresh_tools H).
Defined.

End ReadingFacts.

(** ** The browser *)

Module BrowserFacts.

Import Pathlib Classifier Spec Vocabulary PyFacts Browser.
Import NameFacts.

(** *** Lines *)

Lemma split_cons_sep sep r : Py.split sep (String sep r) = "" :: Py.split sep r.
Proof. simpl. now rewrite Ascii.eqb_refl. Qed.

Lemma split_app_sep sep x rest :
  lacks sep x = true ->
  Py.split sep (x +:+ String sep rest) = x :: Py.split sep rest.
Proof.
  induction x as [|c r IH]; intros H.
  - rewrite str_app_nil_l. apply split_cons_sep.
  - unfold lacks in H. simpl in H. apply andb_true_iff in H as [Hc Hr].
    rewrite str_app_cons. simpl.
    destruct (Ascii.eqb c sep); [discriminate|].
    rewrite (IH Hr). reflexivity.
Qed.

Lemma concat_cons sep x y r :
  String.concat sep (x :: y :: r) = x +:+ sep +:+ String.concat sep (y :: r).
Proof. reflexivity. Qed.

Lemma split_join sep xs :
  xs <> [] ->
  List.Forall (fun x => lacks sep x = true) xs ->
  Py.split sep (String.concat (String sep "") xs) = xs.
Proof.
  induction xs as [|x r IH]; intros Hne Hall; [congruence|].
  inversion Hall as [|? ? Hx Hr]; subst.
  destruct r as [|y r].
  - simpl. now apply split_whole.
  - rewrite concat_cons.
    change (String sep "" +:+ String.concat (String sep "") (y :: r))
      with (String sep (String.concat (String sep "") (y :: r))).
    rewrite (split_app_sep _ _ _ Hx). f_equal. apply IH; [congruence | exact Hr].
Qed.

Lemma forall_firstn {A : Type} (P : A -> Prop) n (l : list A) :
  List.Forall P l -> List.Forall P (List.firstn n l).
Proof.
  intros H. revert n.
  induction H as [|x l Hx Hl IH]; intros [|n]; simpl; constructor; auto.
Qed.

Lemma sublist_firstn {A : Type} n (l : list A) : sublist (List.firstn n l) l.
Proof.
  revert l. induction n as [|n IH]; intros l; [apply sublist_nil_l|].
  destruct l as [|x l]; simpl; [constructor|]. constructor. apply IH.
Qed.

Lemma sublist_list_filter {A : Type} (p : A -> bool) (l : list A) :
  sublist (List.filter p l) l.
Proof.
  induction l as [|x l IH]; simpl; [constructor|].
  destruct (p x); now constructor.
Qed.

Lemma from_first_sublist p lines rest :
  from_first p lines = Some rest -> sublist rest lines.
Proof.
  induction lines as [|l r IH]; simpl; [discriminate|].
  destruct (p l).
  - intros E; inversion E; subst. reflexivity.
  - intros E. constructor. now apply IH.
Qed.

Lemma from_first_spec p lines :
  match from_first p lines with
  | Some rest =>
      exists before line after,
        lines = before ++ line :: after /\ rest = line :: after
        /\ p line = true /\ List.forallb (fun l => negb (p l)) before = true
  | None => List.forallb (fun l => negb (p l)) lines = true
  end.
Proof.
  induction lines as [|l r IH]; simpl; [reflexivity|].
  destruct (p l) eqn:E.
  - exists [], l, r. simpl. auto.
  - destruct (from_first p r) as [rest|].
    + destruct IH as (before & line & after & -> & -> & Hp & Hb).
      exists (l :: before), line, after. simpl. rewrite E. auto.
    + simpl. exact IH.
Qed.

Lemma forall_sublist {A : Type} (P : A -> Prop) (xs l : list A) :
  sublist xs l -> List.Forall P l -> List.Forall P xs.
Proof.
  induction 1 as [|x l1 l2 Hs IH|x l1 l2 Hs IH]; intros Hl.
  - constructor.
  - inversion Hl; subst. constructor; auto.
  - inversion Hl; subst. auto.
Qed.

(** The lines of a text made by joining a run of lines. *)
Lemma joined_run (xs lines : list string) n :
  sublist xs lines ->
  List.Forall (fun x => lacks line_feed x = true) lines ->
  join_lines (List.firstn n xs) = ""
  \/ (Py.split line_feed (join_lines (List.firstn n xs)) = List.firstn n xs
      /\ sublist (List.firstn n xs) lines
      /\ 0 < length (List.firstn n xs) <= n).
Proof.
  intros Hs Hl.
  assert (Hsub : sublist (List.firstn n xs) lines).
  { etransitivity; [apply sublist_firstn | exact Hs]. }
  assert (Hlen : length (List.firstn n xs) <= n) by apply List.firstn_le_length.
  assert (Hall : List.Forall (fun x => lacks line_feed x = true) (List.firstn n xs)).
  { eapply forall_sublist; eauto. }
  destruct (List.firstn n xs) as [|y ys]; [now left|].
  right. split; [|split].
  - apply split_join; [discriminate | exact Hall].
  - exact Hsub.
  - simpl in *. lia.
Qed.

Lemma snippet_lines
    (content language : string) (max_lines : nat) :
  let snippet := _extract_relevant_snippet content language max_lines in
  snippet = ""
  \/ (sublist (Py.split line_feed snippet) (Py.split line_feed content)
      /\ 0 < length (Py.split line_feed snippet) <= max_lines).
Proof.
  cbv zeta. unfold _extract_relevant_snippet.
  pose proof (split_lacks line_feed content) as Hl.
  set (lines := Py.split line_feed content) in *.
  set (found := if String.eqb language "Python" then _ else _).
  assert (Hf : forall rest, found = Some rest -> sublist rest lines).
  { intros rest. unfold found.
    destruct (String.eqb language "Python"); [apply from_first_sublist|].
    destruct (String.eqb language "JavaScript"); [apply from_first_sublist|].
    discriminate. }
  destruct found as [rest|].
  - destruct (joined_run rest lines max_lines (Hf rest eq_refl) Hl)
      as [E|(E & Hs & Hn)]; [now left|].
    right. rewrite E. auto.
  - pose proof (sublist_list_filter nonblank lines) as Hs.
    destruct (List.filter nonblank lines) as [|y ys] eqn:E; [now left|].
    destruct (joined_run (y :: ys) lines max_lines Hs Hl)
      as [E'|(E' & Hs' & Hn)]; [now left|].
    right. rewrite E'. auto.
Qed.

(** X14.  A snippet is empty, or its lines are lines of the content taken
    in their order, at least one and at most [max_lines] of them. *)
Theorem a_snippet_is_made_of_at_most_max_lines_lines_of_the_content
    (content language : string) (max_lines : nat) :
  let snippet := _extract_relevant_snippet content language max_lines in
  snippet = ""
  \/ (sublist (Py.split line_feed snippet) (Py.split line_feed content)
      /\ 0 < length (Py.split line_feed snippet) <= max_lines).
Proof. apply snippet_lines. Qed.

(** X15.  In a Python text the snippet starts at the first line that
    contains [if __name__] or whose stripped form starts with [class ] or
    [def main], and in a JavaScript text at the first line that contains
    [export], [function main] or [module.exports]; it runs over the lines
    that follow, blank ones included, up to [max_lines] lines in all. *)
Theorem a_snippet_starts_at_the_first_entry_line
    (content language : string) (max_lines : nat)
    (entry : string -> bool) (before after : list string) (line : string) :
  (language = "Python" /\ entry = python_entry
   \/ language = "JavaScript" /\ entry = javascript_entry) ->
  Py.split line_feed content = before ++ line :: after ->
  List.forallb (fun l => negb (entry l)) before = true ->
  entry line = true ->
  _extract_relevant_snippet content language max_lines
  = join_lines (List.firstn max_lines (line :: after)).
Proof.
  intros Hlang Hsplit Hb Hline. unfold _extract_relevant_snippet.
  rewrite Hsplit.
  assert (Hfrom : from_first entry (before ++ line :: after) = Some (line :: after)).
  { clear Hsplit Hlang. induction before as [|b r IH]; simpl.
    - now rewrite Hline.
    - simpl in Hb. apply andb_true_iff in Hb as [Hb1 Hb2].
      destruct (entry b); [discriminate|]. now apply IH. }
  destruct Hlang as [[-> ->]|[-> ->]].
  - rewrite String.eqb_refl. now rewrite Hfrom.
  - change (String.eqb "JavaScript" "Python") with false. cbv iota.
    rewrite String.eqb_refl. now rewrite Hfrom.
Qed.

Import Samples.

Lemma a_snippet_starts_at_the_first_entry_line_witness :
  ("Python" = "Python" /\ python_entry = python_entry
   \/ "Python" = "JavaScript" /\ python_entry = javascript_entry)
  /\ Py.split line_feed script = ["import os"] ++ "class A:" :: ["    pass"]
  /\ List.forallb (fun l => negb (python_entry l)) ["import os"] = true
  /\ python_entry "class A:" = true
  /\ _extract_relevant_snippet script "Python" 10
     = join_lines (List.firstn 10 ("class A:" :: ["    pass"])).
Proof.
  assert (H1 : "Python" = "Python" /\ python_entry = python_entry
               \/ "Python" = "JavaScript" /\ python_entry = javascript_entry)
    by (left; split; reflexivity).
  assert (H2 : Py.split line_feed script = ["import os"] ++ "class A:" :: ["    pass"])
    by reflexivity.
  assert (H3 : List.forallb (fun l => negb (python_entry l)) ["import os"] = true)
    by reflexivity.
  assert (H4 : python_entry "class A:" = true) by reflexivity.
  repeat (split; [assumption|]).
  exact (a_snippet_starts_at_the_first_entry_line script "Python" 10 python_entry
           ["import os"] ["    pass"] "class A:" H1 H2 H3 H4).
Defined.

End BrowserFacts.

Module ListingFacts.

Import Pathlib Classifier Spec Vocabulary PyFacts Browser ClassifierTerms BrowserTerms.
Import NameFacts BrowserFacts.

Lemma startswith_app nm rest : Py.startswith (nm +:+ rest) nm = true.
Proof.
  unfold Py.startswith. rewrite prefix_app by lia.
  induction nm as [|c r IH]; [reflexivity|].
  change (String.prefix (String c r) (String c r))
    with (if ascii_dec c c then String.prefix r r else false).
  destruct (ascii_dec c c); [exact IH | congruence].
Qed.

(** *** Sorting *)

Lemma insert_line_perm x l : Permutation (insert_line x l) (x :: l).
Proof.
  induction l as [|y r IH]; simpl; [reflexivity|].
  destruct (String.leb x y); [reflexivity|].
  rewrite IH. apply perm_swap.
Qed.

Lemma sorted_perm l : Permutation (sorted l) l.
Proof.
  induction l as [|x r IH]; simpl; [reflexivity|].
  rewrite insert_line_perm. now constructor.
Qed.

Lemma insert_line_ascending x l : ascending l -> ascending (insert_line x l).
Proof.
  unfold ascending. induction l as [|y r IH]; intros H; simpl.
  - repeat constructor.
  - destruct (String.leb x y) eqn:E.
    + constructor; [exact H | constructor; exact E].
    + inversion H as [|? ? Hr Hhd]; subst.
      constructor; [now apply IH|].
      destruct r as [|z r]; simpl.
      * constructor. destruct (String.leb_total x y) as [H1|H1]; congruence.
      * destruct (String.leb x z).
        -- constructor. destruct (String.leb_total x y) as [H1|H1]; congruence.
        -- inversion Hhd; subst. now constructor.
Qed.

Lemma sorted_ascending l : ascending (sorted l).
Proof.
  induction l as [|x r IH]; simpl; [constructor|].
  now apply insert_line_ascending.
Qed.

Lemma firstn_ascending n l : ascending l -> ascending (List.firstn n l).
Proof.
  unfold ascending. revert l. induction n as [|n IH]; intros l H; [constructor|].
  destruct l as [|x l]; simpl; [constructor|].
  inversion H as [|? ? Hr Hhd]; subst.
  constructor; [now apply IH|].
  destruct l as [|y l]; [destruct n; constructor|].
  inversion Hhd; subst. destruct n; simpl; now constructor.
Qed.

Lemma shown_in n l x : In x (List.firstn n (sorted l)) -> In x l.
Proof.
  intros H. apply (Permutation_in _ (sorted_perm l)).
  revert H. generalize (sorted l). clear l.
  induction n as [|n IH]; intros [|y l] H; simpl in H; try contradiction.
  destruct H as [->|H]; [now left | right; now apply IH].
Qed.

Lemma shown_length n l :
  length (List.firstn n (sorted l)) = Nat.min n (length l).
Proof.
  rewrite List.length_firstn. now rewrite (Permutation_length (sorted_perm l)).
Qed.

(** *** The loop *)

Lemma in_all_lines b x :
  In x (all_lines b)
  <-> In x (dirs b) \/ In x (code_files b) \/ In x (config_files b)
      \/ In x (doc_files b) \/ In x (other_files b).
Proof. unfold all_lines. rewrite !List.in_app_iff. tauto. Qed.

Ltac bucket_cases H :=
  apply in_all_lines in H; simpl in H; rewrite ?List.in_app_iff in H;
  simpl in H.

Lemma classify_lines it b b' x :
  classify it b = Ok b' ->
  In x (all_lines b') ->
  In x (all_lines b)
  \/ (hidden (item_name it) = false /\ Py.startswith x (item_name it) = true).
Proof.
  unfold classify.
  destruct (hidden (item_name it)) eqn:Hh; [intros E; inversion E; subst; auto|].
  assert (Hnew : forall rest, x = item_name it +:+ rest ->
            false = false /\ Py.startswith x (item_name it) = true).
  { intros rest ->. split; [reflexivity | apply startswith_app]. }
  destruct (item_is_dir it) as [[|]|e].
  - intros E; inversion E; subst; clear E. intros H. bucket_cases H.
    rewrite in_all_lines.
    destruct H as [[H|[H|[]]]|H]; [tauto| |tauto].
    right. destruct (item_count it); eapply Hnew; symmetry; exact H.
  - destruct (item_stat it) as [size|e].
    + destruct (mem _ code_suffixes);
        [|destruct (mem _ config_suffixes);
          [|destruct (mem _ doc_suffixes || upper_in _ doc_names)]];
      intros E; inversion E; subst; clear E; intros H; bucket_cases H;
      rewrite in_all_lines.
      * destruct H as [H|[[H|[H|[]]]|H]]; [tauto|tauto| |tauto].
        right. eapply Hnew; symmetry; exact H.
      * destruct H as [H|[H|[[H|[H|[]]]|H]]]; [tauto|tauto|tauto| |tauto].
        right. eapply Hnew; symmetry; exact H.
      * destruct H as [H|[H|[H|[[H|[H|[]]]|H]]]]; [tauto|tauto|tauto|tauto| |tauto].
        right. eapply Hnew; symmetry; exact H.
      * destruct H as [H|[H|[H|[H|[H|[H|[]]]]]]]; [tauto|tauto|tauto|tauto|tauto|].
        right. eapply Hnew; symmetry; exact H.
    + destruct (passed_over e); [|discriminate].
      intros E; inversion E; subst; auto.
  - destruct (passed_over e); [|discriminate].
    intros E; inversion E; subst; auto.
Qed.

Lemma classify_all_lines its : forall b b' x,
  classify_all its b = Ok b' ->
  In x (all_lines b') ->
  In x (all_lines b) \/ line_of its x.
Proof.
  induction its as [|it r IH]; intros b b' x; simpl.
  - intros E; inversion E; subst; auto.
  - destruct (classify it b) as [b1|e] eqn:E1; [|discriminate].
    intros E Hx. destruct (IH _ _ _ E Hx) as [H|(it' & Hin & Hh & Hs)].
    + destruct (classify_lines _ _ _ _ E1 H) as [H1|[Hh Hs]]; [now left|].
      right. exists it. split; [now left | auto].
    + right. exists it'. split; [now right | auto].
Qed.

Lemma classify_count it b b' :
  classify it b = Ok b' ->
  total_shown b' = total_shown b + (if listed it then 1 else 0).
Proof.
  unfold classify, listed, total_shown.
  destruct (hidden (item_name it)); simpl negb; cbv iota;
    [intros E; inversion E; subst; simpl; lia|].
  rewrite andb_true_l.
  destruct (item_is_dir it) as [[|]|e].
  - intros E; inversion E; subst; simpl. rewrite List.length_app. simpl. lia.
  - destruct (item_stat it) as [size|e].
    + destruct (mem _ code_suffixes);
        [|destruct (mem _ config_suffixes);
          [|destruct (mem _ doc_suffixes || upper_in _ doc_names)]];
      intros E; inversion E; subst; simpl; rewrite List.length_app; simpl; lia.
    + destruct (passed_over e); [|discriminate].
      intros E; inversion E; subst; lia.
  - destruct (passed_over e); [|discriminate].
    intros E; inversion E; subst; lia.
Qed.

Lemma classify_all_count its : forall b b',
  classify_all its b = Ok b' ->
  total_shown b' = total_shown b + length (List.filter listed its).
Proof.
  induction its as [|it r IH]; intros b b'; simpl.
  - intros E; inversion E; subst; lia.
  - destruct (classify it b) as [b1|e] eqn:E1; [|discriminate].
    intros E. rewrite (IH _ _ E), (classify_count _ _ _ E1).
    destruct (listed it); simpl; lia.
Qed.

Lemma classify_escapes it b :
  (exists e, classify it b = Raise e) <-> escapes it = true.
Proof.
  unfold classify, escapes.
  destruct (hidden (item_name it)); simpl negb; cbv iota.
  - split; [intros [e E]; discriminate | discriminate].
  - rewrite andb_true_l.
    destruct (item_is_dir it) as [[|]|e].
    + split; [intros [e E]; discriminate | discriminate].
    + destruct (item_stat it) as [size|e].
      * split; [intros [e E]|discriminate].
        destruct (mem _ code_suffixes);
          [|destruct (mem _ config_suffixes);
            [|destruct (mem _ doc_suffixes || upper_in _ doc_names)]];
          discriminate.
      * destruct (passed_over e); simpl.
        -- split; [intros [e' E]; discriminate | discriminate].
        -- split; [reflexivity | intros _; now exists e].
    + destruct (passed_over e); simpl.
      * split; [intros [e' E]; discriminate | discriminate].
      * split; [reflexivity | intros _; now exists e].
Qed.

Lemma classify_all_escapes its : forall b,
  (exists e, classify_all its b = Raise e) <-> List.existsb escapes its = true.
Proof.
  induction its as [|it r IH]; intros b; simpl.
  - split; [intros [e E]; discriminate | discriminate].
  - destruct (classify it b) as [b1|e] eqn:E1.
    + assert (He : escapes it = false).
      { destruct (escapes it) eqn:E; [|reflexivity].
        apply (classify_escapes it b) in E as [e E]. congruence. }
      rewrite He. simpl. apply IH.
    + assert (He : escapes it = true) by (apply (classify_escapes it b); eauto).
      rewrite He. simpl. split; [reflexivity | intros _; now exists e].
Qed.

Lemma classify_raised_outside e b it :
  classify it b = Raise e -> isinstance e COSError = false.
Proof.
  unfold classify, passed_over.
  destruct (hidden _); [discriminate|].
  destruct (item_is_dir it) as [[|]|e1].
  - discriminate.
  - destruct (item_stat it) as [size|e1].
    + destruct (mem _ code_suffixes);
        [|destruct (mem _ config_suffixes);
          [|destruct (mem _ doc_suffixes || upper_in _ doc_names)]];
        discriminate.
    + destruct (isinstance e1 CPermissionError) eqn:Hp; [discriminate|].
      destruct (isinstance e1 COSError) eqn:Ho; [discriminate|].
      simpl. intros E; inversion E; subst. exact Ho.
  - destruct (isinstance e1 CPermissionError) eqn:Hp; [discriminate|].
    destruct (isinstance e1 COSError) eqn:Ho; [discriminate|].
    simpl. intros E; inversion E; subst. exact Ho.
Qed.

(** What a listing is made of. *)
Lemma listing_inversion ds repo path st l st' :
  directory_read ds repo path st = (Value (Listing l), st') ->
  st' = st
  /\ exists items b,
       d_iterdir (ds (to_str (target_of_path repo path))) = Ok items
       /\ items <> []
       /\ classify_all (List.firstn 150 items) no_lines = Ok b
       /\ shown_dirs l = List.firstn 15 (sorted (dirs b))
       /\ shown_code l = List.firstn 20 (sorted (code_files b))
       /\ shown_config l = List.firstn 10 (sorted (config_files b))
       /\ shown_docs l = List.firstn 10 (sorted (doc_files b))
       /\ shown_others l = List.firstn 15 (sorted (other_files b))
       /\ more l = (if (total_shown b <? length items)%nat
                    then Some (length items - total_shown b) else None).
Proof.
  assert (Hmsg : forall e : exn,
            _safe_execute "directory_read" (Raise e) st <> (Value (Listing l), st')).
  { intros e. unfold _safe_execute.
    destruct (isinstance e CPermissionError); [discriminate|].
    destruct (isinstance e CFileNotFoundError); [discriminate|].
    destruct (isinstance e CUnicodeDecodeError); discriminate. }
  unfold directory_read, directory_read_operation.
  destruct (d_exists _) as [[|]|e];
    [|intros E; inversion E|intros E; now apply Hmsg in E].
  destruct (d_is_dir _) as [[|]|e];
    [|intros E; inversion E|intros E; now apply Hmsg in E].
  destruct (d_iterdir _) as [items|e].
  - destruct items as [|it items]; [intros E; inversion E|].
    destruct (classify_all _ no_lines) as [b|e] eqn:Eb.
    + intros E; inversion E; subst; clear E. split; [reflexivity|].
      exists (it :: items), b. simpl. repeat split; auto; discriminate.
    + intros E. now apply Hmsg in E.
  - destruct (isinstance e CPermissionError) eqn:Hp; [intros E; inversion E|].
    intros E. now apply Hmsg in E.
Qed.

(** X16.  A listing shows at most 15 directories, 20 code files, 10
    configuration files, 10 documents and 15 other files, each section in
    ascending order, and every line shown starts with the name of an item
    that is among the first 150 of the directory and whose name does not
    start with a dot. *)
Theorem a_listing_shows_capped_sorted_lines_of_visible_items
    (ds : string -> directory) (repo : Path) (path : string) (st st' : tools)
    (l : dir_listing) (items : list item) :
  directory_read ds repo path st = (Value (Listing l), st') ->
  d_iterdir (ds (to_str (target_of_path repo path))) = Ok items ->
  (length (shown_dirs l) <= 15 /\ length (shown_code l) <= 20
   /\ length (shown_config l) <= 10 /\ length (shown_docs l) <= 10
   /\ length (shown_others l) <= 15)
  /\ (ascending (shown_dirs l) /\ ascending (shown_code l)
      /\ ascending (shown_config l) /\ ascending (shown_docs l)
      /\ ascending (shown_others l))
  /\ forall line,
       In line (shown_dirs l ++ shown_code l ++ shown_config l
                ++ shown_docs l ++ shown_others l) ->
       line_of (List.firstn 150 items) line.
Proof.
  intros H Hit.
  apply listing_inversion in H
    as (_ & items' & b & Hit' & _ & Hb & -> & -> & -> & -> & -> & _).
  rewrite Hit in Hit'. inversion Hit'; subst items'; clear Hit'.
  split; [|split].
  - rewrite !shown_length. lia.
  - repeat split; apply firstn_ascending, sorted_ascending.
  - intros line Hin.
    assert (Hall : In line (all_lines b)).
    { apply in_all_lines. rewrite !List.in_app_iff in Hin.
      destruct Hin as [Hin|[Hin|[Hin|[Hin|Hin]]]]; apply shown_in in Hin; tauto. }
    destruct (classify_all_lines _ _ _ _ Hb Hall) as [[]|Hl]. exact Hl.
Qed.

(** X17.  The figure of the closing line counts the items that got no
    line: those whose name starts with a dot, those beyond the first 150
    and those whose inspection failed with an [OSError].  An item whose
    line is cut off by the cap of its section is neither shown nor
    counted there: lines and figure add up to the number of items when no
    section is full, and to no more than that in general. *)
Theorem the_closing_figure_counts_the_items_without_a_line
    (ds : string -> directory) (repo : Path) (path : string) (st st' : tools)
    (l : dir_listing) (items : list item) :
  directory_read ds repo path st = (Value (Listing l), st') ->
  d_iterdir (ds (to_str (target_of_path repo path))) = Ok items ->
  let skipped := length items - length (List.filter listed (List.firstn 150 items)) in
  more l = (if (0 <? skipped)%nat then Some skipped else None)
  /\ lines_shown l + skipped <= length items
  /\ (length (shown_dirs l) < 15 -> length (shown_code l) < 20 ->
      length (shown_config l) < 10 -> length (shown_docs l) < 10 ->
      length (shown_others l) < 15 ->
      lines_shown l + skipped = length items).
Proof.
  intros H Hit.
  apply listing_inversion in H
    as (_ & items' & b & Hit' & _ & Hb & Hd & Hc & Hg & Ho & Hx & Hm).
  rewrite Hit in Hit'. inversion Hit'; subst items'; clear Hit'.
  apply classify_all_count in Hb. simpl in Hb.
  change (total_shown no_lines) with 0 in Hb. simpl in Hb.
  assert (Hle : length (List.filter listed (List.firstn 150 items)) <= length items).
  { etransitivity; [apply List.filter_length_le|]. rewrite List.length_firstn. lia. }
  cbv zeta. unfold lines_shown. rewrite Hd, Hc, Hg, Ho, Hx, Hm, !shown_length.
  rewrite <- Hb. unfold total_shown in *.
  split; [|split].
  - destruct (Nat.ltb_spec
                (length (dirs b) + length (code_files b) + length (config_files b)
                 + length (doc_files b) + length (other_files b)) (length items));
      destruct (Nat.ltb_spec 0
                (length items
                 - (length (dirs b) + length (code_files b) + length (config_files b)
                    + length (doc_files b) + length (other_files b))));
      try reflexivity; lia.
  - lia.
  - lia.
Qed.

(** X18.  [directory_read] returns a message of [_safe_execute] in place
    of a text of its own, and counts an error, exactly when an exception
    leaves its closure: one raised by [exists()] or [is_dir()] on the
    target, one other than [PermissionError] raised by listing the target,
    or one raised by the inspection of an item.  The last happens exactly
    when some visible item among the first 150 raises an exception outside
    the [OSError] family: one such item withholds the whole listing.  In
    every other case the state of the tools is unchanged. *)
Theorem one_escaping_item_withholds_the_listing
    (ds : string -> directory) (repo : Path) (path : string) (st : tools) :
  let d := ds (to_str (target_of_path repo path)) in
  let out := directory_read ds repo path st in
  (is_value (fst out) = false <-> exists e, withholds d e)
  /\ snd out = (if is_value (fst out) then st else count_error st)
  /\ (forall items,
        (exists e, classify_all (List.firstn 150 items) no_lines = Raise e)
        <-> List.existsb escapes (List.firstn 150 items) = true).
Proof.
  cbv zeta. split; [|split; [|intros items; apply classify_all_escapes]].
  - unfold directory_read, directory_read_operation, withholds.
    set (d := ds (to_str (target_of_path repo path))).
    assert (Hmsg : forall e,
              is_value (fst (@_safe_execute dir_reply "directory_read" (Raise e) st))
              = false).
    { intros e. unfold _safe_execute.
      destruct (isinstance e CPermissionError); [reflexivity|].
      destruct (isinstance e CFileNotFoundError); [reflexivity|].
      destruct (isinstance e CUnicodeDecodeError); reflexivity. }
    destruct (d_exists d) as [[|]|e] eqn:He.
    + destruct (d_is_dir d) as [[|]|e] eqn:Hd.
      * destruct (d_iterdir d) as [items|e] eqn:Hi.
        -- destruct items as [|it items].
           ++ split; [discriminate|].
              intros [e [E|[[_ E]|(_ & _ & [[E _]|(items & E & Hx)])]]];
                try congruence.
              inversion E; subst. discriminate.
           ++ destruct (classify_all (List.firstn 150 (it :: items)) no_lines)
                as [b|e] eqn:Eb.
              ** split; [discriminate|].
                 intros [e [E|[[_ E]|(_ & _ & [[E _]|(items' & E & Hx)])]]];
                   congruence.
              ** split; [intros _|intros _; apply Hmsg].
                 exists e. right; right. repeat split. right.
                 exists (it :: items). auto.
        -- destruct (isinstance e CPermissionError) eqn:Hp.
           ++ split; [discriminate|].
              intros [e' [E|[[_ E]|(_ & _ & [[E Hp']|(items & E & _)])]]];
                congruence.
           ++ split; [intros _|intros _; apply Hmsg].
              exists e. right; right. repeat split. left. auto.
      * split; [discriminate|].
        intros [e [E|[[_ E]|(_ & E & _)]]]; congruence.
      * split; [intros _|intros _; apply Hmsg].
        exists e. right; left. auto.
    + split; [discriminate|].
      intros [e [E|[[E _]|(E & _)]]]; congruence.
    + split; [intros _|intros _; apply Hmsg].
      exists e. now left.
  - unfold directory_read, directory_read_operation.
    assert (Hsafe : forall e,
              snd (@_safe_execute dir_reply "directory_read" (Raise e) st)
              = (if is_value (fst (@_safe_execute dir_reply "directory_read"
                                     (Raise e) st))
                 then st else count_error st)).
    { intros e. unfold _safe_execute.
      destruct (isinstance e CPermissionError); [reflexivity|].
      destruct (isinstance e CFileNotFoundError); [reflexivity|].
      destruct (isinstance e CUnicodeDecodeError); reflexivity. }
    destruct (d_exists _) as [[|]|e]; [|reflexivity|apply Hsafe].
    destruct (d_is_dir _) as [[|]|e]; [|reflexivity|apply Hsafe].
    destruct (d_iterdir _) as [items|e].
    + destruct items as [|it items]; [reflexivity|].
      destruct (classify_all _ no_lines) as [b|e]; [reflexivity | apply Hsafe].
    + destruct (isinstance e CPermissionError); [reflexivity | apply Hsafe].
Qed.

Import Scenario Samples.

(** A target below a directory that cannot be searched: no listing, a
    counted message instead. *)
Lemma a_sealed_target_is_counted :
  directory_read sealed_dirs repo_dir "src" fresh_tools
  = (PermissionDenied "directory_read", count_error fresh_tools).
Proof. reflexivity. Qed.

Lemma a_listing_shows_capped_sorted_lines_of_visible_items_witness :
  directory_read sample_dirs repo_dir "" fresh_tools
  = (Value (Listing sample_listing), fresh_tools)
  /\ d_iterdir (sample_dirs (to_str (target_of_path repo_dir ""))) = Ok sample_items
  /\ (length (shown_dirs sample_listing) <= 15
      /\ length (shown_code sample_listing) <= 20
      /\ length (shown_config sample_listing) <= 10
      /\ length (shown_docs sample_listing) <= 10
      /\ length (shown_others sample_listing) <= 15)
  /\ (ascending (shown_dirs sample_listing) /\ ascending (shown_code sample_listing)
      /\ ascending (shown_config sample_listing)
      /\ ascending (shown_docs sample_listing)
      /\ ascending (shown_others sample_listing))
  /\ forall line,
       In line (shown_dirs sample_listing ++ shown_code sample_listing
                ++ shown_config sample_listing ++ shown_docs sample_listing
                ++ shown_others sample_listing) ->
       line_of (List.firstn 150 sample_items) line.
Proof.
  assert (H1 : directory_read sample_dirs repo_dir "" fresh_tools
               = (Value (Listing sample_listing), fresh_tools))
    by (vm_compute; reflexivity).
  assert (H2 : d_iterdir (sample_dirs (to_str (target_of_path repo_dir "")))
               = Ok sample_items) by reflexivity.
  split; [exact H1|]. split; [exact H2|].
  exact (a_listing_shows_capped_sorted_lines_of_visible_items sample_dirs repo_dir ""
           fresh_tools fresh_tools sample_listing sample_items H1 H2).
Defined.

Lemma the_closing_figure_counts_the_items_without_a_line_witness :
  directory_read sample_dirs repo_dir "" fresh_tools
  = (Value (Listing sample_listing), fresh_tools)
  /\ d_iterdir (sample_dirs (to_str (target_of_path repo_dir ""))) = Ok sample_items
  /\ let skipped :=
       length sample_items
       - length (List.filter listed (List.firstn 150 sample_items)) in
     more sample_listing = (if (0 <? skipped)%nat then Some skipped else None)
     /\ lines_shown sample_listing + skipped <= length sample_items
     /\ (length (shown_dirs sample_listing) < 15 ->
         length (shown_code sample_listing) < 20 ->
         length (shown_config sample_listing) < 10 ->
         length (shown_docs sample_listing) < 10 ->
         length (shown_others sample_listing) < 15 ->
         lines_shown sample_listing + skipped = length sample_items).
Proof.
  assert (H1 : directory_read sample_dirs repo_dir "" fresh_tools
               = (Value (Listing sample_listing), fresh_tools))
    by (vm_compute; reflexivity).
  assert (H2 : d_iterdir (sample_dirs (to_str (target_of_path repo_dir "")))
               = Ok sample_items) by reflexivity.
  split; [exact H1|]. split; [exact H2|].
  exact (the_closing_figure_counts_the_items_without_a_line sample_dirs repo_dir ""
           fresh_tools fresh_tools sample_listing sample_items H1 H2).
Defined.

End ListingFacts.

(** ** The report on the selected files *)

Module DetailFacts.

Import Pathlib Classifier Spec Vocabulary PyFacts Browser Detail ClassifierTerms DetailTerms.
Import NameFacts BrowserFacts.

Section Sections.

Variable aca : string -> string -> string.

Lemma analyse_target_some i x s :
  analyse_target aca i x = Some s ->
  number s = i /\ path_of s = t_relative_path x /\ still_there x = true.
Proof.
  unfold analyse_target, still_there.
  destruct (fexists (t_file x)); simpl negb; cbv iota; [|discriminate].
  destruct (fstat (t_file x)) as [size|e]; [|intros E; inversion E; auto].
  destruct (100 * 1024 <? size)%N; [intros E; inversion E; auto|].
  destruct (fread (t_file x)) as [content|e].
  - intros E; inversion E; auto.
  - destruct (_ || _); intros E; inversion E; auto.
Qed.

Lemma analyse_target_none i x :
  analyse_target aca i x = None -> still_there x = false.
Proof.
  unfold analyse_target, still_there.
  destruct (fexists (t_file x)); simpl negb; cbv iota; [|reflexivity].
  destruct (fstat (t_file x)) as [size|e]; [|discriminate].
  destruct (100 * 1024 <? size)%N; [discriminate|].
  destruct (fread (t_file x)) as [content|e]; [discriminate|].
  destruct (_ || _); discriminate.
Qed.

Lemma analyse_from_spec targets : forall i,
  length (analyse_from aca i targets) = length (List.filter still_there targets)
  /\ (forall s, In s (analyse_from aca i targets) ->
        i <= number s
        /\ exists x, List.nth_error targets (number s - i) = Some x
                     /\ path_of s = t_relative_path x /\ still_there x = true)
  /\ StronglySorted lt (List.map number (analyse_from aca i targets)).
Proof.
  induction targets as [|x r IH]; intros i; simpl.
  - repeat split; [contradiction | contradiction | constructor].
  - destruct (IH (S i)) as (Hlen & Hin & Hsorted).
    assert (Hshift : forall s, In s (analyse_from aca (S i) r) ->
              i <= number s
              /\ exists x0, List.nth_error (x :: r) (number s - i) = Some x0
                            /\ path_of s = t_relative_path x0 /\ still_there x0 = true).
    { intros s Hs. destruct (Hin s Hs) as (Hle & x0 & Hn & Hp & He).
      split; [lia|]. exists x0. split; [|auto].
      replace (number s - i) with (S (number s - S i)) by lia. exact Hn. }
    destruct (analyse_target aca i x) as [s0|] eqn:E.
    + apply analyse_target_some in E as (Hn & Hp & He). rewrite He. simpl.
      split; [now rewrite Hlen|]. split.
      * intros s [<-|Hs]; [|now apply Hshift].
        split; [lia|]. exists x. rewrite Hn, Nat.sub_diag. auto.
      * constructor; [exact Hsorted|].
        rewrite List.Forall_forall. intros n Hn'.
        apply List.in_map_iff in Hn' as (s & <- & Hs).
        destruct (Hin s Hs) as (Hle & _). lia.
    + apply analyse_target_none in E. rewrite E.
      split; [exact Hlen|]. split; [exact Hshift | exact Hsorted].
Qed.

(** X22.  [detailed_file_analysis] always returns its report and leaves
    the tools as they were: no exception raised by a file is counted as an
    error.  The report announces the number of selected files, which is at
    most [max_files]; its sections are numbered by the position of their
    file in the selection, in increasing order, and a selected file that
    does not exist any more has no section. *)
Theorem sections_follow_the_selection (max_files : Z) (t : tree) (st : tools) :
  exists report,
    detailed_file_analysis aca max_files t st = (Value report, st)
    /\ match report with
       | IdentificationError e => analysis_targets max_files t = Raise e
       | NoFileIdentified => analysis_targets max_files t = Ok []
       | Analysis count sections =>
           exists targets,
             analysis_targets max_files t = Ok targets
             /\ count = length targets
             /\ 0 < count <= Z.to_nat max_files
             /\ length sections = length (List.filter still_there targets)
             /\ StronglySorted lt (List.map number sections)
             /\ forall s, In s sections ->
                  0 < number s
                  /\ exists x, List.nth_error targets (number s - 1) = Some x
                               /\ path_of s = t_relative_path x
                               /\ still_there x = true
       end.
Proof.
  unfold detailed_file_analysis, _safe_execute.
  eexists. split; [reflexivity|].
  destruct (analysis_targets max_files t) as [targets|e] eqn:E; [|reflexivity].
  destruct targets as [|x r]; [reflexivity|].
  exists (x :: r). split; [reflexivity|]. split; [reflexivity|].
  split.
  - split; [simpl; lia|].
    unfold analysis_targets in E.
    destruct (with_keys _) as [keyed|]; [|discriminate].
    inversion E as [E']. rewrite E'. rewrite <- E'. apply List.firstn_le_length.
  - destruct (analyse_from_spec (x :: r) 1) as (Hlen & Hin & Hsorted).
    split; [exact Hlen|]. split; [exact Hsorted|].
    intros s Hs. destruct (Hin s Hs) as (Hle & x0 & Hn & Hp & He).
    split; [lia|]. exists x0. auto.
Qed.

(** X23.  A selected file of more than 100 KB is described by its size
    and language only, whatever reading it would give; and a snippet is
    shown only for a file that was read, is not plain text and has more
    than 5 non-blank lines: it is then made of at most 10 lines of the
    file. *)
Theorem large_files_are_not_read_and_snippets_are_short
    (i : nat) (x : target) (s : section) :
  analyse_target aca i x = Some s ->
  (forall size, fstat (t_file x) = Ok size -> (100 * 1024 < size)%N ->
     s = Described i (t_relative_path x) (_format_size size)
           (_get_language (Py.lower (suffix_of_name (fname (t_file x)))))
           TooLargeToRead)
  /\ (forall r size language lines code_analysis label snippet,
        s = Described i r size language (ReadOk lines code_analysis (Some (label, snippet))) ->
        exists content,
          fread (t_file x) = Ok content
          /\ lines = useful_lines content /\ 5 < lines /\ language <> "Text"
          /\ sublist (Py.split line_feed snippet) (Py.split line_feed content)
          /\ 0 < length (Py.split line_feed snippet) <= 10).
Proof.
  unfold analyse_target.
  destruct (fexists (t_file x)); simpl negb; cbv iota; [|discriminate].
  destruct (fstat (t_file x)) as [size|e].
  - destruct (N.ltb_spec (100 * 1024) size) as [Hbig|Hsmall].
    + intros E; inversion E; subst; clear E. split.
      * intros size' E' _. inversion E'; subst. reflexivity.
      * intros r sz lg ln ca lb sn E'. discriminate.
    + destruct (fread (t_file x)) as [content|e].
      * intros E; inversion E; subst; clear E. split.
        -- intros size' E' Hbig. inversion E'; subst. lia.
        -- intros r sz lg ln ca lb sn E'. inversion E' as [[Hr Hsz Hlg Hln Hca Hshown]].
           clear E'. exists content. split; [reflexivity|]. split; [reflexivity|].
           destruct (String.eqb_spec
                       (_get_language (Py.lower (suffix_of_name (fname (t_file x)))))
                       "Text") as [Ht|Ht]; simpl negb in Hshown; cbv iota in Hshown;
             [discriminate|].
           rewrite andb_true_l in Hshown.
           destruct (Nat.ltb_spec 5 (useful_lines content)) as [H5|H5];
             [|discriminate].
           pose proof (snippet_lines
                         content
                         (_get_language (Py.lower (suffix_of_name (fname (t_file x)))))
                         10) as Hsnip.
           cbv zeta in Hsnip.
           destruct (String.eqb_spec
                       (_extract_relevant_snippet content
                          (_get_language (Py.lower (suffix_of_name (fname (t_file x)))))
                          10) "") as [He|He]; [discriminate|].
           inversion Hshown; subst.
           destruct Hsnip as [Hs|[Hs Hn]]; [contradiction|]. auto.
      * destruct (_ || _); intros E; inversion E; subst; clear E; split;
          try (intros size' E' Hbig; inversion E'; subst; lia);
          intros r sz lg ln ca lb sn E'; discriminate.
  - intros E; inversion E; subst; clear E. split.
    + intros size' E'. discriminate.
    + intros r sz lg ln ca lb sn E'. discriminate.
Qed.

End Sections.

Import Scenario Samples.

Lemma large_files_are_not_read_and_snippets_are_short_witness :
  analyse_target no_comment 1 big_target
  = Some (Described 1 "big.py" "195KB" "Python" TooLargeToRead)
  /\ (forall size, fstat (t_file big_target) = Ok size -> (100 * 1024 < size)%N ->
        Described 1 "big.py" "195KB" "Python" TooLargeToRead
        = Described 1 (t_relative_path big_target) (_format_size size)
            (_get_language (Py.lower (suffix_of_name (fname (t_file big_target)))))
            TooLargeToRead)
  /\ (forall r size language lines code_analysis label snippet,
        Described 1 "big.py" "195KB" "Python" TooLargeToRead
        = Described 1 r size language
            (ReadOk lines code_analysis (Some (label, snippet))) ->
        exists content,
          fread (t_file big_target) = Ok content
          /\ lines = useful_lines content /\ 5 < lines /\ language <> "Text"
          /\ sublist (Py.split line_feed snippet) (Py.split line_feed content)
          /\ 0 < length (Py.split line_feed snippet) <= 10).
Proof.
  assert (H : analyse_target no_comment 1 big_target
              = Some (Described 1 "big.py" "195KB" "Python" TooLargeToRead))
    by (vm_compute; reflexivity).
  split; [exact H|].
  exact (large_files_are_not_read_and_snippets_are_short no_comment 1 big_target
           (Described 1 "big.py" "195KB" "Python" TooLargeToRead) H).
Defined.

End DetailFacts.

(** ** Documents *)

Module DocumentsFacts.

Import Pathlib Spec Vocabulary PyFacts Documents DocumentsTerms.
Import NameFacts.

(** *** The choice among the messages *)

Lemma longest_keep best l :
  (forall y, In y l -> (Py.len y <= Py.len best)%N) -> longest best l = best.
Proof.
  induction l as [|x r IH]; intros H; simpl; [reflexivity|].
  destruct (N.ltb_spec (Py.len best) (Py.len x)) as [Hlt|Hge].
  - specialize (H x (or_introl eq_refl)). lia.
  - apply IH. intros y Hy. apply H. now right.
Qed.

Lemma longest_first l1 : forall best x l2,
  (forall y, In y (best :: l1) -> (Py.len y < Py.len x)%N) ->
  longest best (l1 ++ x :: l2) = longest x l2.
Proof.
  induction l1 as [|a l1 IH]; intros best x l2 H; simpl.
  - destruct (N.ltb_spec (Py.len best) (Py.len x)) as [Hlt|Hge]; [reflexivity|].
    specialize (H best (or_introl eq_refl)). lia.
  - destruct (N.ltb_spec (Py.len best) (Py.len a)) as [Hlt|Hge];
      apply IH; intros y [<-|Hy]; apply H; simpl; auto.
Qed.

Lemma longest_spec l : forall best,
  In (longest best l) (best :: l)
  /\ forall y, In y (best :: l) -> (Py.len y <= Py.len (longest best l))%N.
Proof.
  induction l as [|x r IH]; intros best; simpl.
  - split; [now left|]. intros y [<-|[]]. lia.
  - destruct (N.ltb_spec (Py.len best) (Py.len x)) as [Hlt|Hge].
    + destruct (IH x) as [Hin Hmax]. split.
      * right. exact Hin.
      * intros y [<-|Hy]; [|now apply Hmax].
        specialize (Hmax x (or_introl eq_refl)). lia.
    + destruct (IH best) as [Hin Hmax]. split.
      * destruct Hin as [Hin|Hin]; [now left | right; now right].
      * intros y [<-|[<-|Hy]].
        -- apply Hmax. now left.
        -- specialize (Hmax best (or_introl eq_refl)). lia.
        -- apply Hmax. now right.
Qed.

Lemma in_candidates messages text :
  In text (candidates_of messages)
  <-> exists m, In m messages /\ is_candidate m = true /\ text = msg_content m.
Proof.
  unfold candidates_of. rewrite List.in_map_iff. split.
  - intros (m & <- & Hm). apply List.filter_In in Hm as [Hm Hc].
    exists m. rewrite List.in_rev. auto.
  - intros (m & Hm & Hc & ->). exists m. split; [reflexivity|].
    apply List.filter_In. split; [now rewrite <- List.in_rev | exact Hc].
Qed.

(** X19.  When at least one message qualifies, the text returned is the
    content of a qualifying message and no qualifying message is longer:
    the longest wins, whatever the role of its author.  A generated text
    is returned only when no message qualifies, and which one depends on
    the title alone. *)
Theorem the_longest_qualifying_message_is_returned
    (messages : list message) (title : string) :
  match _extract_documentation_safely messages title with
  | FromChat text =>
      exists m, In m messages /\ is_candidate m = true /\ text = msg_content m
                /\ forall m', In m' messages -> is_candidate m' = true ->
                              (Py.len (msg_content m') <= Py.len text)%N
  | SectionFallback t i =>
      t = title /\ section_of (Py.lower title) = Some i
      /\ forall m, In m messages -> is_candidate m = false
  | BasicDoc t =>
      t = title /\ section_of (Py.lower title) = None
      /\ forall m, In m messages -> is_candidate m = false
  end.
Proof.
  unfold _extract_documentation_safely.
  pose proof (in_candidates messages) as Hc.
  destruct (candidates_of messages) as [|c cs].
  - assert (Hnone : forall m, In m messages -> is_candidate m = false).
    { intros m Hm. destruct (is_candidate m) eqn:E; [|reflexivity].
      destruct (proj2 (Hc (msg_content m))). now exists m. }
    destruct (section_of (Py.lower title)); auto.
  - destruct (longest_spec cs c) as [Hin Hmax].
    apply Hc in Hin as (m & Hm & Hcand & Htext).
    exists m. repeat split; auto.
    intros m' Hm' Hc'. apply Hmax. apply Hc. now exists m'.
Qed.

(** X20.  Among qualifying messages of the same greatest length the one
    sent last is returned. *)
Theorem among_the_longest_the_latest_message_is_returned
    (before after : list message) (m : message) (title : string) :
  is_candidate m = true ->
  (forall m', In m' before -> is_candidate m' = true ->
              (Py.len (msg_content m') <= Py.len (msg_content m))%N) ->
  (forall m', In m' after -> is_candidate m' = true ->
              (Py.len (msg_content m') < Py.len (msg_content m))%N) ->
  _extract_documentation_safely (before ++ m :: after) title
  = FromChat (msg_content m).
Proof.
  intros Hm Hb Ha. unfold _extract_documentation_safely, candidates_of.
  rewrite List.rev_app_distr. simpl. rewrite <- List.app_assoc. simpl.
  rewrite List.filter_app. simpl. rewrite Hm. rewrite List.map_app. simpl.
  set (l1 := List.map msg_content (List.filter is_candidate (List.rev after))).
  set (l2 := List.map msg_content (List.filter is_candidate (List.rev before))).
  assert (H1 : forall y, In y l1 -> (Py.len y < Py.len (msg_content m))%N).
  { intros y Hy. apply List.in_map_iff in Hy as (m' & <- & Hm').
    apply List.filter_In in Hm' as [Hm' Hc]. apply Ha; [|exact Hc].
    now rewrite List.in_rev. }
  assert (H2 : forall y, In y l2 -> (Py.len y <= Py.len (msg_content m))%N).
  { intros y Hy. apply List.in_map_iff in Hy as (m' & <- & Hm').
    apply List.filter_In in Hm' as [Hm' Hc]. apply Hb; [|exact Hc].
    now rewrite List.in_rev. }
  clearbody l1 l2. destruct l1 as [|c cs]; simpl.
  - now rewrite longest_keep.
  - rewrite longest_first by exact H1. now rewrite longest_keep.
Qed.

(** *** File names *)













(** X24.  The three sections that are always written go to three
    different files of [docs], the section numbered [i] to the file of
    that number, each with the text generated for it; a section whose save
    fails is left out without stopping the others; and the routine
    succeeds exactly when at least one section was saved. *)
Theorem the_three_sections_go_to_three_files
    (disk : nat -> result unit * result unit) :
  List.map snd sections = [0; 1; 2]
  /\ List.NoDup (List.map standard_name [0; 1; 2])
  /\ save_sections disk sections []
     = (List.map (fun i => "docs/" +:+ standard_name i)
                 (List.filter (saved disk) [0; 1; 2]),
        List.flat_map (section_calls disk) sections)
  /\ fst (_create_comprehensive_documentation disk)
     = saved disk 0 || saved disk 1 || saved disk 2
  /\ snd (_create_comprehensive_documentation disk)
     = List.flat_map (section_calls disk) sections.
Proof.
  split; [reflexivity|].
  split.
  { repeat constructor; simpl; intuition discriminate. }
  assert (E : save_sections disk sections []
     = (List.map (fun i => "docs/" +:+ standard_name i)
                 (List.filter (saved disk) [0; 1; 2]),
        List.flat_map (section_calls disk) sections)).
  { unfold saved, section_calls, sections. cbn [save_sections List.flat_map List.filter
      List.map fst snd List.app].
    destruct (disk 0) as [[[]|m0] [[]|w0]];
      destruct (disk 1) as [[[]|m1] [[]|w1]];
      destruct (disk 2) as [[[]|m2] [[]|w2]];
      vm_compute; reflexivity. }
  split; [exact E|].
  unfold _create_comprehensive_documentation. rewrite E.
  unfold saved. cbn [List.filter].
  destruct (disk 0) as [[[]|m0] [[]|w0]];
    destruct (disk 1) as [[[]|m1] [[]|w1]];
    destruct (disk 2) as [[[]|m2] [[]|w2]];
    split; reflexivity.
Qed.

Import Samples.

Lemma among_the_longest_the_latest_message_is_returned_witness :
  is_candidate review = true
  /\ (forall m', In m' [draft] -> is_candidate m' = true ->
                 (Py.len (msg_content m') <= Py.len (msg_content review))%N)
  /\ (forall m', In m' [thanks] -> is_candidate m' = true ->
                 (Py.len (msg_content m') < Py.len (msg_content review))%N)
  /\ _extract_documentation_safely ([draft] ++ review :: [thanks]) "Guia"
     = FromChat (msg_content review).
Proof.
  assert (H1 : is_candidate review = true) by (vm_compute; reflexivity).
  assert (H2 : forall m', In m' [draft] -> is_candidate m' = true ->
                 (Py.len (msg_content m') <= Py.len (msg_content review))%N).
  { intros m' [<-|[]] _. vm_compute. discriminate. }
  assert (H3 : forall m', In m' [thanks] -> is_candidate m' = true ->
                 (Py.len (msg_content m') < Py.len (msg_content review))%N).
  { intros m' [<-|[]] _. vm_compute. reflexivity. }
  split; [exact H1|]. split; [exact H2|]. split; [exact H3|].
  exact (among_the_longest_the_latest_message_is_returned [draft] [thanks] review
           "Guia" H1 H2 H3).
Defined.

End DocumentsFacts.
